(** * buchhalter-ai-cli: the recipe execution engine

  A shallow embedding of [lib/browser/browser.go] and
  [lib/browser/oauth2.go]: the two step dispatchers ([RunRecipe]), the
  step handlers the dispatchers call, the OAuth2 token exchange and the
  JSON path extractor.

  Conventions.
  - Go's [int] and [int64] are [Z]; where the source can overflow the
    wrap-around is written out with [wrap64].
  - Go's [float64] is Rocq's primitive binary64 [float].
  - Go strings are byte strings, here [string].
  - Everything a handler learns from outside the process (the browser,
    the network, the file system, the clock) is read from an explicit
    environment record; everything it does to the outside is appended
    to a trace of events.  Calls to the logger are left out. *)

From Stdlib Require Import ZArith List String Ascii Bool Lia Floats DecimalString
  DecimalPos Permutation.
From stdpp Require Import gmap strings.
Import ListNotations.
Open Scope string_scope.
Open Scope list_scope.
Open Scope Z_scope.

(** ** Go primitives used by the package *)

Module Go.

(** Two's complement wrap-around of a 64-bit signed integer. *)
Definition wrap64 (z : Z) : Z :=
  (z + 2 ^ 63) mod 2 ^ 64 - 2 ^ 63.

Definition MaxInt64 : Z := 2 ^ 63 - 1.
Definition MinInt64 : Z := - 2 ^ 63.

(** [strconv.Itoa] and the [%d] verb of [fmt.Sprintf]. *)
Definition Itoa (z : Z) : string :=
  NilEmpty.string_of_int (Z.to_int z).

(** [float64(i)] for an [int]: round to nearest even.  The magnitude of
    every [int] but the least fits the 63 bits of [of_uint63]. *)
Definition float64_of_int (z : Z) : float :=
  if z =? MinInt64
  then PrimFloat.opp
         (PrimFloat.mul (PrimFloat.of_uint63 (Uint63.of_Z (2 ^ 62))) 2)
  else if z <? 0
  then PrimFloat.opp (PrimFloat.of_uint63 (Uint63.of_Z (- z)))
  else PrimFloat.of_uint63 (Uint63.of_Z z).

(** [strings.Split(s, sep)] for a one-byte separator: the fields between
    the separators, [[""]] for the empty string. *)
Fixpoint Split (s : string) (sep : ascii) : list string :=
  match s with
  | EmptyString => [EmptyString]
  | String c rest =>
      if Ascii.eqb c sep then EmptyString :: Split rest sep
      else match Split rest sep with
           | field :: fields => String c field :: fields
           | [] => [String c EmptyString]
           end
  end.

(** [strings.HasPrefix]. *)
Fixpoint HasPrefix (s prefix_ : string) : bool :=
  match prefix_, s with
  | EmptyString, _ => true
  | String p ps, String c cs => Ascii.eqb p c && HasPrefix cs ps
  | String _ _, EmptyString => false
  end.

Fixpoint drop (n : nat) (s : string) : string :=
  match n, s with
  | O, _ => s
  | S k, String _ rest => drop k rest
  | S _, EmptyString => EmptyString
  end.

(** [strings.Replace(s, old, new, -1)] for a non-empty [old]: every
    non-overlapping occurrence, leftmost first.  [fuel] bounds the scan
    by the length of [s]. *)
Fixpoint replaceFrom (fuel : nat) (s old new : string) : string :=
  match fuel with
  | O => s
  | S fuel' =>
      match s with
      | EmptyString => EmptyString
      | String c rest =>
          if HasPrefix s old
          then new +:+ replaceFrom fuel' (drop (String.length old) s) old new
          else String c (replaceFrom fuel' rest old new)
      end
  end.

Definition ReplaceAll (s old new : string) : string :=
  replaceFrom (String.length s) s old new.

(** The two errors of [strconv]: [ErrSyntax] and [ErrRange]. *)
Inductive NumError := ErrSyntax | ErrRange.

Definition maxUint64 : Z := 2 ^ 64 - 1.

Definition digit (c : ascii) : option Z :=
  let n := Z.of_N (N_of_ascii c) in
  if (48 <=? n) && (n <=? 57) then Some (n - 48) else None.

(** The loop of [strconv.ParseUint(s, 10, 64)] from the value [n]: a byte
    that is no digit is a syntax error with value 0; a value that leaves
    [uint64] is a range error with the largest [uint64], reported at the
    digit that overflows, before any later byte is looked at. *)
Fixpoint parseUintFrom (n : Z) (s : string) : Z * option NumError :=
  match s with
  | EmptyString => (n, None)
  | String c rest =>
      match digit c with
      | None => (0, Some ErrSyntax)
      | Some d =>
          if maxUint64 / 10 + 1 <=? n then (maxUint64, Some ErrRange)
          else if maxUint64 <? n * 10 + d then (maxUint64, Some ErrRange)
          else parseUintFrom (n * 10 + d) rest
      end
  end.

Definition ParseUint (s : string) : Z * option NumError :=
  match s with
  | EmptyString => (0, Some ErrSyntax)
  | _ => parseUintFrom 0 s
  end.

Definition unsignedPart (s : string) : bool * string :=
  match s with
  | String "-" rest => (true, rest)
  | String "+" rest => (false, rest)
  | _ => (false, s)
  end.

(** [strconv.ParseInt(s, 10, 0)]: a range error carries the nearest bound
    of [int]. *)
Definition ParseInt (s : string) : Z * option NumError :=
  match s with
  | EmptyString => (0, Some ErrSyntax)
  | _ =>
      let '(neg, body) := unsignedPart s in
      match ParseUint body with
      | (_, Some ErrSyntax) => (0, Some ErrSyntax)
      | (un, _) =>
          if negb neg && (2 ^ 63 <=? un) then (MaxInt64, Some ErrRange)
          else if neg && (2 ^ 63 <? un) then (MinInt64, Some ErrRange)
          else (if neg then - un else un, None)
      end
  end.

(** [strconv.Atoi]: its fast path for short strings agrees with
    [ParseInt]. *)
Definition Atoi (s : string) : Z * option NumError := ParseInt s.

(** The decimal integers: an optional sign and one or more digits. *)
Fixpoint allDigits (s : string) : bool :=
  match s with
  | EmptyString => true
  | String c rest =>
      match digit c with Some _ => allDigits rest | None => false end
  end.

Definition isDecimal (s : string) : bool :=
  let '(_, body) := unsignedPart s in
  match body with
  | EmptyString => false
  | _ => allDigits body
  end.

(** How long a timer set to [d] runs: one set to a duration that is not
    positive fires at once. *)
Definition timerDelay (d : Z) : Z := Z.max d 0.

(** [textproto.validHeaderFieldByte]: the bytes of a token, letters,
    digits and some signs. *)
Definition validHeaderFieldByte (c : ascii) : bool :=
  let n := N_of_ascii c in
  (N.leb 48 n && N.leb n 57) || (N.leb 65 n && N.leb n 90)
  || (N.leb 97 n && N.leb n 122)
  || existsb (Ascii.eqb c) (list_ascii_of_string "!#$%&'*+-.^_`|~").

Fixpoint validHeaderField (s : string) : bool :=
  match s with
  | EmptyString => true
  | String c rest => validHeaderFieldByte c && validHeaderField rest
  end.

(** The second loop of [textproto.canonicalMIMEHeaderKey]: a lower-case
    letter at the start or after a dash is made upper case, an upper-case
    letter elsewhere is made lower case. *)
Fixpoint canonicalFrom (upper : bool) (s : string) : string :=
  match s with
  | EmptyString => EmptyString
  | String c rest =>
      let n := N_of_ascii c in
      let c' :=
        if upper && (N.leb 97 n && N.leb n 122) then ascii_of_N (n - 32)
        else if negb upper && (N.leb 65 n && N.leb n 90) then ascii_of_N (n + 32)
        else c in
      String c' (canonicalFrom (Ascii.eqb c' "-") rest)
  end.

(** [textproto.CanonicalMIMEHeaderKey]: a key with a byte that is not of
    a token is returned as it is. *)
Definition CanonicalMIMEHeaderKey (s : string) : string :=
  if validHeaderField s then canonicalFrom true s else s.

(** [time.Duration] is an [int64] count of nanoseconds. *)
Definition Millisecond : Z := 1000000.
Definition Second : Z := 1000000000.

End Go.

(** ** Parsed JSON, as [encoding/json] unmarshals into [interface{}] *)

(** A [map[string]interface{}] is kept as the list of its entries in the
  order in which [range] visits them; its keys are pairwise distinct. *)
#[warnings="-register-all"]
Inductive json : Type :=
| JNull
| JBool (b : bool)
| JNumber (f : float)
| JString (s : string)
| JArray (items : list json)
| JObject (entries : list (string * json)).

Module Extractor.

(** [v[key]] on a Go map. *)
Fixpoint mapIndex (entries : list (string * json)) (key : string) : option json :=
  match entries with
  | [] => None
  | (k, value) :: rest =>
      if String.eqb k key then Some value else mapIndex rest key
  end.

(** The [len(keys) == 0] branch on a [[]interface{}]. *)
Fixpoint stringItems (items : list json) : list string :=
  match items with
  | [] => []
  | JString str :: rest => str :: stringItems rest
  | _ :: rest => stringItems rest
  end.

(** [extractJsonRecursive].  The two inner loops are local fixpoints so
    that the recursion stays structural on [data]. *)
Fixpoint extractJsonRecursive (data : json) (keys : list string) {struct data}
  : list string :=
  match keys with
  | [] =>
      match data with
      | JString v => [v]
      | JArray v => stringItems v
      | _ => []
      end
  | key :: remainingKeys =>
      match data with
      | JObject v =>
          let found :=
            (fix index (entries : list (string * json)) : option (list string) :=
               match entries with
               | [] => None
               | (k, value) :: rest =>
                   if String.eqb k key
                   then Some (extractJsonRecursive value remainingKeys)
                   else index rest
               end) v in
          match found with
          | Some results => results
          | None =>
              (fix each (entries : list (string * json)) : list string :=
                 match entries with
                 | [] => []
                 | (_, val) :: rest => extractJsonRecursive val keys ++ each rest
                 end) v
          end
      | JArray v =>
          (fix each (items : list json) : list string :=
             match items with
             | [] => []
             | item :: rest => extractJsonRecursive item keys ++ each rest
             end) v
      | _ => []
      end
  end.

(** [extractJsonValue]. *)
Definition extractJsonValue (data : json) (path : string) : list string :=
  let keys := Go.Split path "." in
  extractJsonRecursive data keys.

End Extractor.


(** ** Data model *)

(** [vault.Credentials]. *)
Module vault.
Record Credentials := {
  Id : string;
  Username : string;
  Password : string;
  Totp : string
}.
End vault.

(** [secrets.Oauth2Tokens]. *)
Module secrets.
Record Oauth2Tokens := {
  AccessToken : string;
  RefreshToken : string;
  CreatedAt : Z;
  ExpiresIn : Z
}.

(** The zero value of [var tj secrets.Oauth2Tokens]. *)
Definition zero : Oauth2Tokens :=
  {| AccessToken := ""; RefreshToken := ""; CreatedAt := 0; ExpiresIn := 0 |}.
End secrets.

(** [parser.Step] and [parser.Recipe]: the fields the two drivers read. *)
Module parser.
Record Oauth2 := {
  AuthUrl : string;
  TokenUrl : string;
  RedirectUrl : string;
  ClientId : string;
  Scope : string;
  PkceMethod : string;
  PkceVerifierLength : Z
}.

Record Step := {
  Action : string;
  Description : string;
  URL : string;
  Selector : string;
  Value : string;
  Oauth2Settings : Oauth2;
  Body : string;
  Headers : gmap string string;
  ExtractDocumentIds : string;
  ExtractDocumentFilenames : string;
  DocumentUrl : string;
  DocumentRequestMethod : string;
  DocumentRequestHeaders : gmap string string
}.

(** [oauth2.go] reads the supplier's name as [recipe.Supplier];
    [browser.go] reads the same field under the name [recipe.Provider]. *)
Record Recipe := {
  Supplier : string;
  Version : string;
  Steps : list Step
}.

Definition Provider (recipe : Recipe) : string := Supplier recipe.
End parser.

(** [utils.StepResult]; a field left out of a Go literal is its zero
    value, [""] or [false]. *)
Module StepResult.
Record t := make {
  Status : string;
  Message : string;
  Break : bool
}.
End StepResult.

(** [utils.RecipeResult]. *)
Module RecipeResult.
Record t := make {
  Status : string;
  StatusText : string;
  StatusTextFormatted : string;
  LastStepId : string;
  LastStepDescription : string;
  LastErrorMessage : string;
  NewFilesCount : Z
}.

(** [var result utils.RecipeResult]. *)
Definition zero : t := make "" "" "" "" "" "" 0.
End RecipeResult.

(** ** The browser, as the handlers drive it *)

Module cdp.
(** A DOM node; [FullXPath] is what [n.FullXPath()] returns. *)
Record Node := { FullXPath : string }.
End cdp.

Module chromedp.
Inductive QueryOption := NodeReady | NodeVisible | ByID | AtLeast0.

(** The actions handed to [chromedp.Run]. *)
#[warnings="-register-all"]
Inductive Action :=
| Navigate (url : string)
| Text (sel : string) (opts : list QueryOption)
| SetDownloadBehavior (behavior : string) (downloadPath : string)
| WaitForLoadEvent
| Evaluate (expression : string)
| Click (sel : string) (opts : list QueryOption)
| SendKeys (sel : string) (value : string) (opts : list QueryOption)
| Sleep (d : Z)
| WaitReady (sel : string) (opts : list QueryOption)
| WaitVisible (sel : string) (opts : list QueryOption)
| Nodes (sel : string) (opts : list QueryOption)
| MouseClickNode (n : cdp.Node)
| FetchEnable
| Location
| Within (timeout : Z) (task : Action)
| Tasks (actions : list Action).
End chromedp.

Module http.
(** A request as handed to [http.DefaultClient.Do]; header names are in
    canonical form. *)
Record Request := {
  Method : string;
  Url : string;
  Header : gmap string string;
  Payload : string
}.

(** What [Do] followed by [io.ReadAll(resp.Body)] yields. *)
Inductive Reply :=
| TransportError (err : string)
| Response (StatusCode : Z) (body : string + string).
End http.

(** What a handler does to the outside world, in program order. *)
Inductive Effect :=
| ChromedpRun (actions : list chromedp.Action)
| TimeSleep (d : Z)
| ListenTarget (listener : string)
| WaitGroupAdd (delta : Z)
| WaitGroupWait
| HttpDo (req : http.Request)
| SaveOauth2TokensToFile (pii : string) (tokens : secrets.Oauth2Tokens) (dir : string)
| CreateFile (filename : string)
| WriteFile (filename : string) (content : string)
| CopyFile (src dst : string)
| AddFile (dst : string)
| UnzipFile (src dst : string)
| Println (line : string).

(** How a handler's goroutine ends: it sends a [StepResult] on the result
    channel, it blocks forever, or it panics. *)
Inductive Completion :=
| Returns (sr : StepResult.t)
| Blocks
| Panics (err : string).

(** What the dispatcher's [select] sees: the handler's result, the timer,
    or the process going down with the handler's panic. *)
Inductive Selected (driver : Type) :=
| Received (lsr : StepResult.t) (b : driver)
| TimedOut (b : driver)
| Crashed (err : string).
Arguments Received {driver}.
Arguments TimedOut {driver}.
Arguments Crashed {driver}.

(** The messages sent to the terminal program with [p.Send]:
    [ResultTitleAndDescriptionUpdate] and [ResultProgressUpdate] in
    [browser.go], [ViewMsgStatusAndDescriptionUpdate] and
    [ViewMsgProgressUpdate] in [oauth2.go]. *)
Inductive Msg :=
| TitleAndDescriptionUpdate (Title Description : string)
| ProgressUpdate (Percent : float).

(** What [RunRecipe] itself does, in program order.  [Launch n action] is
    the [go func()] that starts the handler of step [n]. *)
Inductive Event :=
| Send (msg : Msg)
| Launch (n : Z) (action : string)
| TruncateDirectory (dir : string)
| FmtPrintln (line : string).

(** How one pass through the loop body ends. *)
Inductive Flow (driver : Type) :=
| Next (result : RecipeResult.t) (b : driver)
| Return (result : RecipeResult.t) (b : driver)
| Panic (err : string).
Arguments Next {driver}.
Arguments Return {driver}.
Arguments Panic {driver}.

Definition successResult : StepResult.t :=
  StepResult.make "success" "" false.

Definition errorResult (message : string) : StepResult.t :=
  StepResult.make "error" message false.

(** [cs = (float64(bcs) + float64(n)) / float64(tsc)]. *)
Definition progress (bcs n tsc : Z) : float :=
  PrimFloat.div
    (PrimFloat.add (Go.float64_of_int bcs) (Go.float64_of_int n))
    (Go.float64_of_int tsc).

(** The text both dispatchers derive from the new-files counter. *)
Definition newDocumentsText (newFilesCount : Z) : string :=
  let newDocumentsText := Go.Itoa newFilesCount +:+ " new documents" in
  let newDocumentsText :=
    if newFilesCount =? 1 then "One new document" else newDocumentsText in
  let newDocumentsText :=
    if newFilesCount =? 0 then "No new documents" else newDocumentsText in
  newDocumentsText.

(** [recipe.Supplier + "-" + recipe.Version + "-" + strconv.Itoa(n) + "-" +
    step.Action], and the same string from [fmt.Sprintf("%s-%s-%d-%s")]. *)
Definition stepId (recipe : parser.Recipe) (n : Z) (step : parser.Step) : string :=
  parser.Supplier recipe +:+ "-" +:+ parser.Version recipe +:+ "-"
  +:+ Go.Itoa n +:+ "-" +:+ parser.Action step.

(** ** The browser-driven dispatcher, [browser.go] *)

Module Browser.
Import parser.

(** [BrowserDriver]; the logger, the archive handle and the browser context
    are handles to the outside and live in the environment. *)
Record BrowserDriver := {
  credentials : vault.Credentials;
  buchhalterDirectory : string;
  ChromeVersion : string;
  downloadsDirectory : string;
  documentsDirectory : string;
  recipeTimeout : Z;
  newFilesCount : Z
}.

(** [NewBrowserDriver]. *)
Definition NewBrowserDriver (credentials : vault.Credentials)
  (buchhalterDirectory : string) : BrowserDriver :=
  {| credentials := credentials;
     buchhalterDirectory := buchhalterDirectory;
     ChromeVersion := "";
     downloadsDirectory := "";
     documentsDirectory := "";
     recipeTimeout := 60 * Go.Second;
     newFilesCount := 0 |}.

Definition set_newFilesCount (b : BrowserDriver) (count : Z) : BrowserDriver :=
  {| credentials := credentials b;
     buchhalterDirectory := buchhalterDirectory b;
     ChromeVersion := ChromeVersion b;
     downloadsDirectory := downloadsDirectory b;
     documentsDirectory := documentsDirectory b;
     recipeTimeout := recipeTimeout b;
     newFilesCount := count |}.

(** One entry handed to the callback of [filepath.WalkDir]: the name of
    the entry and the error the walk reports for it, if any. *)
Record WalkEntry := { Name : string; walkErr : option string }.

(** What one step learns from outside the process.  An [option string] is
    a Go [error]: [None] is [nil], [Some msg] has [err.Error() = msg]. *)
Record Env := {
  (** [chromedp.Run(ctx, actions...)]. *)
  Run : list chromedp.Action -> option string;
  (** What [chromedp.Nodes(selector, &nodes)] stores. *)
  nodesOf : string -> list cdp.Node;
  (** Number of [EventDownloadProgress] events in state completed that
      the listener registered by the step sees as long as it lives.  It is
      registered on the context of the run and never removed, so it lives
      to the end of the run and also sees what completes after the
      step. *)
  downloadsCompleted : nat;
  (** [time.Now().UnixNano()]. *)
  UnixNano : Z;
  (** [utils.FindFiles(root, ext)]. *)
  FindFiles : string -> string -> list string * option string;
  (** [utils.UnzipFile(src, dst)]. *)
  unzip : string -> string -> option string;
  (** The entries [filepath.WalkDir(root, fn)] visits, in order. *)
  WalkDir : string -> list WalkEntry;
  (** [regexp.MatchString(pattern, s)]. *)
  MatchString : string -> string -> bool * option string;
  (** [filepath.Join(a, b)]. *)
  Join : string -> string -> string;
  (** [documentArchive.FileExists(path)]. *)
  FileExists : string -> bool;
  (** [utils.CopyFile(src, dst)]. *)
  copy : string -> string -> option string;
  (** [utils.TruncateDirectory(dir)]. *)
  truncate : string -> option string;
  (** Nanoseconds from the launch of the handler to its send on the
      result channel. *)
  elapsed : Z;
  (** The new-files counter the dispatcher reads if the timer fires
      first, as a function of the counter at launch: the abandoned
      handler keeps running and may have changed it. *)
  countAtTimeout : Z -> Z
}.

(** A handler's outcome, the driver it leaves and what it did. *)
Definition Handled : Type := Completion * BrowserDriver * list Effect.

(** The shape shared by the one-call handlers:
    [if err := chromedp.Run(ctx, ...); err != nil { error } success]. *)
Definition runOnce (env : Env) (b : BrowserDriver)
  (actions : list chromedp.Action) : Handled :=
  match Run env actions with
  | Some err => (Returns (errorResult err), b, [ChromedpRun actions])
  | None => (Returns successResult, b, [ChromedpRun actions])
  end.

Definition stepOpen (env : Env) (b : BrowserDriver) (step : Step) : Handled :=
  runOnce env b [chromedp.Navigate (URL step); chromedp.WaitForLoadEvent].

Definition stepRemoveElement (env : Env) (b : BrowserDriver) (step : Step)
  : Handled :=
  let nodeName := "node" +:+ Go.Itoa (UnixNano env) in
  runOnce env b
    [chromedp.Evaluate
       ("let " +:+ nodeName +:+ " = document.querySelector('" +:+ Selector step
        +:+ "'); " +:+ nodeName +:+ ".parentNode.removeChild(" +:+ nodeName
        +:+ ")")].

Definition stepClick (env : Env) (b : BrowserDriver) (step : Step) : Handled :=
  runOnce env b [chromedp.Click (Selector step) [chromedp.NodeReady]].

(** [parseCredentialPlaceholders]. *)
Definition parseCredentialPlaceholders (value : string)
  (credentials : vault.Credentials) : string :=
  let value := Go.ReplaceAll value "{{ username }}" (vault.Username credentials) in
  let value := Go.ReplaceAll value "{{ password }}" (vault.Password credentials) in
  let value := Go.ReplaceAll value "{{ totp }}" (vault.Totp credentials) in
  value.

Definition stepType (env : Env) (b : BrowserDriver) (step : Step)
  (credentials : vault.Credentials) : Handled :=
  let value := parseCredentialPlaceholders (Value step) credentials in
  runOnce env b [chromedp.SendKeys (Selector step) value [chromedp.NodeReady]].

(** [stepSleep]: the error of [strconv.Atoi] is dropped;
    [time.Duration(seconds) * time.Second] is an [int64] product. *)
Definition stepSleep (env : Env) (b : BrowserDriver) (step : Step) : Handled :=
  let '(seconds, _) := Go.Atoi (Value step) in
  runOnce env b [chromedp.Sleep (Go.wrap64 (seconds * Go.Second))].

Definition stepWaitFor (env : Env) (b : BrowserDriver) (step : Step) : Handled :=
  runOnce env b [chromedp.WaitReady (Selector step) []].

(** The actions of one download trigger in [stepDownloadAll]. *)
Definition triggerDownload (step : Step) (n : cdp.Node) : list chromedp.Action :=
  [chromedp.FetchEnable;
   chromedp.Tasks
     [chromedp.MouseClickNode n;
      chromedp.WaitVisible (cdp.FullXPath n +:+ Value step) [];
      chromedp.Click (cdp.FullXPath n +:+ Value step) []]].

(** The [for _, n := range nodes] loop of [stepDownloadAll], from the
    counter [x]: the error that ends it, if any, and what it did. *)
Fixpoint clickNodes (env : Env) (step : Step) (nodes : list cdp.Node) (x : Z)
  : option string * list Effect :=
  match nodes with
  | [] => (None, [])
  | n :: rest =>
      if 2 <=? x then (None, [])
      else
        match Run env (triggerDownload step n) with
        | Some err => (Some err, [ChromedpRun (triggerDownload step n)])
        | None =>
            let '(err, effects) := clickNodes env step rest (x + 1) in
            (err,
             ChromedpRun (triggerDownload step n)
               :: TimeSleep (1500 * Go.Millisecond) :: effects)
        end
  end.

(** The panic of [wg.Done()] on a counter that is zero. *)
Definition negativeCounter : string := "sync: negative WaitGroup counter".

(** [stepDownloadAll].  [wg.Wait()] returns once the counter set by
    [wg.Add(dl)] has been brought to zero by one [wg.Done()] per completed
    download the listener sees; with fewer completions it never returns.
    The listener outlives the step: [wg.Done()] runs in a goroutine of its
    own for every further completion, and the first one beyond [dl] brings
    the counter below zero, which panics and ends the process whatever the
    dispatcher is doing by then.  The model lets the step itself end with
    that panic, also when a trigger has failed.  Otherwise, when a trigger
    fails the step returns its error, and the dispatcher ends the run, and
    with it the listener, there. *)
Definition stepDownloadAll (env : Env) (b : BrowserDriver) (step : Step)
  : Handled :=
  let resolve :=
    [chromedp.Tasks [chromedp.WaitReady (Selector step) [];
                     chromedp.Nodes (Selector step) []]] in
  match Run env resolve with
  | Some err => (Returns (errorResult err), b, [ChromedpRun resolve])
  | None =>
      let nodes := nodesOf env (Selector step) in
      let dl := Z.of_nat (length nodes) in
      let dl := if 2 <? dl then 2 else dl in
      let before :=
        [ChromedpRun resolve; ListenTarget "download"; WaitGroupAdd dl] in
      let completed := Z.of_nat (downloadsCompleted env) in
      match clickNodes env step nodes 0 with
      | (Some err, clicks) =>
          if dl <? completed
          then (Panics negativeCounter, b, before ++ clicks)
          else (Returns (errorResult err), b, before ++ clicks)
      | (None, clicks) =>
          if completed <? dl
          then (Blocks, b, before ++ clicks ++ [WaitGroupWait])
          else if completed =? dl
          then (Returns successResult, b, before ++ clicks ++ [WaitGroupWait])
          else (Panics negativeCounter, b, before ++ clicks ++ [WaitGroupWait])
      end
  end.

(** The [for _, s := range zipFiles] loop of [stepTransform]. *)
Fixpoint unzipAll (env : Env) (b : BrowserDriver) (zipFiles : list string)
  : option string * list Effect :=
  match zipFiles with
  | [] => (None, [])
  | s :: rest =>
      match unzip env s (downloadsDirectory b) with
      | Some err => (Some err, [UnzipFile s (downloadsDirectory b)])
      | None =>
          let '(err, effects) := unzipAll env b rest in
          (err, UnzipFile s (downloadsDirectory b) :: effects)
      end
  end.

Definition stepTransform (env : Env) (b : BrowserDriver) (step : Step) : Handled :=
  if String.eqb (Value step) "unzip" then
    let '(zipFiles, err) := FindFiles env (downloadsDirectory b) ".zip" in
    let printed := match err with Some e => [Println e] | None => [] end in
    match unzipAll env b zipFiles with
    | (Some e, effects) => (Returns (errorResult e), b, printed ++ effects)
    | (None, effects) => (Returns successResult, b, printed ++ effects)
    end
  else (Returns successResult, b, []).

(** The callback of [filepath.WalkDir] in [stepMove], entry by entry: the
    error that stops the walk, the counter and what was done. *)
Fixpoint moveFiles (env : Env) (b : BrowserDriver) (step : Step)
  (entries : list WalkEntry) (count : Z) : option string * Z * list Effect :=
  match entries with
  | [] => (None, count, [])
  | d :: rest =>
      match walkErr d with
      | Some e => (Some e, count, [])
      | None =>
          match MatchString env (Value step) (Name d) with
          | (_, Some e) => (Some e, count, [])
          | (false, None) => moveFiles env b step rest count
          | (true, None) =>
              let srcFile := Join env (downloadsDirectory b) (Name d) in
              if FileExists env srcFile then moveFiles env b step rest count
              else
                let dst := Join env (documentsDirectory b) (Name d) in
                match copy env srcFile dst with
                | Some e => (Some e, count + 1, [CopyFile srcFile dst])
                | None =>
                    let '(err, count', effects) :=
                      moveFiles env b step rest (count + 1) in
                    (err, count', CopyFile srcFile dst :: effects)
                end
          end
      end
  end.

Definition stepMove (env : Env) (b : BrowserDriver) (step : Step) : Handled :=
  let '(err, count, effects) :=
    moveFiles env b step (WalkDir env (downloadsDirectory b)) 0 in
  match err with
  | Some e => (Returns (errorResult e), set_newFilesCount b count, effects)
  | None => (Returns successResult, set_newFilesCount b count, effects)
  end.

Definition stepRunScript (env : Env) (b : BrowserDriver) (step : Step) : Handled :=
  runOnce env b [chromedp.Evaluate (Value step)].

(** The [for _, url := range res] loop of [stepRunScriptDownloadUrls]. *)
Fixpoint downloadUrls (env : Env) (b : BrowserDriver) (res : list string)
  : option string * list Effect :=
  match res with
  | [] => (None, [])
  | url :: rest =>
      let actions :=
        [chromedp.SetDownloadBehavior "allowAndName" (downloadsDirectory b);
         chromedp.Navigate url;
         chromedp.WaitForLoadEvent] in
      match Run env actions with
      | Some err => (Some err, [ChromedpRun actions])
      | None =>
          let '(err, effects) := downloadUrls env b rest in
          (err, ChromedpRun actions :: effects)
      end
  end.

(** [stepRunScriptDownloadUrls].  The source builds the [Evaluate] action
    without running it, so [res] is still the nil slice when the loop
    starts. *)
Definition stepRunScriptDownloadUrls (env : Env) (b : BrowserDriver)
  (step : Step) : Handled :=
  let res : list string := [] in
  match downloadUrls env b res with
  | (Some err, effects) => (Returns (errorResult err), b, effects)
  | (None, effects) => (Returns successResult, b, effects)
  end.

(** The [switch action := step.Action] inside the goroutine; an action
    outside the list sends nothing on the channel. *)
Definition handle (env : Env) (b : BrowserDriver) (step : Step) : Handled :=
  let action := Action step in
  if String.eqb action "open" then stepOpen env b step
  else if String.eqb action "removeElement" then stepRemoveElement env b step
  else if String.eqb action "click" then stepClick env b step
  else if String.eqb action "type" then stepType env b step (credentials b)
  else if String.eqb action "sleep" then stepSleep env b step
  else if String.eqb action "waitFor" then stepWaitFor env b step
  else if String.eqb action "downloadAll" then stepDownloadAll env b step
  else if String.eqb action "transform" then stepTransform env b step
  else if String.eqb action "move" then stepMove env b step
  else if String.eqb action "runScript" then stepRunScript env b step
  else if String.eqb action "runScriptDownloadUrls"
       then stepRunScriptDownloadUrls env b step
  else (Blocks, b, []).

(** The [select] over the result channel and [time.After(b.recipeTimeout)]:
    the handler's send wins when it comes before the timer. *)
Definition selectResult (env : Env) (b : BrowserDriver) (step : Step)
  : Selected BrowserDriver :=
  let abandoned := set_newFilesCount b (countAtTimeout env (newFilesCount b)) in
  match handle env b step with
  | (Returns lsr, b', _) =>
      if elapsed env <? recipeTimeout b then Received lsr b'
      else TimedOut abandoned
  | (Panics err, _, _) =>
      if elapsed env <? recipeTimeout b then Crashed err
      else TimedOut abandoned
  | (Blocks, _, _) => TimedOut abandoned
  end.

(** [utils.TruncateDirectory(b.downloadsDirectory)] and the
    [fmt.Println(err)] that follows a failure. *)
Definition purge (env : Env) (b : BrowserDriver) : list Event :=
  match truncate env (downloadsDirectory b) with
  | Some err => [TruncateDirectory (downloadsDirectory b); FmtPrintln err]
  | None => [TruncateDirectory (downloadsDirectory b)]
  end.

Section Dispatcher.
(** [lipgloss.NewStyle().Bold(true).Render]. *)
Variable textStyleBold : string -> string.
(** The arguments [tsc], [scs] and [bcs] of [RunRecipe]: steps of all
    recipes, steps of this recipe, steps of the recipes before it. *)
Variables tsc scs bcs : Z.
Variable recipe : Recipe.
(** The environment of the step the counter [n] stands at. *)
Variable world : Z -> Env.

Definition title (n : Z) (step : Step) : Msg :=
  TitleAndDescriptionUpdate
    ("Downloading invoices from " +:+ Provider recipe +:+ " (" +:+ Go.Itoa n
     +:+ "/" +:+ Go.Itoa scs +:+ "):")
    (Description step).

Definition onSuccess (n : Z) (step : Step) (b : BrowserDriver) : RecipeResult.t :=
  {| RecipeResult.Status := "success";
     RecipeResult.StatusText :=
       Provider recipe +:+ ": " +:+ newDocumentsText (newFilesCount b);
     RecipeResult.StatusTextFormatted :=
       "- " +:+ textStyleBold (Provider recipe) +:+ ": "
       +:+ newDocumentsText (newFilesCount b);
     RecipeResult.LastStepId := stepId recipe n step;
     RecipeResult.LastStepDescription := Description step;
     RecipeResult.LastErrorMessage := "";
     RecipeResult.NewFilesCount := newFilesCount b |}.

Definition onError (n : Z) (step : Step) (lsr : StepResult.t)
  (b : BrowserDriver) : RecipeResult.t :=
  {| RecipeResult.Status := "error";
     RecipeResult.StatusText := Provider recipe +:+ "aborted with error.";
     RecipeResult.StatusTextFormatted :=
       "x " +:+ textStyleBold (Provider recipe) +:+ " aborted with error.";
     RecipeResult.LastStepId := stepId recipe n step;
     RecipeResult.LastStepDescription := Description step;
     RecipeResult.LastErrorMessage := StepResult.Message lsr;
     RecipeResult.NewFilesCount := newFilesCount b |}.

Definition onTimeout (n : Z) (step : Step) (b : BrowserDriver) : RecipeResult.t :=
  {| RecipeResult.Status := "error";
     RecipeResult.StatusText := Provider recipe +:+ " aborted with timeout.";
     RecipeResult.StatusTextFormatted :=
       "x " +:+ textStyleBold (Provider recipe) +:+ " aborted with timeout.";
     RecipeResult.LastStepId := stepId recipe n step;
     RecipeResult.LastStepDescription := Description step;
     RecipeResult.LastErrorMessage := "";
     RecipeResult.NewFilesCount := newFilesCount b |}.

(** One pass through the body of [for _, step := range recipe.Steps]. *)
Definition runStep (n : Z) (b : BrowserDriver) (step : Step)
  : Flow BrowserDriver * list Event :=
  let started := [Send (title n step); Launch n (Action step)] in
  match selectResult (world n) b step with
  | Received lsr b' =>
      if String.eqb (StepResult.Status lsr) "success" then
        (Next (onSuccess n step b') b',
         started ++ [Send (ProgressUpdate (progress bcs n tsc))])
      else
        (Return (onError n step lsr b') b', started ++ purge (world n) b')
  | TimedOut b' =>
      (Return (onTimeout n step b') b', started ++ purge (world n) b')
  | Crashed err => (Panic err, started)
  end.

(** The loop, from the counter [n] and the [result] recorded so far, and
    the purge and [return result] after it. *)
Fixpoint runSteps (steps : list Step) (n : Z) (result : RecipeResult.t)
  (b : BrowserDriver) : Flow BrowserDriver * list Event :=
  match steps with
  | [] => (Return result b, purge (world n) b)
  | step :: rest =>
      match runStep n b step with
      | (Next result' b', events) =>
          let '(flow, later) := runSteps rest (n + 1) result' b' in
          (flow, events ++ later)
      | stopped => stopped
      end
  end.

End Dispatcher.

(** What [RunRecipe] learns before the loop. *)
Record Host := {
  (** [cu.New(...)]. *)
  startBrowser : option string;
  (** The run that reads [chrome://version]: its error, or the text. *)
  readVersion : string + string;
  (** [strings.TrimSpace]. *)
  TrimSpace : string -> string;
  (** [utils.InitProviderDirectories(buchhalterDirectory, provider)]. *)
  InitProviderDirectories : string -> string -> string * string * option string;
  (** The run that sets the download behaviour. *)
  allowDownloads : option string;
  (** [lipgloss.NewStyle().Bold(true).Render]. *)
  textStyleBold : string -> string
}.

(** [RunRecipe]: browser start-up, then the loop from [n := 1] and the
    zero [result].  A start-up failure panics.  The listener that blocks
    image requests has no part in the result and is left out. *)
Definition RunRecipe (host : Host) (world : Z -> Env) (tsc scs bcs : Z)
  (b : BrowserDriver) (recipe : Recipe) : Flow BrowserDriver * list Event :=
  match startBrowser host with
  | Some err => (Panic err, [])
  | None =>
      let version :=
        if String.eqb (ChromeVersion b) ""
        then match readVersion host with
             | inl err => inl err
             | inr text => inr (TrimSpace host text)
             end
        else inr (ChromeVersion b) in
      match version with
      | inl err => (Panic err, [])
      | inr chromeVersion =>
          let '(downloads, documents, err) :=
            InitProviderDirectories host (buchhalterDirectory b) (Provider recipe) in
          let printed :=
            match err with Some e => [FmtPrintln e] | None => [] end in
          let b :=
            {| credentials := credentials b;
               buchhalterDirectory := buchhalterDirectory b;
               ChromeVersion := chromeVersion;
               downloadsDirectory := downloads;
               documentsDirectory := documents;
               recipeTimeout := recipeTimeout b;
               newFilesCount := newFilesCount b |} in
          match allowDownloads host with
          | Some err => (Panic err, printed)
          | None =>
              let '(flow, events) :=
                runSteps (textStyleBold host) tsc scs bcs recipe world
                         (Steps recipe) 1 RecipeResult.zero b in
              (flow, printed ++ events)
          end
      end
  end.

End Browser.

(** ** The OAuth2-driven dispatcher, [oauth2.go] *)

Module OAuth2.
Import parser.

(** [ClientAuthBrowserDriver]. *)
Record ClientAuthBrowserDriver := {
  credentials : vault.Credentials;
  buchhalterConfigDirectory : string;
  buchhalterDocumentsDirectory : string;
  ChromeVersion : string;
  downloadsDirectory : string;
  documentsDirectory : string;
  recipeTimeout : Z;
  newFilesCount : Z;
  oauth2AuthToken : string;
  oauth2AuthUrl : string;
  oauth2TokenUrl : string;
  oauth2RedirectUrl : string;
  oauth2ClientId : string;
  oauth2Scope : string;
  oauth2PkceMethod : string;
  oauth2PkceVerifierLength : Z
}.

(** [NewClientAuthBrowserDriver]. *)
Definition NewClientAuthBrowserDriver (credentials : vault.Credentials)
  (buchhalterConfigDirectory buchhalterDocumentsDirectory : string)
  : ClientAuthBrowserDriver :=
  {| credentials := credentials;
     buchhalterConfigDirectory := buchhalterConfigDirectory;
     buchhalterDocumentsDirectory := buchhalterDocumentsDirectory;
     ChromeVersion := "";
     downloadsDirectory := "";
     documentsDirectory := "";
     recipeTimeout := 120 * Go.Second;
     newFilesCount := 0;
     oauth2AuthToken := "";
     oauth2AuthUrl := "";
     oauth2TokenUrl := "";
     oauth2RedirectUrl := "";
     oauth2ClientId := "";
     oauth2Scope := "";
     oauth2PkceMethod := "";
     oauth2PkceVerifierLength := 0 |}.

Definition set_newFilesCount (b : ClientAuthBrowserDriver) (count : Z)
  : ClientAuthBrowserDriver :=
  {| credentials := credentials b;
     buchhalterConfigDirectory := buchhalterConfigDirectory b;
     buchhalterDocumentsDirectory := buchhalterDocumentsDirectory b;
     ChromeVersion := ChromeVersion b;
     downloadsDirectory := downloadsDirectory b;
     documentsDirectory := documentsDirectory b;
     recipeTimeout := recipeTimeout b;
     newFilesCount := count;
     oauth2AuthToken := oauth2AuthToken b;
     oauth2AuthUrl := oauth2AuthUrl b;
     oauth2TokenUrl := oauth2TokenUrl b;
     oauth2RedirectUrl := oauth2RedirectUrl b;
     oauth2ClientId := oauth2ClientId b;
     oauth2Scope := oauth2Scope b;
     oauth2PkceMethod := oauth2PkceMethod b;
     oauth2PkceVerifierLength := oauth2PkceVerifierLength b |}.

Definition set_oauth2AuthToken (b : ClientAuthBrowserDriver) (token : string)
  : ClientAuthBrowserDriver :=
  {| credentials := credentials b;
     buchhalterConfigDirectory := buchhalterConfigDirectory b;
     buchhalterDocumentsDirectory := buchhalterDocumentsDirectory b;
     ChromeVersion := ChromeVersion b;
     downloadsDirectory := downloadsDirectory b;
     documentsDirectory := documentsDirectory b;
     recipeTimeout := recipeTimeout b;
     newFilesCount := newFilesCount b;
     oauth2AuthToken := token;
     oauth2AuthUrl := oauth2AuthUrl b;
     oauth2TokenUrl := oauth2TokenUrl b;
     oauth2RedirectUrl := oauth2RedirectUrl b;
     oauth2ClientId := oauth2ClientId b;
     oauth2Scope := oauth2Scope b;
     oauth2PkceMethod := oauth2PkceMethod b;
     oauth2PkceVerifierLength := oauth2PkceVerifierLength b |}.

(** What one step learns from outside the process.  An [option string] is
    a Go [error]: [None] is [nil], [Some msg] has [err.Error() = msg]. *)
Record Env := {
  (** [secrets.GetOauthAccessTokenFromCache(pii, dir)]; [None] is a
      non-nil error. *)
  GetOauthAccessTokenFromCache : string -> string -> option secrets.Oauth2Tokens;
  (** [secrets.SaveOauth2TokensToFile(pii, tokens, dir)]. *)
  save : string -> secrets.Oauth2Tokens -> string -> option string;
  (** [time.Now().Unix()]. *)
  now : Z;
  (** [http.NewRequestWithContext(ctx, method, url, body)]. *)
  NewRequest : string -> string -> option string;
  (** [http.DefaultClient.Do(req)] and the read of the body. *)
  Do : http.Request -> http.Reply;
  (** [json.Unmarshal(body, &tj)]: what [tj] holds afterwards, and the
      error. *)
  unmarshalTokens : string -> secrets.Oauth2Tokens * option string;
  (** [json.Unmarshal(body, &jsr)] into an [interface{}]. *)
  unmarshal : string -> string + json;
  (** [chromedp.Run(ctx, actions...)]. *)
  Run : list chromedp.Action -> option string;
  (** What [chromedp.Nodes(selector, &nodes, AtLeast(0))] stores. *)
  nodesOf : string -> list cdp.Node;
  (** What [chromedp.Location(&u)] stores. *)
  location : string;
  (** [url.Parse(u)] then [Query().Get("code")]; [None] when the parse
      fails and leaves a nil [*url.URL]. *)
  codeOf : string -> option string;
  (** [url.Values.Encode()] of the parameters added, in order. *)
  Encode : list (string * string) -> string;
  (** [utils.Oauth2Pkce(length)]: verifier, challenge, error. *)
  Oauth2Pkce : Z -> string * string * option string;
  (** [utils.RandomString(length)]. *)
  RandomString : Z -> string;
  (** [filepath.Join(elem...)]. *)
  Join : list string -> string;
  (** [os.Create(name)]. *)
  create : string -> option string;
  (** For a reply whose body fails to be read to its end: the bytes of
      it that were read before the error. *)
  readBefore : http.Request -> string;
  (** The writes of [io.Copy] of the given bytes to the file of the given
      name: [None] when all of them are written, [Some (n, err)] when a
      write fails with [err] after [n] bytes. *)
  writeError : string -> string -> option (nat * string);
  (** [documentArchive.FileExists(path)]. *)
  FileExists : string -> bool;
  (** [utils.CopyFile(src, dst)]. *)
  copy : string -> string -> option string;
  (** [documentArchive.AddFile(path)]. *)
  addFile : string -> option string;
  (** Nanoseconds from the launch of the handler to its send on the
      result channel. *)
  elapsed : Z;
  (** The new-files counter the dispatcher reads if the timer fires
      first, as a function of the counter at launch. *)
  countAtTimeout : Z -> Z
}.

Definition Handled : Type := Completion * ClientAuthBrowserDriver * list Effect.

(** [stepOauth2Setup]. *)
Definition stepOauth2Setup (b : ClientAuthBrowserDriver) (step : Step) : Handled :=
  let b :=
    {| credentials := credentials b;
       buchhalterConfigDirectory := buchhalterConfigDirectory b;
       buchhalterDocumentsDirectory := buchhalterDocumentsDirectory b;
       ChromeVersion := ChromeVersion b;
       downloadsDirectory := downloadsDirectory b;
       documentsDirectory := documentsDirectory b;
       recipeTimeout := recipeTimeout b;
       newFilesCount := newFilesCount b;
       oauth2AuthToken := oauth2AuthToken b;
       oauth2AuthUrl := AuthUrl (Oauth2Settings step);
       oauth2TokenUrl := TokenUrl (Oauth2Settings step);
       oauth2RedirectUrl := RedirectUrl (Oauth2Settings step);
       oauth2ClientId := ClientId (Oauth2Settings step);
       oauth2Scope := Scope (Oauth2Settings step);
       oauth2PkceMethod := PkceMethod (Oauth2Settings step);
       oauth2PkceVerifierLength := PkceVerifierLength (Oauth2Settings step) |} in
  (Returns (StepResult.make "success" "Successfully set up OAuth2 settings." false),
   b, []).

(** [validOauth2AuthToken]: [tokens.CreatedAt + tokens.ExpiresIn] is an
    [int] sum. *)
Definition validOauth2AuthToken (env : Env) (tokens : secrets.Oauth2Tokens) : bool :=
  let n := now env in
  let vu := Go.wrap64 (secrets.CreatedAt tokens + secrets.ExpiresIn tokens) in
  n <? vu.

(** The double quote and the line feed of the raw-string payloads. *)
Definition dq : string := String (ascii_of_nat 34) EmptyString.
Definition lf : string := String (ascii_of_nat 10) EmptyString.
Definition quoted (s : string) : string := dq +:+ s +:+ dq.

(** One line [  "name": "value"] of a payload. *)
Definition member (name value : string) : string :=
  quoted name +:+ ": " +:+ quoted value.

(** The headers [getOauth2Tokens] sets. *)
Definition jsonHeader : gmap string string :=
  {[ "Content-Type" := "application/json" ]}.

(** [req.Header.Set(key, value)]: the value replaces what the header
    holds under the canonical form of the key. *)
Definition HeaderSet (header : gmap string string) (key value : string)
  : gmap string string :=
  <[Go.CanonicalMIMEHeaderKey key := value]> header.

(** The loop [for n, h := range headers] over the entries in the order
    [entries]: the token is substituted when the name is, byte for byte,
    [Authorization]. *)
Definition setHeaders (b : ClientAuthBrowserDriver)
  (entries : list (string * string)) (header : gmap string string)
  : gmap string string :=
  fold_left
    (fun header '(n, h) =>
       HeaderSet header n
         (if String.eqb n "Authorization"
          then Go.ReplaceAll h "{{ token }}" (oauth2AuthToken b)
          else h))
    entries header.

(** The headers [stepOauth2PostAndGetItems] and [doRequest] set:
    [Content-Type] first, then every header of the step.  Go leaves the
    order of a [range] over a map open; the order matters only when two
    names of the step have the same canonical form, and the entries are
    taken here in the order of [map_to_list]. *)
Definition authorizedHeader (b : ClientAuthBrowserDriver)
  (headers : gmap string string) : gmap string string :=
  setHeaders b (map_to_list headers) jsonHeader.

(** The request of [getOauth2Tokens]. *)
Definition tokenRequest (b : ClientAuthBrowserDriver) (payload : string)
  : http.Request :=
  {| http.Method := "POST"; http.Url := oauth2TokenUrl b;
     http.Header := jsonHeader; http.Payload := payload |}.

(** The request of [stepOauth2PostAndGetItems]. *)
Definition itemsRequest (b : ClientAuthBrowserDriver) (step : Step)
  : http.Request :=
  {| http.Method := "POST"; http.Url := URL step;
     http.Header := authorizedHeader b (Headers step);
     http.Payload := Body step |}.

(** [getOauth2Tokens]: the tokens, the error and what was done. *)
Definition getOauth2Tokens (env : Env) (b : ClientAuthBrowserDriver)
  (payload pii buchhalterConfigDirectory : string)
  : secrets.Oauth2Tokens * option string * list Effect :=
  let tj := secrets.zero in
  match NewRequest env "POST" (oauth2TokenUrl b) with
  | Some err => (tj, Some ("failed to create request: " +:+ err), [])
  | None =>
      let req := tokenRequest b payload in
      match Do env req with
      | http.TransportError err =>
          (tj, Some ("failed to send oauth2 token request: " +:+ err), [HttpDo req])
      | http.Response _ (inl err) =>
          (tj, Some ("error reading oauth2 token response body: " +:+ err),
           [HttpDo req])
      | http.Response StatusCode (inr body) =>
          if StatusCode =? 200 then
            match unmarshalTokens env body with
            | (tj, Some err) =>
                (tj, Some ("error unmarshalling JSON: " +:+ err), [HttpDo req])
            | (tj, None) =>
                let saved :=
                  [HttpDo req;
                   SaveOauth2TokensToFile pii tj buchhalterConfigDirectory] in
                match save env pii tj buchhalterConfigDirectory with
                | Some err =>
                    (tj, Some ("error storing Oauth2 token ti file: " +:+ err), saved)
                | None => (tj, None, saved)
                end
            end
          else if StatusCode =? 400 then
            (tj,
             Some "unauthorized error while trying to get oauth2 access token with refresh token",
             [HttpDo req])
          else (tj, Some "unknown error getting oauth2 token", [HttpDo req])
      end
  end.

(** The payload of the refresh-token exchange. *)
Definition refreshPayload (b : ClientAuthBrowserDriver)
  (tokens : secrets.Oauth2Tokens) : string :=
  "{" +:+ lf
  +:+ member "grant_type" "refresh_token" +:+ "," +:+ lf
  +:+ member "client_id" (oauth2ClientId b) +:+ "," +:+ lf
  +:+ member "refresh_token" (secrets.RefreshToken tokens) +:+ "," +:+ lf
  +:+ member "scope" (oauth2Scope b) +:+ lf
  +:+ "}".

(** The payload of the authorization-code exchange. *)
Definition codePayload (b : ClientAuthBrowserDriver) (verifier code : string)
  : string :=
  "{" +:+ lf
  +:+ member "grant_type" "authorization_code" +:+ "," +:+ lf
  +:+ member "client_id" (oauth2ClientId b) +:+ "," +:+ lf
  +:+ member "code_verifier" verifier +:+ "," +:+ lf
  +:+ member "code" code +:+ "," +:+ lf
  +:+ member "redirect_uri" (oauth2RedirectUrl b) +:+ lf
  +:+ "}".

(** [stepOauth2CheckTokens]. *)
Definition stepOauth2CheckTokens (env : Env) (b : ClientAuthBrowserDriver)
  (recipe : Recipe) (step : Step) (credentials : vault.Credentials)
  (buchhalterConfigDirectory : string) : Handled :=
  let pii := Supplier recipe +:+ "|" +:+ vault.Id credentials in
  let notFound :=
    Returns (StepResult.make "error"
               "No access token found. New OAuth2 login needed." false) in
  match GetOauthAccessTokenFromCache env pii buchhalterConfigDirectory with
  | Some tokens =>
      if validOauth2AuthToken env tokens then
        (Returns (StepResult.make "success"
                    "Found valid oauth2 access token in cache" false),
         set_oauth2AuthToken b (secrets.AccessToken tokens), [])
      else
        let payload := refreshPayload b tokens in
        match getOauth2Tokens env b payload pii buchhalterConfigDirectory with
        | (nt, None, effects) =>
            (Returns (StepResult.make "error"
                        "Error getting oauth2 access token with refresh token"
                        true),
             set_oauth2AuthToken b (secrets.AccessToken nt), effects)
        | (_, Some _, effects) => (notFound, b, effects)
        end
  | None => (notFound, b, [])
  end.

(** The first [chromedp.Run] of [stepOauth2Authenticate]: the login form. *)
Definition loginForm (loginUrl : string) (credentials : vault.Credentials)
  : list chromedp.Action :=
  [chromedp.Within (5 * Go.Second) (chromedp.Navigate loginUrl);
   chromedp.WaitReady "#form-input-identity" [chromedp.ByID];
   chromedp.Sleep (1 * Go.Second);
   chromedp.Click "#form-input-identity" [chromedp.ByID];
   chromedp.SendKeys "#form-input-identity" (vault.Username credentials)
     [chromedp.ByID];
   chromedp.Sleep (1 * Go.Second);
   chromedp.Click "#form-submit-continue" [chromedp.ByID];
   chromedp.WaitVisible "#form-input-credential" [chromedp.ByID];
   chromedp.Sleep (3 * Go.Second);
   chromedp.SendKeys "#form-input-credential" (vault.Password credentials)
     [chromedp.ByID];
   chromedp.Sleep (2 * Go.Second);
   chromedp.Click "#form-submit-continue" [chromedp.ByID];
   chromedp.Sleep (2 * Go.Second)].

Definition probeSecondFactor : list chromedp.Action :=
  [chromedp.Within (5 * Go.Second)
     (chromedp.WaitVisible "#form-input-passcode" [chromedp.ByID]);
   chromedp.Nodes "#form-input-passcode" [chromedp.AtLeast0]].

Definition submitSecondFactor (credentials : vault.Credentials)
  : list chromedp.Action :=
  [chromedp.SendKeys "#form-input-passcode" (vault.Totp credentials)
     [chromedp.ByID];
   chromedp.Click "#form-submit" [chromedp.ByID]].

Definition readLocation : list chromedp.Action :=
  [chromedp.Sleep (2 * Go.Second); chromedp.Location].

Definition loginError (err : string) : Completion :=
  Returns (StepResult.make "error" ("error while logging in: " +:+ err) false).

(** [stepOauth2Authenticate]. *)
Definition stepOauth2Authenticate (env : Env) (b : ClientAuthBrowserDriver)
  (recipe : Recipe) (step : Step) (credentials : vault.Credentials)
  (buchhalterConfigDirectory : string) : Handled :=
  if 0 <? Z.of_nat (String.length (oauth2AuthToken b)) then
    (Returns successResult, b, [])
  else
    let '(verifier, challenge, err) := Oauth2Pkce env (oauth2PkceVerifierLength b) in
    let printed := match err with Some e => [Println e] | None => [] end in
    let state := RandomString env 20 in
    let params :=
      [("client_id", oauth2ClientId b);
       ("prompt", "login");
       ("redirect_uri", oauth2RedirectUrl b);
       ("scope", oauth2Scope b);
       ("response_type", "code");
       ("state", state);
       ("code_challenge", challenge);
       ("code_challenge_method", oauth2PkceMethod b)] in
    let loginUrl := oauth2AuthUrl b +:+ "?" +:+ Encode env params in
    let e1 :=
      printed ++ [ListenTarget "network";
                  ChromedpRun (loginForm loginUrl credentials)] in
    match Run env (loginForm loginUrl credentials) with
    | Some err => (loginError err, b, e1)
    | None =>
        let e2 := e1 ++ [ChromedpRun probeSecondFactor] in
        match Run env probeSecondFactor with
        | Some err => (loginError err, b, e2)
        | None =>
            let faNodes := nodesOf env "#form-input-passcode" in
            let '(err, e3) :=
              if 0 <? Z.of_nat (length faNodes)
              then (Run env (submitSecondFactor credentials),
                    e2 ++ [ChromedpRun (submitSecondFactor credentials)])
              else (None, e2) in
            match err with
            | Some err => (loginError err, b, e3)
            | None =>
                let e4 := e3 ++ [ChromedpRun readLocation] in
                match Run env readLocation with
                | Some err => (loginError err, b, e4)
                | None =>
                    let u := location env in
                    match codeOf env u with
                    | None =>
                        (Panics "invalid memory address or nil pointer dereference",
                         b, e4)
                    | Some code =>
                        let payload := codePayload b verifier code in
                        let pii := Supplier recipe +:+ "|" +:+ vault.Id credentials in
                        match getOauth2Tokens env b payload pii
                                buchhalterConfigDirectory with
                        | (_, Some err, effects) =>
                            (Returns (StepResult.make "error" err false), b,
                             e4 ++ effects)
                        | (tokens, None, effects) =>
                            (Returns (StepResult.make "success"
                                        "Successfully retrieved OAuth2 tokens." false),
                             set_oauth2AuthToken b (secrets.AccessToken tokens),
                             e4 ++ effects)
                        end
                    end
                end
            end
        end
    end.

(** [io.Copy(out, resp.Body)] for the reply to [req] and the file
    [filename]: what has reached the file when the copy ends, and its
    error.  The copy writes what it reads as it goes, so a body whose read
    fails leaves what was read before in the file, and a write that fails
    leaves what was written before. *)
Definition ioCopy (env : Env) (req : http.Request) (filename : string)
  (body : string + string) : string * option string :=
  let '(arrived, readError) :=
    match body with
    | inl err => (readBefore env req, Some err)
    | inr content => (content, None)
    end in
  match writeError env filename arrived with
  | Some (n, err) => (String.substring 0 n arrived, Some err)
  | None => (arrived, readError)
  end.

(** [doRequest] with a nil payload: whether the download succeeded, the
    error and what was done.  [os.Create] leaves an empty file, which the
    copy then fills; a copy that fails leaves the file with what it had
    written. *)
Definition doRequest (env : Env) (b : ClientAuthBrowserDriver)
  (url method : string) (headers : gmap string string) (filename : string)
  : bool * option string * list Effect :=
  match NewRequest env method url with
  | Some err => (false, Some err, [])
  | None =>
      let req :=
        {| http.Method := method; http.Url := url;
           http.Header := authorizedHeader b headers; http.Payload := "" |} in
      match Do env req with
      | http.TransportError err => (false, Some err, [HttpDo req])
      | http.Response StatusCode body =>
          if StatusCode =? 200 then
            match create env filename with
            | Some err => (false, Some err, [HttpDo req])
            | None =>
                let '(copied, err) := ioCopy env req filename body in
                (match err with None => true | Some _ => false end, err,
                 [HttpDo req; CreateFile filename; WriteFile filename copied])
            end
          else (false, None, [HttpDo req])
      end
  end.

(** The [for _, id := range ids] loop of [stepOauth2PostAndGetItems],
    from the index [n] and the counter [count]: how the loop ends the
    step, if it does, the counter and what was done.  [filenames[n]]
    panics when there are fewer file names than identifiers. *)
Fixpoint fetchDocuments (env : Env) (b : ClientAuthBrowserDriver) (step : Step)
  (filenames ids : list string) (n count : Z)
  : option Completion * Z * list Effect :=
  match ids with
  | [] => (None, count, [])
  | id :: rest =>
      let url := Go.ReplaceAll (DocumentUrl step) "{{ id }}" id in
      let target :=
        if 0 <? Z.of_nat (length filenames) then
          match filenames !! Z.to_nat n with
          | Some name => Some (Join env [downloadsDirectory b; name], name)
          | None => None
          end
        else Some (Join env [downloadsDirectory b; id; ".pdf"],
                   Join env [id; ".pdf"]) in
      match target with
      | None => (Some (Panics "index out of range"), count, [])
      | Some (f, filename) =>
          let '(downloadSuccessful, err, requested) :=
            doRequest env b url (DocumentRequestMethod step)
                      (DocumentRequestHeaders step) f in
          let e1 :=
            requested ++ match err with Some e => [Println e] | None => [] end in
          if negb downloadSuccessful then
            (Some (Returns (errorResult "Error while downloading invoices")),
             count, e1)
          else if FileExists env f then
            let '(ended, count', later) :=
              fetchDocuments env b step filenames rest (n + 1) count in
            (ended, count', e1 ++ later)
          else
            let dstFile := Join env [documentsDirectory b; filename] in
            match copy env f dstFile with
            | Some err =>
                (Some (Returns (errorResult ("Error while copying file: " +:+ err))),
                 count + 1, e1 ++ [CopyFile f dstFile])
            | None =>
                match addFile env dstFile with
                | Some err =>
                    (Some (Returns
                             (errorResult
                                ("Error while adding file " +:+ dstFile
                                 +:+ " to document archive: " +:+ err))),
                     count + 1, e1 ++ [CopyFile f dstFile; AddFile dstFile])
                | None =>
                    let '(ended, count', later) :=
                      fetchDocuments env b step filenames rest (n + 1) (count + 1) in
                    (ended, count',
                     e1 ++ [CopyFile f dstFile; AddFile dstFile] ++ later)
                end
            end
      end
  end.

(** [stepOauth2PostAndGetItems]. *)
Definition stepOauth2PostAndGetItems (env : Env) (b : ClientAuthBrowserDriver)
  (step : Step) : Handled :=
  match NewRequest env "POST" (URL step) with
  | Some _ =>
      (Returns (StepResult.make "error" "error creating post request" true), b, [])
  | None =>
      let req := itemsRequest b step in
      match Do env req with
      | http.TransportError err =>
          (Returns (StepResult.make "error"
                      ("error sending post request: " +:+ err) true),
           b, [HttpDo req])
      | http.Response _ (inl _) =>
          (Returns (StepResult.make "error" "" false), b, [HttpDo req])
      | http.Response StatusCode (inr body) =>
          if StatusCode =? 200 then
            let b := set_newFilesCount b 0 in
            match unmarshal env body with
            | inl err => (Panics err, b, [HttpDo req])
            | inr jsr =>
                let ids :=
                  Extractor.extractJsonValue jsr (ExtractDocumentIds step) in
                if Z.of_nat (length ids) =? 0 then
                  (Returns (StepResult.make "error" "No content ids found" true),
                   b, [HttpDo req])
                else
                  let filenames :=
                    if String.eqb (ExtractDocumentFilenames step) "" then []
                    else Extractor.extractJsonValue jsr
                           (ExtractDocumentFilenames step) in
                  match fetchDocuments env b step filenames ids 0 0 with
                  | (Some ended, count, effects) =>
                      (ended, set_newFilesCount b count, HttpDo req :: effects)
                  | (None, count, effects) =>
                      (Returns successResult, set_newFilesCount b count,
                       HttpDo req :: effects)
                  end
            end
          else if StatusCode =? 400 then
            (Returns (StepResult.make "error" "" false), b, [HttpDo req])
          else (Returns (StepResult.make "error" "" false), b, [HttpDo req])
      end
  end.

(** The [switch step.Action] inside the goroutine; an action outside the
    list sends nothing on the channel. *)
Definition handle (env : Env) (b : ClientAuthBrowserDriver) (recipe : Recipe)
  (step : Step) : Handled :=
  let action := Action step in
  if String.eqb action "oauth2-setup" then stepOauth2Setup b step
  else if String.eqb action "oauth2-check-tokens"
       then stepOauth2CheckTokens env b recipe step (credentials b)
              (buchhalterConfigDirectory b)
  else if String.eqb action "oauth2-authenticate"
       then stepOauth2Authenticate env b recipe step (credentials b)
              (buchhalterConfigDirectory b)
  else if String.eqb action "oauth2-post-and-get-items"
       then stepOauth2PostAndGetItems env b step
  else (Blocks, b, []).

(** The [select] over the result channel and [time.After(b.recipeTimeout)]. *)
Definition selectResult (env : Env) (b : ClientAuthBrowserDriver)
  (recipe : Recipe) (step : Step) : Selected ClientAuthBrowserDriver :=
  let abandoned := set_newFilesCount b (countAtTimeout env (newFilesCount b)) in
  match handle env b recipe step with
  | (Returns lastStepResult, b', _) =>
      if elapsed env <? recipeTimeout b then Received lastStepResult b'
      else TimedOut abandoned
  | (Panics err, _, _) =>
      if elapsed env <? recipeTimeout b then Crashed err
      else TimedOut abandoned
  | (Blocks, _, _) => TimedOut abandoned
  end.

Section Dispatcher.
(** [lipgloss.NewStyle().Bold(true).Render]. *)
Variable textStyleBold : string -> string.
Variables totalStepCount stepCountInCurrentRecipe baseCountStep : Z.
Variable recipe : Recipe.
(** The environment of the step the counter [n] stands at. *)
Variable world : Z -> Env.

Definition title (n : Z) (step : Step) : Msg :=
  TitleAndDescriptionUpdate
    ("Downloading invoices from " +:+ Supplier recipe +:+ " (" +:+ Go.Itoa n
     +:+ "/" +:+ Go.Itoa stepCountInCurrentRecipe +:+ "):")
    (Description step).

Definition onSuccess (n : Z) (step : Step) (b : ClientAuthBrowserDriver)
  : RecipeResult.t :=
  {| RecipeResult.Status := "success";
     RecipeResult.StatusText :=
       Supplier recipe +:+ ": " +:+ newDocumentsText (newFilesCount b);
     RecipeResult.StatusTextFormatted :=
       "- " +:+ textStyleBold (Supplier recipe) +:+ ": "
       +:+ newDocumentsText (newFilesCount b);
     RecipeResult.LastStepId := stepId recipe n step;
     RecipeResult.LastStepDescription := Description step;
     RecipeResult.LastErrorMessage := "";
     RecipeResult.NewFilesCount := newFilesCount b |}.

Definition onError (n : Z) (step : Step) (lastStepResult : StepResult.t)
  (b : ClientAuthBrowserDriver) : RecipeResult.t :=
  {| RecipeResult.Status := "error";
     RecipeResult.StatusText := Supplier recipe +:+ " aborted with error.";
     RecipeResult.StatusTextFormatted :=
       "x " +:+ textStyleBold (Supplier recipe) +:+ " aborted with error.";
     RecipeResult.LastStepId := stepId recipe n step;
     RecipeResult.LastStepDescription := Description step;
     RecipeResult.LastErrorMessage := StepResult.Message lastStepResult;
     RecipeResult.NewFilesCount := newFilesCount b |}.

Definition onTimeout (n : Z) (step : Step) (b : ClientAuthBrowserDriver)
  : RecipeResult.t :=
  {| RecipeResult.Status := "error";
     RecipeResult.StatusText := Supplier recipe +:+ " aborted with timeout.";
     RecipeResult.StatusTextFormatted :=
       "x " +:+ textStyleBold (Supplier recipe) +:+ " aborted with timeout.";
     RecipeResult.LastStepId := stepId recipe n step;
     RecipeResult.LastStepDescription := Description step;
     RecipeResult.LastErrorMessage := "";
     RecipeResult.NewFilesCount := newFilesCount b |}.

(** One pass through the body of [for _, step := range recipe.Steps]. *)
Definition runStep (n : Z) (b : ClientAuthBrowserDriver) (step : Step)
  : Flow ClientAuthBrowserDriver * list Event :=
  let started := [Send (title n step); Launch n (Action step)] in
  let reported :=
    [Send (ProgressUpdate (progress baseCountStep n totalStepCount))] in
  match selectResult (world n) b recipe step with
  | Received lastStepResult b' =>
      if String.eqb (StepResult.Status lastStepResult) "success" then
        (Next (onSuccess n step b') b', started ++ reported)
      else if StepResult.Break lastStepResult then
        (Return (onError n step lastStepResult b') b', started)
      else
        (Next (onError n step lastStepResult b') b', started ++ reported)
  | TimedOut b' => (Return (onTimeout n step b') b', started)
  | Crashed err => (Panic err, started)
  end.

(** The loop, from the counter [n] and the [result] recorded so far, and
    the [return result] after it. *)
Fixpoint runSteps (steps : list Step) (n : Z) (result : RecipeResult.t)
  (b : ClientAuthBrowserDriver)
  : Flow ClientAuthBrowserDriver * list Event :=
  match steps with
  | [] => (Return result b, [])
  | step :: rest =>
      match runStep n b step with
      | (Next result' b', events) =>
          let '(flow, later) := runSteps rest (n + 1) result' b' in
          (flow, events ++ later)
      | stopped => stopped
      end
  end.

End Dispatcher.

(** What [RunRecipe] learns before the loop. *)
Record Host := {
  (** [cu.New(...)]. *)
  startBrowser : option string;
  (** The run that reads [chrome://version]: its error, or the text. *)
  readVersion : string + string;
  (** [strings.TrimSpace]. *)
  TrimSpace : string -> string;
  (** [utils.InitSupplierDirectories(buchhalterDocumentsDirectory, supplier)]. *)
  InitSupplierDirectories : string -> string -> string * string * option string;
  (** [lipgloss.NewStyle().Bold(true).Render]. *)
  textStyleBold : string -> string
}.

(** [RunRecipe]: browser start-up, then the loop from [n := 1] and the
    zero [result].  A start-up failure panics. *)
Definition RunRecipe (host : Host) (world : Z -> Env)
  (totalStepCount stepCountInCurrentRecipe baseCountStep : Z)
  (b : ClientAuthBrowserDriver) (recipe : Recipe)
  : Flow ClientAuthBrowserDriver * list Event :=
  match startBrowser host with
  | Some err => (Panic err, [])
  | None =>
      let version :=
        if String.eqb (ChromeVersion b) ""
        then match readVersion host with
             | inl err => inl err
             | inr text => inr (TrimSpace host text)
             end
        else inr (ChromeVersion b) in
      match version with
      | inl err => (Panic err, [])
      | inr chromeVersion =>
          let '(downloads, documents, err) :=
            InitSupplierDirectories host (buchhalterDocumentsDirectory b)
                                    (Supplier recipe) in
          let printed :=
            match err with Some e => [FmtPrintln e] | None => [] end in
          let b :=
            {| credentials := credentials b;
               buchhalterConfigDirectory := buchhalterConfigDirectory b;
               buchhalterDocumentsDirectory := buchhalterDocumentsDirectory b;
               ChromeVersion := chromeVersion;
               downloadsDirectory := downloads;
               documentsDirectory := documents;
               recipeTimeout := recipeTimeout b;
               newFilesCount := newFilesCount b;
               oauth2AuthToken := oauth2AuthToken b;
               oauth2AuthUrl := oauth2AuthUrl b;
               oauth2TokenUrl := oauth2TokenUrl b;
               oauth2RedirectUrl := oauth2RedirectUrl b;
               oauth2ClientId := oauth2ClientId b;
               oauth2Scope := oauth2Scope b;
               oauth2PkceMethod := oauth2PkceMethod b;
               oauth2PkceVerifierLength := oauth2PkceVerifierLength b |} in
          let '(flow, events) :=
            runSteps (textStyleBold host) totalStepCount stepCountInCurrentRecipe
                     baseCountStep recipe world (Steps recipe) 1
                     RecipeResult.zero b in
          (flow, printed ++ events)
      end
  end.

End OAuth2.

(** ** Concrete recipes and environments *)

Module Fixtures.

Definition someone : vault.Credentials :=
  {| vault.Id := "42"; vault.Username := "user";
     vault.Password := "secret"; vault.Totp := "000000" |}.

Definition noOauth2 : parser.Oauth2 :=
  {| parser.AuthUrl := ""; parser.TokenUrl := ""; parser.RedirectUrl := "";
     parser.ClientId := ""; parser.Scope := ""; parser.PkceMethod := "";
     parser.PkceVerifierLength := 0 |}.

(** A step with the given action, description and value. *)
Definition stepOf (action description value : string) : parser.Step :=
  {| parser.Action := action;
     parser.Description := description;
     parser.URL := "https://portal.example/items";
     parser.Selector := "a.invoice";
     parser.Value := value;
     parser.Oauth2Settings := noOauth2;
     parser.Body := "{}";
     parser.Headers := ∅;
     parser.ExtractDocumentIds := "a.b";
     parser.ExtractDocumentFilenames := "";
     parser.DocumentUrl := "https://portal.example/doc/{{ id }}";
     parser.DocumentRequestMethod := "GET";
     parser.DocumentRequestHeaders := ∅ |}.

Definition recipeOf (steps : list parser.Step) : parser.Recipe :=
  {| parser.Supplier := "acme"; parser.Version := "1.0"; parser.Steps := steps |}.

(** The bold style, without a terminal. *)
Definition bold (s : string) : string := "*" +:+ s +:+ "*".

Definition browserDriver : Browser.BrowserDriver :=
  Browser.NewBrowserDriver someone "/home/user/buchhalter".

Definition oauth2Driver : OAuth2.ClientAuthBrowserDriver :=
  OAuth2.NewClientAuthBrowserDriver someone "/home/user/.buchhalter"
    "/home/user/buchhalter".

(** A browser environment: [run] answers every [chromedp.Run], three nodes
    match every selector, [completed] downloads are seen to complete and
    the handler needs [elapsed] nanoseconds. *)
Definition browserEnv (run : list chromedp.Action -> option string)
  (completed : nat) (elapsed : Z) : Browser.Env :=
  {| Browser.Run := run;
     Browser.nodesOf := fun _ =>
       [ {| cdp.FullXPath := "/html/body/a[1]" |};
         {| cdp.FullXPath := "/html/body/a[2]" |};
         {| cdp.FullXPath := "/html/body/a[3]" |} ];
     Browser.downloadsCompleted := completed;
     Browser.UnixNano := 1700000000000000000;
     Browser.FindFiles := fun _ _ => ([], None);
     Browser.unzip := fun _ _ => None;
     Browser.WalkDir := fun _ => [];
     Browser.MatchString := fun _ _ => (false, None);
     Browser.Join := fun a b => a +:+ "/" +:+ b;
     Browser.FileExists := fun _ => false;
     Browser.copy := fun _ _ => None;
     Browser.truncate := fun _ => None;
     Browser.elapsed := elapsed;
     Browser.countAtTimeout := fun count => count |}.

Definition runsFine (actions : list chromedp.Action) : option string := None.
Definition runsBroken (actions : list chromedp.Action) : option string :=
  Some "context canceled".

(** An OAuth2 environment: [cached] is what the token cache holds for
    every key, [reply] answers every request, [parsed] is what every body
    unmarshals to, the handler needs [elapsed] nanoseconds and [disk]
    tells how the writes of a download end. *)
Definition oauth2EnvOn (disk : string -> string -> option (nat * string))
  (cached : option secrets.Oauth2Tokens)
  (reply : http.Reply) (parsed : string + json) (elapsed : Z) : OAuth2.Env :=
  {| OAuth2.GetOauthAccessTokenFromCache := fun _ _ => cached;
     OAuth2.save := fun _ _ _ => None;
     OAuth2.now := 1051;
     OAuth2.NewRequest := fun _ _ => None;
     OAuth2.Do := fun _ => reply;
     OAuth2.unmarshalTokens := fun _ =>
       ({| secrets.AccessToken := "fresh"; secrets.RefreshToken := "again";
           secrets.CreatedAt := 1051; secrets.ExpiresIn := 3600 |}, None);
     OAuth2.unmarshal := fun _ => parsed;
     OAuth2.Run := fun _ => None;
     OAuth2.nodesOf := fun _ => [];
     OAuth2.location := "https://app.example/callback?code=abc";
     OAuth2.codeOf := fun _ => Some "abc";
     OAuth2.Encode := fun _ => "client_id=x";
     OAuth2.Oauth2Pkce := fun _ => ("verifier", "challenge", None);
     OAuth2.RandomString := fun _ => "state";
     OAuth2.Join := fun parts => String.concat "/" parts;
     OAuth2.create := fun _ => None;
     OAuth2.readBefore := fun _ => "";
     OAuth2.writeError := disk;
     OAuth2.FileExists := fun _ => false;
     OAuth2.copy := fun _ _ => None;
     OAuth2.addFile := fun _ => None;
     OAuth2.elapsed := elapsed;
     OAuth2.countAtTimeout := fun count => count |}.

(** The same on a disk that takes every write. *)
Definition oauth2Env (cached : option secrets.Oauth2Tokens)
  (reply : http.Reply) (parsed : string + json) (elapsed : Z) : OAuth2.Env :=
  oauth2EnvOn (fun _ _ => None) cached reply parsed elapsed.

(** A disk that is full after the first byte of every file. *)
Definition fullDisk (filename content : string) : option (nat * string) :=
  Some (1%nat, "no space left on device").

Definition staleTokens : secrets.Oauth2Tokens :=
  {| secrets.AccessToken := "old"; secrets.RefreshToken := "refresh";
     secrets.CreatedAt := 1000; secrets.ExpiresIn := 50 |}.

Definition liveTokens : secrets.Oauth2Tokens :=
  {| secrets.AccessToken := "live"; secrets.RefreshToken := "refresh";
     secrets.CreatedAt := 1000; secrets.ExpiresIn := 52 |}.

Definition ok200 : http.Reply := http.Response 200 (inr "{}").

(** The events of a run that start the handler of some step. *)
Definition isLaunch (e : Event) : bool :=
  match e with Launch _ _ => true | _ => false end.

Definition isPurge (e : Event) : bool :=
  match e with TruncateDirectory _ => true | _ => false end.


Definition browserHost : Browser.Host :=
  {| Browser.startBrowser := None;
     Browser.readVersion := inr " Chrome/120.0 ";
     Browser.TrimSpace := fun _ => "Chrome/120.0";
     Browser.InitProviderDirectories := fun directory provider =>
       (directory +:+ "/_tmp/" +:+ provider, directory +:+ "/" +:+ provider, None);
     Browser.allowDownloads := None;
     Browser.textStyleBold := bold |}.

Definition oauth2Host : OAuth2.Host :=
  {| OAuth2.startBrowser := None;
     OAuth2.readVersion := inr " Chrome/120.0 ";
     OAuth2.TrimSpace := fun _ => "Chrome/120.0";
     OAuth2.InitSupplierDirectories := fun directory supplier =>
       (directory +:+ "/_tmp/" +:+ supplier, directory +:+ "/" +:+ supplier, None);
     OAuth2.textStyleBold := bold |}.

End Fixtures.

(** The result a run returns, if it returns. *)
Definition returned {driver : Type} (flow : Flow driver) : option RecipeResult.t :=
  match flow with
  | Return result _ => Some result
  | _ => None
  end.

(** The percentages of the progress events of a run, in order. *)
Definition percents (events : list Event) : list float :=
  flat_map (fun e => match e with
                     | Send (ProgressUpdate percent) => [percent]
                     | _ => []
                     end) events.

(** The counters of the steps whose handlers a run started, in order. *)
Definition launched (events : list Event) : list Z :=
  flat_map (fun e => match e with Launch n _ => [n] | _ => [] end) events.

(** The directories a run purged, in order. *)
Definition purged (events : list Event) : list string :=
  flat_map (fun e => match e with TruncateDirectory dir => [dir] | _ => [] end)
           events.

(** The counters [n], [n + 1], ... of [count] consecutive steps. *)
Fixpoint counters (n : Z) (count : nat) : list Z :=
  match count with
  | O => []
  | S k => n :: counters (n + 1) k
  end.


(** One download trigger that succeeds, and the pause after it. *)
Definition triggerAndPause (step : parser.Step) (n : cdp.Node) : list Effect :=
  [ChromedpRun (Browser.triggerDownload step n);
   TimeSleep (1500 * Go.Millisecond)].

(** The click loop of [stepDownloadAll] without its cap: every node is
    triggered, up to the first failure. *)
Fixpoint triggerEach (env : Browser.Env) (step : parser.Step)
  (nodes : list cdp.Node) : option string * list Effect :=
  match nodes with
  | [] => (None, [])
  | n :: rest =>
      match Browser.Run env (Browser.triggerDownload step n) with
      | Some err => (Some err, [ChromedpRun (Browser.triggerDownload step n)])
      | None =>
          let '(err, effects) := triggerEach env step rest in
          (err, triggerAndPause step n ++ effects)
      end
  end.

(** The first browser run of [stepDownloadAll]. *)
Definition resolveNodes (step : parser.Step) : list chromedp.Action :=
  [chromedp.Tasks [chromedp.WaitReady (parser.Selector step) [];
                   chromedp.Nodes (parser.Selector step) []]].

(** The shape of the progress trace of a run: the steps started carry
    consecutive counters; all of them but possibly the last are followed
    by their progress message; the last one is not when the run ended
    there. *)
Definition progressTrace (bcs tsc : Z) (n : Z) (steps : list parser.Step)
  (events : list Event) : Prop :=
  exists reported started : nat,
    launched events = counters n started
    /\ percents events = map (fun k => progress bcs k tsc) (counters n reported)
    /\ ((started = reported /\ started = length steps)
        \/ (started = S reported /\ (started <= length steps)%nat)).

(** The invariant of the result recorded by either loop: a success result
    shows its own new-files count. *)
Definition reportsItsCount (recipe : parser.Recipe) (result : RecipeResult.t)
  : Prop :=
  RecipeResult.Status result = "success" ->
  RecipeResult.StatusText result
  = parser.Supplier recipe +:+ ": " +:+ newDocumentsText (RecipeResult.NewFilesCount result).

(** ** Observers for the properties beyond the claims *)

(** The actions the [switch] of each dispatcher knows. *)
Definition browserActions : list string :=
  ["open"; "removeElement"; "click"; "type"; "sleep"; "waitFor"; "downloadAll";
   "transform"; "move"; "runScript"; "runScriptDownloadUrls"].

Definition oauth2Actions : list string :=
  ["oauth2-setup"; "oauth2-check-tokens"; "oauth2-authenticate";
   "oauth2-post-and-get-items"].

(** The step a loop stands at after [k] passes, and its identifier. *)
Definition lastStarted (recipe : parser.Recipe) (steps : list parser.Step)
  (n : Z) (events : list Event) (result : RecipeResult.t) : Prop :=
  exists (k : nat) (step : parser.Step),
    nth_error steps k = Some step
    /\ launched events = counters n (S k)
    /\ RecipeResult.LastStepId result = stepId recipe (n + Z.of_nat k) step
    /\ RecipeResult.LastStepDescription result = parser.Description step.

(** A completion of the plain kind: no panic, and a result that is the
    success result or an error result carrying a message only. *)
Definition plainCompletion (completion : Completion) : Prop :=
  match completion with
  | Returns lsr => lsr = successResult \/ exists err, lsr = errorResult err
  | Blocks => True
  | Panics _ => False
  end.

(** What no OAuth2 handler touches: the credentials, the directories, the
    browser version and the step timeout. *)
Definition sameSession (b b' : OAuth2.ClientAuthBrowserDriver) : Prop :=
  OAuth2.credentials b' = OAuth2.credentials b
  /\ OAuth2.buchhalterConfigDirectory b' = OAuth2.buchhalterConfigDirectory b
  /\ OAuth2.buchhalterDocumentsDirectory b' = OAuth2.buchhalterDocumentsDirectory b
  /\ OAuth2.ChromeVersion b' = OAuth2.ChromeVersion b
  /\ OAuth2.downloadsDirectory b' = OAuth2.downloadsDirectory b
  /\ OAuth2.documentsDirectory b' = OAuth2.documentsDirectory b
  /\ OAuth2.recipeTimeout b' = OAuth2.recipeTimeout b.

(** A completion whose result, if any, has status "success" or "error"
    and, when [mayBreak] is false, the break flag unset. *)
Definition statusedCompletion (mayBreak : bool) (completion : Completion) : Prop :=
  match completion with
  | Returns lsr =>
      (StepResult.Status lsr = "success" \/ StepResult.Status lsr = "error")
      /\ (StepResult.Break lsr = true ->
          mayBreak = true /\ StepResult.Status lsr = "error")
  | _ => True
  end.

(** The copies among the effects of a handler, as (source, destination). *)
Definition copies (effects : list Effect) : list (string * string) :=
  flat_map (fun e => match e with CopyFile src dst => [(src, dst)] | _ => [] end)
           effects.

(** The requests among the effects of a handler. *)
Definition requests (effects : list Effect) : list http.Request :=
  flat_map (fun e => match e with HttpDo req => [req] | _ => [] end) effects.

(** The files written among the effects of a handler. *)
Definition written (effects : list Effect) : list string :=
  flat_map (fun e => match e with WriteFile filename _ => [filename] | _ => [] end)
           effects.

(** The files created among the effects of a handler. *)
Definition created (effects : list Effect) : list string :=
  flat_map (fun e => match e with CreateFile filename => [filename] | _ => [] end)
           effects.

(** The token sets persisted among the effects of a handler. *)
Definition persisted (effects : list Effect)
  : list (string * secrets.Oauth2Tokens * string) :=
  flat_map (fun e => match e with
                     | SaveOauth2TokensToFile pii tokens dir => [(pii, tokens, dir)]
                     | _ => []
                     end) effects.

(** What [stepMove] does with one entry the walk reports without error:
    it copies it when its name matches and the archive does not have it. *)
Definition moved (env : Browser.Env) (b : Browser.BrowserDriver)
  (step : parser.Step) (d : Browser.WalkEntry) : bool :=
  match Browser.MatchString env (parser.Value step) (Browser.Name d) with
  | (true, None) =>
      negb (Browser.FileExists env
              (Browser.Join env (Browser.downloadsDirectory b) (Browser.Name d)))
  | _ => false
  end.

(** The copy [stepMove] makes of an entry. *)
Definition moveOf (env : Browser.Env) (b : Browser.BrowserDriver)
  (d : Browser.WalkEntry) : string * string :=
  (Browser.Join env (Browser.downloadsDirectory b) (Browser.Name d),
   Browser.Join env (Browser.documentsDirectory b) (Browser.Name d)).

(** The browser runs among the effects of a handler. *)
Definition browserRuns (effects : list Effect) : list (list chromedp.Action) :=
  flat_map (fun e => match e with ChromedpRun actions => [actions] | _ => [] end)
           effects.

(** The actions whose handler is one call of [chromedp.Run]. *)
Definition oneCallActions : list string :=
  ["open"; "removeElement"; "click"; "type"; "sleep"; "waitFor"; "runScript"].

(** The archives unpacked among the effects of a handler, as
    (source, destination). *)
Definition unzips (effects : list Effect) : list (string * string) :=
  flat_map (fun e => match e with UnzipFile src dst => [(src, dst)] | _ => [] end)
           effects.

(** What [stepTransform] prints for the error of [utils.FindFiles]. *)
Definition printed (err : option string) : list Effect :=
  match err with Some e => [Println e] | None => [] end.

(** ** A staging directory for the examples *)

Module Staging.

Definition driver : Browser.BrowserDriver :=
  {| Browser.credentials := Fixtures.someone;
     Browser.buchhalterDirectory := "/home/user/buchhalter";
     Browser.ChromeVersion := "Chrome/120.0";
     Browser.downloadsDirectory := "/home/user/buchhalter/_tmp/acme";
     Browser.documentsDirectory := "/home/user/buchhalter/acme";
     Browser.recipeTimeout := 60 * Go.Second;
     Browser.newFilesCount := 7 |}.

Definition entry (name : string) : Browser.WalkEntry :=
  {| Browser.Name := name; Browser.walkErr := None |}.

(** Two invoices and a note are staged and the archive has the second
    invoice already; of the three zip files found the second is broken,
    and the search for them reports an error of its own. *)
Definition env : Browser.Env :=
  {| Browser.Run := Fixtures.runsFine;
     Browser.nodesOf := fun _ =>
       [ {| cdp.FullXPath := "/html/body/a[1]" |};
         {| cdp.FullXPath := "/html/body/a[2]" |};
         {| cdp.FullXPath := "/html/body/a[3]" |} ];
     Browser.downloadsCompleted := 2;
     Browser.UnixNano := 1700000000000000000;
     Browser.FindFiles := fun root _ =>
       ([root +:+ "/a.zip"; root +:+ "/broken.zip"; root +:+ "/c.zip"],
        Some "lstat: permission denied");
     Browser.unzip := fun src _ =>
       if String.eqb src "/home/user/buchhalter/_tmp/acme/broken.zip"
       then Some "zip: not a valid zip file" else None;
     Browser.WalkDir := fun _ =>
       [entry "invoice-1.pdf"; entry "notes.txt"; entry "invoice-2.pdf"];
     Browser.MatchString := fun _ name => (Go.HasPrefix name "invoice", None);
     Browser.Join := fun a b => a +:+ "/" +:+ b;
     Browser.FileExists := fun path =>
       String.eqb path "/home/user/buchhalter/_tmp/acme/invoice-2.pdf";
     Browser.copy := fun _ _ => None;
     Browser.truncate := fun _ => None;
     Browser.elapsed := Go.Second;
     Browser.countAtTimeout := fun count => count |}.

End Staging.

(** The files handed to the document archive among the effects of a
    handler. *)
Definition added (effects : list Effect) : list string :=
  flat_map (fun e => match e with AddFile path => [path] | _ => [] end) effects.

(** ** A document portal for the examples *)

Module Portal.

(** Two documents are listed; only the first has a file name. *)
Definition listing : json :=
  JObject
    [("items",
      JArray [JObject [("id", JString "17"); ("file", JString "invoice-17.pdf")];
              JObject [("id", JString "18")]])].

(** The items step of the portal, with the path of the file names. *)
Definition itemsStep (filenames : string) : parser.Step :=
  {| parser.Action := "oauth2-post-and-get-items";
     parser.Description := "Download the invoices";
     parser.URL := "https://portal.example/items";
     parser.Selector := "";
     parser.Value := "";
     parser.Oauth2Settings := Fixtures.noOauth2;
     parser.Body := "{}";
     parser.Headers := ∅;
     parser.ExtractDocumentIds := "items.id";
     parser.ExtractDocumentFilenames := filenames;
     parser.DocumentUrl := "https://portal.example/doc/{{ id }}";
     parser.DocumentRequestMethod := "GET";
     parser.DocumentRequestHeaders := ∅ |}.

(** Every request is answered with 200 and every body parses to the
    listing. *)
Definition env : OAuth2.Env :=
  Fixtures.oauth2Env (Some Fixtures.liveTokens) Fixtures.ok200 (inr listing)
    Go.Second.

(** The same portal, with a disk that is full after the first byte. *)
Definition cramped : OAuth2.Env :=
  Fixtures.oauth2EnvOn Fixtures.fullDisk (Some Fixtures.liveTokens) Fixtures.ok200
    (inr listing) Go.Second.

End Portal.

(** A string without an opening brace. *)
Fixpoint braceFree (s : string) : bool :=
  match s with
  | EmptyString => true
  | String c rest => negb (Ascii.eqb c "{") && braceFree rest
  end.

(** The strings of a document, in document order. *)
Fixpoint leaves (data : json) : list string :=
  match data with
  | JString s => [s]
  | JArray items =>
      (fix each (items : list json) : list string :=
         match items with
         | [] => []
         | item :: rest => leaves item ++ each rest
         end) items
  | JObject entries =>
      (fix each (entries : list (string * json)) : list string :=
         match entries with
         | [] => []
         | (_, value) :: rest => leaves value ++ each rest
         end) entries
  | _ => []
  end.

(** A string without the separator of a path. *)
Fixpoint dotFree (s : string) : bool :=
  match s with
  | EmptyString => true
  | String c rest => negb (Ascii.eqb c ".") && dotFree rest
  end.

(** ** The recipe repository, [repository.go] *)

Module repository.

(** The three headers both requests carry. *)
Definition headers : list (string * string) :=
  [("User-Agent", "buchhalter-cli");
   ("Content-Type", "application/json");
   ("Accept", "application/json")].

(** What [client.Do(req)] gives: an error, or a response with its status
    code, what [resp.Header.Get("x-checksum")] returns, the empty string
    when the header is missing, and its body. *)
Inductive Reply :=
| TransportError (err : string)
| Response (StatusCode : Z) (checksum : string) (body : string).

(** What the two functions learn from outside the process. *)
Record Env := {
  (** [viper.GetString("buchhalter_repository_url")]. *)
  repositoryUrl : string;
  (** [viper.GetString("buchhalter_repository_checksum")]. *)
  currentChecksum : string;
  (** [viper.GetString("buchhalter_config_directory")]. *)
  configDirectory : string;
  (** [http.NewRequest(method, url, nil)]. *)
  NewRequest : string -> string -> option string;
  (** [client.Do(req)] for a request with the given method and URL. *)
  Do : string -> string -> Reply;
  (** [filepath.Join(a, b)]. *)
  Join : string -> string -> string;
  (** [os.Create(name)]. *)
  create : string -> option string;
  (** How [io.Copy(out, resp.Body)] ends for the file of the given name
      and a reply with the given body: [None] when all of the body reaches
      the file, [Some n] when the read of the body or a write fails after
      [n] bytes. *)
  copyFails : string -> string -> option nat
}.

(** What the two functions do to the outside.  [CopyTo name bytes]: the
    copy has left [bytes] in the file. *)
Inductive Effect :=
| HttpDo (method url : string) (header : list (string * string))
| Printf (text : string)
| CreateFile (name : string)
| CopyTo (name : string) (bytes : string).

Definition statusError (StatusCode : Z) : string :=
  "http request failed with status code: " +:+ Go.Itoa StatusCode +:+ OAuth2.lf.

(** [updateExists]: whether there is an update, the error and what was
    done. *)
Definition updateExists (env : Env) : bool * option string * list Effect :=
  let repositoryUrl := repositoryUrl env in
  let currentChecksum := currentChecksum env in
  match NewRequest env "HEAD" repositoryUrl with
  | Some err => (false, Some err, [])
  | None =>
      let sent := [HttpDo "HEAD" repositoryUrl headers] in
      match Do env "HEAD" repositoryUrl with
      | TransportError _ => (false, Some "error sending request", sent)
      | Response StatusCode checksum _ =>
          if StatusCode =? 200 then
            if negb (String.eqb checksum "") then
              if String.eqb checksum currentChecksum then (false, None, sent)
              else (true, None, sent)
            else (false, Some "update failed with checksum mismatch", sent)
          else (false, Some (statusError StatusCode), sent)
      end
  end.

(** How a call ends: the process exits, or the function returns. *)
Inductive Outcome :=
| Exits (code : Z)
| Returns (err : option string).

(** What [io.Copy(out, resp.Body)] leaves in the file [name]. *)
Definition copied (env : Env) (name body : string) : string :=
  match copyFails env name body with
  | Some n => String.substring 0 n body
  | None => body
  end.

(** [UpdateIfAvailable].  The result of [io.Copy] is dropped: a copy that
    fails leaves a part of the body in the file and the call returns nil
    all the same. *)
Definition UpdateIfAvailable (env : Env) : Outcome * list Effect :=
  let repositoryUrl := repositoryUrl env in
  let '(updateExists, err, checked) := updateExists env in
  match err with
  | Some _ =>
      (Exits 1,
       checked
         ++ [Printf "You're offline. Please connect to the internet for using buchhalter-cli"])
  | None =>
      if updateExists then
        match NewRequest env "GET" repositoryUrl with
        | Some err =>
            (Returns (Some ("error creating request: " +:+ err +:+ OAuth2.lf)), checked)
        | None =>
            let sent := checked ++ [HttpDo "GET" repositoryUrl headers] in
            match Do env "GET" repositoryUrl with
            | TransportError err =>
                (Returns (Some ("error sending request: " +:+ err +:+ OAuth2.lf)), sent)
            | Response StatusCode _ body =>
                if StatusCode =? 200 then
                  let name := Join env (configDirectory env) "oicdb.json" in
                  match create env name with
                  | Some err =>
                      (Returns (Some ("couldn't create oicdb.json file: " +:+ err
                                      +:+ OAuth2.lf)),
                       sent)
                  | None =>
                      (Returns None,
                       sent ++ [CreateFile name; CopyTo name (copied env name body)])
                  end
                else (Returns (Some (statusError StatusCode)), sent)
            end
        end
      else (Returns None, checked)
  end.

(** The requests among the effects, as (method, URL). *)
Definition sent (effects : list Effect) : list (string * string) :=
  flat_map (fun e => match e with
                     | HttpDo method url _ => [(method, url)]
                     | _ => []
                     end) effects.

(** The files written among the effects, with what they hold. *)
Definition stored (effects : list Effect) : list (string * string) :=
  flat_map (fun e => match e with
                     | CopyTo name bytes => [(name, bytes)]
                     | _ => []
                     end) effects.

End repository.

(** A repository for the examples: the checksum on the server is new,
    both requests are answered with 200 and [copy] tells how the copy of
    the body ends. *)
Definition repositoryWith (copy : string -> string -> option nat)
  : repository.Env :=
  {| repository.repositoryUrl := "https://repository.example/oicdb.json";
     repository.currentChecksum := "abc";
     repository.configDirectory := "/home/user/.buchhalter";
     repository.NewRequest := fun _ _ => None;
     repository.Do := fun _ _ => repository.Response 200 "def" "{}";
     repository.Join := fun a b => a +:+ "/" +:+ b;
     repository.create := fun _ => None;
     repository.copyFails := copy |}.

(** The whole body arrives and is written. *)
Definition updatedRepository : repository.Env :=
  repositoryWith (fun _ _ => None).

(** The copy fails after the first byte. *)
Definition cutOffRepository : repository.Env :=
  repositoryWith (fun _ _ => Some 1%nat).

(** A downloadAll step whose listener sees more completed downloads than
    the min(n, 2) its barrier holds. *)
Definition overrun (env : Browser.Env) (step : parser.Step) : Prop :=
  parser.Action step = "downloadAll"
  /\ Browser.Run env (resolveNodes step) = None
  /\ Z.min (Z.of_nat (length (Browser.nodesOf env (parser.Selector step)))) 2
     < Z.of_nat (Browser.downloadsCompleted env).

(** ** Runs in which every step succeeds *)

(** Every step of [steps] delivers a success result in time along the run
    that starts with the counter [n] and the driver [b]: each step is
    taken in the world of its own counter and from the driver its
    predecessor left. *)
Fixpoint browserSucceedsAlong (world : Z -> Browser.Env)
  (steps : list parser.Step) (n : Z) (b : Browser.BrowserDriver) : Prop :=
  match steps with
  | [] => True
  | step :: rest =>
      exists lsr b',
        Browser.selectResult (world n) b step = Received lsr b'
        /\ StepResult.Status lsr = "success"
        /\ browserSucceedsAlong world rest (n + 1) b'
  end.

Fixpoint oauth2SucceedsAlong (world : Z -> OAuth2.Env) (recipe : parser.Recipe)
  (steps : list parser.Step) (n : Z) (b : OAuth2.ClientAuthBrowserDriver) : Prop :=
  match steps with
  | [] => True
  | step :: rest =>
      exists lsr b',
        OAuth2.selectResult (world n) b recipe step = Received lsr b'
        /\ StepResult.Status lsr = "success"
        /\ oauth2SucceedsAlong world recipe rest (n + 1) b'
  end.

(** ** The headers of a request *)

(** The value the loop over the headers of a step sets for the name [n]:
    the token is substituted when the name is [Authorization] as
    written. *)
Definition substituted (b : OAuth2.ClientAuthBrowserDriver) (n h : string) : string :=
  if String.eqb n "Authorization"
  then Go.ReplaceAll h "{{ token }}" (OAuth2.oauth2AuthToken b)
  else h.

(** * Theorems *)

Section ExtractorFacts.
Import Extractor.

Lemma index_loop_eq (key : string) (remainingKeys : list string)
      (entries : list (string * json)) :
  (fix index (es : list (string * json)) : option (list string) :=
     match es with
     | [] => None
     | (k, value) :: rest =>
         if String.eqb k key
         then Some (extractJsonRecursive value remainingKeys)
         else index rest
     end) entries
  = option_map (fun value => extractJsonRecursive value remainingKeys)
               (mapIndex entries key).
Proof.
  induction entries as [| [k value] rest IH]; simpl; [reflexivity |].
  destruct (String.eqb k key); [reflexivity | exact IH].
Qed.

Lemma each_entry_loop_eq (keys : list string) (entries : list (string * json)) :
  (fix each (es : list (string * json)) : list string :=
     match es with
     | [] => []
     | (_, val) :: rest => extractJsonRecursive val keys ++ each rest
     end) entries
  = flat_map (fun e => extractJsonRecursive (snd e) keys) entries.
Proof.
  induction entries as [| [k val] rest IH]; simpl; [reflexivity |].
  now rewrite IH.
Qed.

Lemma each_item_loop_eq (keys : list string) (items : list json) :
  (fix each (l : list json) : list string :=
     match l with
     | [] => []
     | item :: rest => extractJsonRecursive item keys ++ each rest
     end) items
  = flat_map (fun item => extractJsonRecursive item keys) items.
Proof.
  induction items as [| item rest IH]; simpl; [reflexivity |].
  now rewrite IH.
Qed.

Lemma extract_object (entries : list (string * json)) (key : string)
      (remainingKeys : list string) :
  extractJsonRecursive (JObject entries) (key :: remainingKeys)
  = match mapIndex entries key with
    | Some value => extractJsonRecursive value remainingKeys
    | None =>
        flat_map (fun e => extractJsonRecursive (snd e) (key :: remainingKeys))
                 entries
    end.
Proof.
  cbn [extractJsonRecursive].
  rewrite index_loop_eq, each_entry_loop_eq.
  destruct (mapIndex entries key); reflexivity.
Qed.

Lemma extract_array (items : list json) (key : string)
      (remainingKeys : list string) :
  extractJsonRecursive (JArray items) (key :: remainingKeys)
  = flat_map (fun item => extractJsonRecursive item (key :: remainingKeys)) items.
Proof.
  cbn [extractJsonRecursive]. apply each_item_loop_eq.
Qed.

(** Go leaves the order in which [range] visits a map open.  The order
    plays no part in [v[key]], and the results of the search through all
    values are the same up to their order. *)
Lemma mapIndex_any_order (entries entries' : list (string * json)) (key : string) :
  Permutation entries entries' ->
  List.NoDup (map fst entries) ->
  mapIndex entries key = mapIndex entries' key.
Proof.
  induction 1 as [| [k v] l l' Hperm IH | [k1 v1] [k2 v2] l | l l' l'' H1 IH1 H2 IH2];
    intros Hkeys.
  - reflexivity.
  - cbn [mapIndex]. destruct (String.eqb k key); [reflexivity |].
    apply IH. now inversion Hkeys.
  - cbn [mapIndex].
    destruct (String.eqb_spec k1 key) as [-> | _];
      destruct (String.eqb_spec k2 key) as [-> | _]; try reflexivity.
    inversion Hkeys as [| ? ? Hfresh _]. exfalso. apply Hfresh. now left.
  - rewrite IH1 by exact Hkeys. apply IH2.
    apply (Permutation_NoDup (Permutation_map fst H1) Hkeys).
Qed.

Lemma extract_object_any_order (entries entries' : list (string * json))
      (keys : list string) :
  Permutation entries entries' ->
  List.NoDup (map fst entries) ->
  Permutation (extractJsonRecursive (JObject entries) keys)
              (extractJsonRecursive (JObject entries') keys).
Proof.
  intros Hperm Hkeys. destruct keys as [| key remainingKeys]; [reflexivity |].
  rewrite !extract_object, <- (mapIndex_any_order entries entries' key Hperm Hkeys).
  destruct (mapIndex entries key); [reflexivity |].
  now apply Permutation_flat_map.
Qed.

End ExtractorFacts.



(** ** The two dispatch loops *)

Section BrowserLoop.
Variable style : string -> string.
Variables tsc scs bcs : Z.
Variable recipe : parser.Recipe.
Variable world : Z -> Browser.Env.

Local Abbreviation runStep := (Browser.runStep style tsc scs bcs recipe world).
Local Abbreviation runSteps := (Browser.runSteps style tsc scs bcs recipe world).

Lemma browser_runSteps_cons step rest n result b :
  runSteps (step :: rest) n result b
  = match runStep n b step with
    | (Next result' b', events) =>
        (fst (runSteps rest (n + 1) result' b'),
         events ++ snd (runSteps rest (n + 1) result' b'))
    | stopped => stopped
    end.
Proof.
  cbn [Browser.runSteps].
  destruct (Browser.runStep style tsc scs bcs recipe world n b step)
    as [[result' b' | result' b' | err] events]; try reflexivity.
  destruct (Browser.runSteps style tsc scs bcs recipe world rest (n + 1) result' b');
    reflexivity.
Qed.

Lemma browser_runStep_success n b step lsr b' :
  Browser.selectResult (world n) b step = Received lsr b' ->
  StepResult.Status lsr = "success" ->
  runStep n b step
  = (Next (Browser.onSuccess style recipe n step b') b',
     [Send (Browser.title scs recipe n step); Launch n (parser.Action step);
      Send (ProgressUpdate (progress bcs n tsc))]).
Proof.
  intros Hsel Hstatus. unfold Browser.runStep.
  rewrite Hsel, Hstatus. reflexivity.
Qed.

Lemma browser_runStep_failure n b step lsr b' :
  Browser.selectResult (world n) b step = Received lsr b' ->
  StepResult.Status lsr <> "success" ->
  runStep n b step
  = (Return (Browser.onError style recipe n step lsr b') b',
     [Send (Browser.title scs recipe n step); Launch n (parser.Action step)]
       ++ Browser.purge (world n) b').
Proof.
  intros Hsel Hstatus. unfold Browser.runStep. rewrite Hsel.
  destruct (String.eqb_spec (StepResult.Status lsr) "success") as [Heq | _];
    [contradiction | reflexivity].
Qed.

Lemma browser_runStep_timeout n b step b' :
  Browser.selectResult (world n) b step = TimedOut b' ->
  runStep n b step
  = (Return (Browser.onTimeout style recipe n step b') b',
     [Send (Browser.title scs recipe n step); Launch n (parser.Action step)]
       ++ Browser.purge (world n) b').
Proof.
  intros Hsel. unfold Browser.runStep. now rewrite Hsel.
Qed.

(** Every pass starts with the title message and the launch of the
    handler. *)
Lemma browser_runStep_started n b step :
  exists more,
    snd (runStep n b step)
    = Send (Browser.title scs recipe n step)
        :: Launch n (parser.Action step) :: more.
Proof.
  unfold Browser.runStep.
  destruct (Browser.selectResult (world n) b step) as [lsr b' | b' | err].
  - destruct (String.eqb (StepResult.Status lsr) "success"); eexists; reflexivity.
  - eexists; reflexivity.
  - eexists; reflexivity.
Qed.

(** The result recorded before a pass plays no part in it. *)
Lemma browser_runSteps_overwrites step rest n r1 r2 b :
  runSteps (step :: rest) n r1 b = runSteps (step :: rest) n r2 b.
Proof. now rewrite !browser_runSteps_cons. Qed.

(** A pass sends one progress message, for its own counter, when the loop
    goes on, and none when it returns. *)
Lemma browser_runStep_percents n b step :
  percents (snd (runStep n b step))
  = match fst (runStep n b step) with
    | Next _ _ => [progress bcs n tsc]
    | _ => []
    end.
Proof.
  unfold Browser.runStep, Browser.purge.
  destruct (Browser.selectResult (world n) b step) as [lsr b' | b' | err];
    [destruct (String.eqb (StepResult.Status lsr) "success") | |];
    cbn [fst snd]; try reflexivity;
    destruct (Browser.truncate (world n) (Browser.downloadsDirectory b'));
    reflexivity.
Qed.

Lemma browser_runStep_launched n b step :
  launched (snd (runStep n b step)) = [n].
Proof.
  unfold Browser.runStep, Browser.purge.
  destruct (Browser.selectResult (world n) b step) as [lsr b' | b' | err];
    [destruct (String.eqb (StepResult.Status lsr) "success") | |];
    cbn [fst snd]; try reflexivity;
    destruct (Browser.truncate (world n) (Browser.downloadsDirectory b'));
    reflexivity.
Qed.

End BrowserLoop.

Section OAuth2Loop.
Variable style : string -> string.
Variables tsc scs bcs : Z.
Variable recipe : parser.Recipe.
Variable world : Z -> OAuth2.Env.

Local Abbreviation runStep := (OAuth2.runStep style tsc scs bcs recipe world).
Local Abbreviation runSteps := (OAuth2.runSteps style tsc scs bcs recipe world).

Lemma oauth2_runSteps_cons step rest n result b :
  runSteps (step :: rest) n result b
  = match runStep n b step with
    | (Next result' b', events) =>
        (fst (runSteps rest (n + 1) result' b'),
         events ++ snd (runSteps rest (n + 1) result' b'))
    | stopped => stopped
    end.
Proof.
  cbn [OAuth2.runSteps].
  destruct (OAuth2.runStep style tsc scs bcs recipe world n b step)
    as [[result' b' | result' b' | err] events]; try reflexivity.
  destruct (OAuth2.runSteps style tsc scs bcs recipe world rest (n + 1) result' b');
    reflexivity.
Qed.

Lemma oauth2_runStep_success n b step lsr b' :
  OAuth2.selectResult (world n) b recipe step = Received lsr b' ->
  StepResult.Status lsr = "success" ->
  runStep n b step
  = (Next (OAuth2.onSuccess style recipe n step b') b',
     [Send (OAuth2.title scs recipe n step); Launch n (parser.Action step);
      Send (ProgressUpdate (progress bcs n tsc))]).
Proof.
  intros Hsel Hstatus. unfold OAuth2.runStep.
  rewrite Hsel, Hstatus. reflexivity.
Qed.

Lemma oauth2_runStep_hard n b step lsr b' :
  OAuth2.selectResult (world n) b recipe step = Received lsr b' ->
  StepResult.Status lsr <> "success" ->
  StepResult.Break lsr = true ->
  runStep n b step
  = (Return (OAuth2.onError style recipe n step lsr b') b',
     [Send (OAuth2.title scs recipe n step); Launch n (parser.Action step)]).
Proof.
  intros Hsel Hstatus Hbreak. unfold OAuth2.runStep. rewrite Hsel, Hbreak.
  destruct (String.eqb_spec (StepResult.Status lsr) "success") as [Heq | _];
    [contradiction | reflexivity].
Qed.

Lemma oauth2_runStep_soft n b step lsr b' :
  OAuth2.selectResult (world n) b recipe step = Received lsr b' ->
  StepResult.Status lsr <> "success" ->
  StepResult.Break lsr = false ->
  runStep n b step
  = (Next (OAuth2.onError style recipe n step lsr b') b',
     [Send (OAuth2.title scs recipe n step); Launch n (parser.Action step);
      Send (ProgressUpdate (progress bcs n tsc))]).
Proof.
  intros Hsel Hstatus Hbreak. unfold OAuth2.runStep. rewrite Hsel, Hbreak.
  destruct (String.eqb_spec (StepResult.Status lsr) "success") as [Heq | _];
    [contradiction | reflexivity].
Qed.

Lemma oauth2_runStep_timeout n b step b' :
  OAuth2.selectResult (world n) b recipe step = TimedOut b' ->
  runStep n b step
  = (Return (OAuth2.onTimeout style recipe n step b') b',
     [Send (OAuth2.title scs recipe n step); Launch n (parser.Action step)]).
Proof.
  intros Hsel. unfold OAuth2.runStep. now rewrite Hsel.
Qed.

Lemma oauth2_runStep_started n b step :
  exists more,
    snd (runStep n b step)
    = Send (OAuth2.title scs recipe n step)
        :: Launch n (parser.Action step) :: more.
Proof.
  unfold OAuth2.runStep.
  destruct (OAuth2.selectResult (world n) b recipe step) as [lsr b' | b' | err].
  - destruct (String.eqb (StepResult.Status lsr) "success");
      [| destruct (StepResult.Break lsr)]; eexists; reflexivity.
  - eexists; reflexivity.
  - eexists; reflexivity.
Qed.

Lemma oauth2_runSteps_started step rest n result b :
  exists more,
    snd (runSteps (step :: rest) n result b)
    = Send (OAuth2.title scs recipe n step)
        :: Launch n (parser.Action step) :: more.
Proof.
  rewrite oauth2_runSteps_cons.
  destruct (oauth2_runStep_started n b step) as [more Hmore].
  destruct (OAuth2.runStep style tsc scs bcs recipe world n b step)
    as [[result' b' | result' b' | err] events]; cbn [snd] in *; subst events;
    eexists; reflexivity.
Qed.

Lemma oauth2_runSteps_overwrites step rest n r1 r2 b :
  runSteps (step :: rest) n r1 b = runSteps (step :: rest) n r2 b.
Proof. now rewrite !oauth2_runSteps_cons. Qed.

Lemma oauth2_runStep_percents n b step :
  percents (snd (runStep n b step))
  = match fst (runStep n b step) with
    | Next _ _ => [progress bcs n tsc]
    | _ => []
    end.
Proof.
  unfold OAuth2.runStep.
  destruct (OAuth2.selectResult (world n) b recipe step) as [lsr b' | b' | err];
    [destruct (String.eqb (StepResult.Status lsr) "success");
     [| destruct (StepResult.Break lsr)] | |];
    reflexivity.
Qed.

Lemma oauth2_runStep_launched n b step :
  launched (snd (runStep n b step)) = [n].
Proof.
  unfold OAuth2.runStep.
  destruct (OAuth2.selectResult (world n) b recipe step) as [lsr b' | b' | err];
    [destruct (String.eqb (StepResult.Status lsr) "success");
     [| destruct (StepResult.Break lsr)] | |];
    reflexivity.
Qed.

(** No pass of the OAuth2 loop purges the staging directory. *)
Lemma oauth2_runSteps_never_purges steps n result b :
  purged (snd (runSteps steps n result b)) = [].
Proof.
  revert n result b.
  induction steps as [| step rest IH]; intros n result b; [reflexivity |].
  rewrite oauth2_runSteps_cons.
  assert (Hstep : purged (snd (runStep n b step)) = []).
  { unfold OAuth2.runStep.
    destruct (OAuth2.selectResult (world n) b recipe step) as [lsr b' | b' | err];
      [destruct (String.eqb (StepResult.Status lsr) "success");
       [| destruct (StepResult.Break lsr)] | |];
      reflexivity. }
  destruct (OAuth2.runStep style tsc scs bcs recipe world n b step)
    as [[result' b' | result' b' | err] events]; cbn [snd] in *; try assumption.
  unfold purged in *. rewrite flat_map_app, Hstep. apply IH.
Qed.

End OAuth2Loop.

(** When the timer wins the [select]: the handler never sends, or sends
    no earlier than the timeout. *)
Lemma browser_timer_first env b step :
  Browser.recipeTimeout b <= Browser.elapsed env
  \/ fst (fst (Browser.handle env b step)) = Blocks ->
  Browser.selectResult env b step
  = TimedOut (Browser.set_newFilesCount b
                (Browser.countAtTimeout env (Browser.newFilesCount b))).
Proof.
  intros Hlate. unfold Browser.selectResult.
  destruct (Browser.handle env b step) as [[[lsr | | err] b'] effects];
    cbn [fst] in Hlate; try reflexivity;
    (destruct Hlate as [Hlate | Hblocks]; [| discriminate]);
    apply Z.ltb_ge in Hlate; now rewrite Hlate.
Qed.

Lemma oauth2_timer_first env b recipe step :
  OAuth2.recipeTimeout b <= OAuth2.elapsed env
  \/ fst (fst (OAuth2.handle env b recipe step)) = Blocks ->
  OAuth2.selectResult env b recipe step
  = TimedOut (OAuth2.set_newFilesCount b
                (OAuth2.countAtTimeout env (OAuth2.newFilesCount b))).
Proof.
  intros Hlate. unfold OAuth2.selectResult.
  destruct (OAuth2.handle env b recipe step) as [[[lsr | | err] b'] effects];
    cbn [fst] in Hlate; try reflexivity;
    (destruct Hlate as [Hlate | Hblocks]; [| discriminate]);
    apply Z.ltb_ge in Hlate; now rewrite Hlate.
Qed.

Lemma purged_purge env b :
  purged (Browser.purge env b) = [Browser.downloadsDirectory b].
Proof.
  unfold Browser.purge.
  destruct (Browser.truncate env (Browser.downloadsDirectory b)); reflexivity.
Qed.

(** ** C4: a step that times out *)

(** C4 (as amended). The step timeout is 60 seconds in the browser-driven
    driver and 120 seconds in the OAuth2-driven one.  When the handler of
    a step does not send its result before the timeout, either dispatcher
    returns at once an error result tagged with the identifier
    supplier-version-index-action and the description of the step,
    whatever the handler would have sent later; the browser-driven
    dispatcher purges the download staging directory before it returns,
    the OAuth2-driven dispatcher purges nothing. *)
Theorem timeout_returns_error_at_once
  (style : string -> string) (tsc scs bcs : Z) (recipe : parser.Recipe)
  (step : parser.Step) (rest : list parser.Step) (n : Z) (result : RecipeResult.t) :
  (forall credentials directory,
      Browser.recipeTimeout (Browser.NewBrowserDriver credentials directory)
      = 60 * Go.Second)
  /\ (forall credentials config documents,
         OAuth2.recipeTimeout
           (OAuth2.NewClientAuthBrowserDriver credentials config documents)
         = 120 * Go.Second)
  /\ (forall (world : Z -> Browser.Env) (b : Browser.BrowserDriver),
         Browser.recipeTimeout b <= Browser.elapsed (world n)
         \/ fst (fst (Browser.handle (world n) b step)) = Blocks ->
         let b' := Browser.set_newFilesCount b
                     (Browser.countAtTimeout (world n) (Browser.newFilesCount b)) in
         let r := Browser.onTimeout style recipe n step b' in
         Browser.runSteps style tsc scs bcs recipe world (step :: rest) n result b
         = (Return r b',
            [Send (Browser.title scs recipe n step); Launch n (parser.Action step)]
              ++ Browser.purge (world n) b')
         /\ purged (Browser.purge (world n) b') = [Browser.downloadsDirectory b]
         /\ RecipeResult.Status r = "error"
         /\ RecipeResult.LastStepId r
            = parser.Supplier recipe +:+ "-" +:+ parser.Version recipe +:+ "-"
              +:+ Go.Itoa n +:+ "-" +:+ parser.Action step
         /\ RecipeResult.LastStepDescription r = parser.Description step)
  /\ (forall (world : Z -> OAuth2.Env) (b : OAuth2.ClientAuthBrowserDriver),
         OAuth2.recipeTimeout b <= OAuth2.elapsed (world n)
         \/ fst (fst (OAuth2.handle (world n) b recipe step)) = Blocks ->
         let b' := OAuth2.set_newFilesCount b
                     (OAuth2.countAtTimeout (world n) (OAuth2.newFilesCount b)) in
         let r := OAuth2.onTimeout style recipe n step b' in
         OAuth2.runSteps style tsc scs bcs recipe world (step :: rest) n result b
         = (Return r b',
            [Send (OAuth2.title scs recipe n step); Launch n (parser.Action step)])
         /\ RecipeResult.Status r = "error"
         /\ RecipeResult.LastStepId r
            = parser.Supplier recipe +:+ "-" +:+ parser.Version recipe +:+ "-"
              +:+ Go.Itoa n +:+ "-" +:+ parser.Action step
         /\ RecipeResult.LastStepDescription r = parser.Description step).
Proof.
  split; [reflexivity |]. split; [reflexivity |]. split.
  - intros world b Hlate b' r.
    pose proof (browser_timer_first (world n) b step Hlate) as Hsel.
    split; [| split; [now rewrite purged_purge | repeat split]].
    rewrite browser_runSteps_cons.
    now rewrite (browser_runStep_timeout style tsc scs bcs recipe world n b step b' Hsel).
  - intros world b Hlate b' r.
    pose proof (oauth2_timer_first (world n) b recipe step Hlate) as Hsel.
    split; [| repeat split].
    rewrite oauth2_runSteps_cons.
    now rewrite (oauth2_runStep_timeout style tsc scs bcs recipe world n b step b' Hsel).
Qed.

(** A one-step OAuth2 recipe whose handler answers after 121 seconds: the
    run returns the timeout result and has purged nothing, where C4 has
    the staging directory purged in either variant. *)
Lemma oauth2_timeout_purges_nothing :
  let world := fun _ : Z =>
    Fixtures.oauth2Env None Fixtures.ok200 (inr JNull) (121 * Go.Second) in
  let recipe := Fixtures.recipeOf [Fixtures.stepOf "oauth2-setup" "Set up" ""] in
  let run := OAuth2.RunRecipe Fixtures.oauth2Host world 1 1 0
               Fixtures.oauth2Driver recipe in
  option_map RecipeResult.StatusText (returned (fst run))
  = Some "acme aborted with timeout."
  /\ launched (snd run) = [1]
  /\ purged (snd run) = [].
Proof. vm_compute. repeat split. Qed.

Lemma timeout_returns_error_at_once_witness :
  let world := fun _ : Z => Fixtures.browserEnv Fixtures.runsFine 2 (61 * Go.Second) in
  let step := Fixtures.stepOf "click" "Open the invoice list" "" in
  let late := fun _ : Z =>
    Fixtures.oauth2Env None Fixtures.ok200 (inr JNull) (120 * Go.Second) in
  let setup := Fixtures.stepOf "oauth2-setup" "Set up" "" in
  let unknown := Fixtures.stepOf "oauth2-logout" "Log out" "" in
  let recipe := Fixtures.recipeOf [step] in
  (Browser.recipeTimeout Fixtures.browserDriver <= Browser.elapsed (world 1)
   /\ option_map RecipeResult.LastStepId
        (returned (fst (Browser.runSteps Fixtures.bold 1 1 0 recipe world [step] 1
                          RecipeResult.zero Fixtures.browserDriver)))
      = Some "acme-1.0-1-click")
  /\ (OAuth2.recipeTimeout Fixtures.oauth2Driver <= OAuth2.elapsed (late 1)
      /\ option_map RecipeResult.LastStepId
           (returned (fst (OAuth2.runSteps Fixtures.bold 1 1 0 recipe late
                             [setup; setup] 1 RecipeResult.zero
                             Fixtures.oauth2Driver)))
         = Some "acme-1.0-1-oauth2-setup")
  /\ (fst (fst (OAuth2.handle (late 1) Fixtures.oauth2Driver recipe unknown)) = Blocks
      /\ launched (snd (OAuth2.runSteps Fixtures.bold 1 1 0 recipe late
                          [unknown; setup] 1 RecipeResult.zero
                          Fixtures.oauth2Driver))
         = [1]).
Proof.
  intros world step late setup unknown recipe.
  assert (Hlate : Browser.recipeTimeout Fixtures.browserDriver
                  <= Browser.elapsed (world 1)) by (vm_compute; discriminate).
  assert (Hlate' : OAuth2.recipeTimeout Fixtures.oauth2Driver
                   <= OAuth2.elapsed (late 1)) by (vm_compute; discriminate).
  assert (Hblocks : fst (fst (OAuth2.handle (late 1) Fixtures.oauth2Driver recipe
                                unknown)) = Blocks) by reflexivity.
  split; [| split].
  - split; [exact Hlate |].
    destruct (timeout_returns_error_at_once Fixtures.bold 1 1 0 recipe step [] 1
                RecipeResult.zero) as (_ & _ & Hbrowser & _).
    destruct (Hbrowser world Fixtures.browserDriver (or_introl Hlate)) as (Hrun & _).
    rewrite Hrun. reflexivity.
  - split; [exact Hlate' |].
    destruct (timeout_returns_error_at_once Fixtures.bold 1 1 0 recipe setup [setup] 1
                RecipeResult.zero) as (_ & _ & _ & Hoauth2).
    destruct (Hoauth2 late Fixtures.oauth2Driver (or_introl Hlate')) as (Hrun & _).
    rewrite Hrun. reflexivity.
  - split; [exact Hblocks |].
    destruct (timeout_returns_error_at_once Fixtures.bold 1 1 0 recipe unknown [setup]
                1 RecipeResult.zero) as (_ & _ & _ & Hoauth2).
    destruct (Hoauth2 late Fixtures.oauth2Driver (or_intror Hblocks)) as (Hrun & _).
    rewrite Hrun. reflexivity.
Defined.

(** ** C1: a step whose handler returns an error *)

(** C1 (as amended). When the handler of a step returns an error
    StepResult, either dispatcher builds an "error" RecipeResult carrying
    the message and the identifier of that step.  The OAuth2-driven
    dispatcher returns it at once, with no later step started, exactly
    when the break flag is set; when it is not set the next step is
    started and the run ends as it would from any other recorded result.
    The browser-driven dispatcher returns it at once whatever the break
    flag, after purging the staging directory. *)
Theorem error_step_halts_by_variant
  (style : string -> string) (tsc scs bcs : Z) (recipe : parser.Recipe)
  (step : parser.Step) (rest : list parser.Step) (n : Z)
  (result : RecipeResult.t) (lsr : StepResult.t) :
  StepResult.Status lsr = "error" ->
  (forall (world : Z -> OAuth2.Env) (b b' : OAuth2.ClientAuthBrowserDriver),
      OAuth2.selectResult (world n) b recipe step = Received lsr b' ->
      let recorded := OAuth2.onError style recipe n step lsr b' in
      let run := OAuth2.runSteps style tsc scs bcs recipe world in
      RecipeResult.Status recorded = "error"
      /\ RecipeResult.LastErrorMessage recorded = StepResult.Message lsr
      /\ RecipeResult.LastStepId recorded = stepId recipe n step
      /\ (StepResult.Break lsr = true ->
          run (step :: rest) n result b
          = (Return recorded b',
             [Send (OAuth2.title scs recipe n step); Launch n (parser.Action step)])
          /\ launched (snd (run (step :: rest) n result b)) = [n])
      /\ (StepResult.Break lsr = false ->
          run (step :: rest) n result b
          = (fst (run rest (n + 1) recorded b'),
             [Send (OAuth2.title scs recipe n step); Launch n (parser.Action step);
              Send (ProgressUpdate (progress bcs n tsc))]
               ++ snd (run rest (n + 1) recorded b'))
          /\ (forall next later,
                 rest = next :: later ->
                 (exists more,
                     snd (run rest (n + 1) recorded b')
                     = Send (OAuth2.title scs recipe (n + 1) next)
                         :: Launch (n + 1) (parser.Action next) :: more)
                 /\ (forall other,
                        run rest (n + 1) recorded b' = run rest (n + 1) other b'))))
  /\ (forall (world : Z -> Browser.Env) (b b' : Browser.BrowserDriver),
         Browser.selectResult (world n) b step = Received lsr b' ->
         let recorded := Browser.onError style recipe n step lsr b' in
         let run := Browser.runSteps style tsc scs bcs recipe world in
         RecipeResult.Status recorded = "error"
         /\ RecipeResult.LastErrorMessage recorded = StepResult.Message lsr
         /\ RecipeResult.LastStepId recorded = stepId recipe n step
         /\ run (step :: rest) n result b
            = (Return recorded b',
               [Send (Browser.title scs recipe n step); Launch n (parser.Action step)]
                 ++ Browser.purge (world n) b')
         /\ launched (snd (run (step :: rest) n result b)) = [n]).
Proof.
  intros Herror.
  assert (Hfailed : StepResult.Status lsr <> "success")
    by (rewrite Herror; discriminate).
  split.
  - intros world b b' Hsel recorded run.
    split; [reflexivity |]. split; [reflexivity |]. split; [reflexivity |].
    split.
    + intros Hbreak.
      assert (Hrun : run (step :: rest) n result b
                     = (Return recorded b',
                        [Send (OAuth2.title scs recipe n step);
                         Launch n (parser.Action step)])).
      { unfold run. rewrite oauth2_runSteps_cons.
        now rewrite (oauth2_runStep_hard style tsc scs bcs recipe world n b step
                       lsr b' Hsel Hfailed Hbreak). }
      split; [exact Hrun | now rewrite Hrun].
    + intros Hbreak. split.
      * unfold run. rewrite oauth2_runSteps_cons.
        now rewrite (oauth2_runStep_soft style tsc scs bcs recipe world n b step
                       lsr b' Hsel Hfailed Hbreak).
      * intros next later ->. split.
        -- apply oauth2_runSteps_started.
        -- intros other. apply oauth2_runSteps_overwrites.
  - intros world b b' Hsel recorded run.
    split; [reflexivity |]. split; [reflexivity |]. split; [reflexivity |].
    assert (Hrun : run (step :: rest) n result b
                   = (Return recorded b',
                      [Send (Browser.title scs recipe n step);
                       Launch n (parser.Action step)]
                        ++ Browser.purge (world n) b')).
    { unfold run. rewrite browser_runSteps_cons.
      now rewrite (browser_runStep_failure style tsc scs bcs recipe world n b step
                     lsr b' Hsel Hfailed). }
    split; [exact Hrun |]. rewrite Hrun. cbn [snd app].
    unfold Browser.purge.
    destruct (Browser.truncate (world n) (Browser.downloadsDirectory b'));
      reflexivity.
Qed.

(** A browser recipe of two clicks in a browser whose context is gone:
    the first handler returns an error with the break flag unset, and the
    second step is never started, where C1 has the next step run. *)
Lemma browser_error_without_break_halts :
  let world := fun _ : Z => Fixtures.browserEnv Fixtures.runsBroken 2 Go.Second in
  let first := Fixtures.stepOf "click" "Open the invoice list" "" in
  let second := Fixtures.stepOf "click" "Open the first invoice" "" in
  let run := Browser.RunRecipe Fixtures.browserHost world 2 2 0
               Fixtures.browserDriver (Fixtures.recipeOf [first; second]) in
  fst (fst (Browser.handle (world 1) Fixtures.browserDriver first))
  = Returns (StepResult.make "error" "context canceled" false)
  /\ launched (snd run) = [1]
  /\ option_map RecipeResult.LastStepId (returned (fst run))
     = Some "acme-1.0-1-click".
Proof. vm_compute. repeat split. Qed.

Lemma error_step_halts_by_variant_witness :
  let world := fun _ : Z =>
    Fixtures.oauth2Env None Fixtures.ok200 (inr (JObject [])) Go.Second in
  let check := Fixtures.stepOf "oauth2-check-tokens" "Check the token cache" "" in
  let items := Fixtures.stepOf "oauth2-post-and-get-items" "Fetch the invoices" "" in
  let setup := Fixtures.stepOf "oauth2-setup" "Set up" "" in
  let recipe := Fixtures.recipeOf [check; setup] in
  let soft := StepResult.make "error"
                "No access token found. New OAuth2 login needed." false in
  let hard := StepResult.make "error" "No content ids found" true in
  let broken := fun _ : Z => Fixtures.browserEnv Fixtures.runsBroken 2 Go.Second in
  let click := Fixtures.stepOf "click" "Open the invoice list" "" in
  (OAuth2.selectResult (world 1) Fixtures.oauth2Driver recipe check
   = Received soft Fixtures.oauth2Driver
   /\ launched (snd (OAuth2.runSteps Fixtures.bold 2 2 0 recipe world [check; setup]
                       1 RecipeResult.zero Fixtures.oauth2Driver))
      = [1; 2])
  /\ (OAuth2.selectResult (world 1) Fixtures.oauth2Driver recipe items
      = Received hard (OAuth2.set_newFilesCount Fixtures.oauth2Driver 0)
      /\ launched (snd (OAuth2.runSteps Fixtures.bold 2 2 0 recipe world
                          [items; setup] 1 RecipeResult.zero Fixtures.oauth2Driver))
         = [1])
  /\ (Browser.selectResult (broken 1) Fixtures.browserDriver click
      = Received (errorResult "context canceled") Fixtures.browserDriver
      /\ launched (snd (Browser.runSteps Fixtures.bold 2 2 0 recipe broken
                          [click; click] 1 RecipeResult.zero Fixtures.browserDriver))
         = [1]).
Proof.
  intros world check items setup recipe soft hard broken click.
  assert (Hsoft : OAuth2.selectResult (world 1) Fixtures.oauth2Driver recipe check
                  = Received soft Fixtures.oauth2Driver) by reflexivity.
  assert (Hhard : OAuth2.selectResult (world 1) Fixtures.oauth2Driver recipe items
                  = Received hard (OAuth2.set_newFilesCount Fixtures.oauth2Driver 0))
    by reflexivity.
  assert (Hbroken : Browser.selectResult (broken 1) Fixtures.browserDriver click
                    = Received (errorResult "context canceled")
                        Fixtures.browserDriver) by reflexivity.
  split; [| split].
  - split; [exact Hsoft |].
    destruct (error_step_halts_by_variant Fixtures.bold 2 2 0 recipe check [setup] 1
                RecipeResult.zero soft eq_refl) as (Hoauth2 & _).
    destruct (Hoauth2 world _ _ Hsoft) as (_ & _ & _ & _ & Hgoes).
    destruct (Hgoes eq_refl) as (Hrun & _).
    rewrite Hrun. reflexivity.
  - split; [exact Hhard |].
    destruct (error_step_halts_by_variant Fixtures.bold 2 2 0 recipe items [setup] 1
                RecipeResult.zero hard eq_refl) as (Hoauth2 & _).
    destruct (Hoauth2 world _ _ Hhard) as (_ & _ & _ & Hstops & _).
    exact (proj2 (Hstops eq_refl)).
  - split; [exact Hbroken |].
    destruct (error_step_halts_by_variant Fixtures.bold 2 2 0 recipe click [click] 1
                RecipeResult.zero (errorResult "context canceled") eq_refl)
      as (_ & Hbrowser).
    destruct (Hbrowser broken _ _ Hbroken) as (_ & _ & _ & _ & Hlaunched).
    exact Hlaunched.
Defined.

(** ** C8: progress messages *)

Lemma counters_succ n count :
  counters n (S count) = n :: counters (n + 1) count.
Proof. reflexivity. Qed.

Lemma percents_app e1 e2 : percents (e1 ++ e2) = percents e1 ++ percents e2.
Proof. apply flat_map_app. Qed.

Lemma launched_app e1 e2 : launched (e1 ++ e2) = launched e1 ++ launched e2.
Proof. apply flat_map_app. Qed.

Lemma browser_progressTrace style tsc scs bcs recipe world steps :
  forall n result b,
    progressTrace bcs tsc n steps
      (snd (Browser.runSteps style tsc scs bcs recipe world steps n result b)).
Proof.
  induction steps as [| step rest IH]; intros n result b.
  - exists 0%nat, 0%nat. cbn [Browser.runSteps snd]. unfold Browser.purge.
    destruct (Browser.truncate (world n) (Browser.downloadsDirectory b));
      (split; [reflexivity | split; [reflexivity | left; split; reflexivity]]).
  - rewrite browser_runSteps_cons.
    pose proof (browser_runStep_percents style tsc scs bcs recipe world n b step) as Hp.
    pose proof (browser_runStep_launched style tsc scs bcs recipe world n b step) as Hl.
    destruct (Browser.runStep style tsc scs bcs recipe world n b step)
      as [[result' b' | result' b' | err] events]; cbn [fst snd] in *.
    + destruct (IH (n + 1) result' b') as (reported & started & Hl' & Hp' & Hshape).
      exists (S reported), (S started).
      rewrite launched_app, percents_app, Hl, Hp, Hl', Hp'.
      split; [reflexivity | split; [reflexivity |]].
      cbn [length]. destruct Hshape as [[-> ->] | [-> Hle]]; [left | right];
        split; try reflexivity; lia.
    + exists 0%nat, 1%nat. rewrite Hl, Hp.
      split; [reflexivity | split; [reflexivity | right; split; [reflexivity |]]].
      cbn [length]. lia.
    + exists 0%nat, 1%nat. rewrite Hl, Hp.
      split; [reflexivity | split; [reflexivity | right; split; [reflexivity |]]].
      cbn [length]. lia.
Qed.

Lemma oauth2_progressTrace style tsc scs bcs recipe world steps :
  forall n result b,
    progressTrace bcs tsc n steps
      (snd (OAuth2.runSteps style tsc scs bcs recipe world steps n result b)).
Proof.
  induction steps as [| step rest IH]; intros n result b.
  - exists 0%nat, 0%nat. cbn [OAuth2.runSteps snd].
    split; [reflexivity | split; [reflexivity | left; split; reflexivity]].
  - rewrite oauth2_runSteps_cons.
    pose proof (oauth2_runStep_percents style tsc scs bcs recipe world n b step) as Hp.
    pose proof (oauth2_runStep_launched style tsc scs bcs recipe world n b step) as Hl.
    destruct (OAuth2.runStep style tsc scs bcs recipe world n b step)
      as [[result' b' | result' b' | err] events]; cbn [fst snd] in *.
    + destruct (IH (n + 1) result' b') as (reported & started & Hl' & Hp' & Hshape).
      exists (S reported), (S started).
      rewrite launched_app, percents_app, Hl, Hp, Hl', Hp'.
      split; [reflexivity | split; [reflexivity |]].
      cbn [length]. destruct Hshape as [[-> ->] | [-> Hle]]; [left | right];
        split; try reflexivity; lia.
    + exists 0%nat, 1%nat. rewrite Hl, Hp.
      split; [reflexivity | split; [reflexivity | right; split; [reflexivity |]]].
      cbn [length]. lia.
    + exists 0%nat, 1%nat. rewrite Hl, Hp.
      split; [reflexivity | split; [reflexivity | right; split; [reflexivity |]]].
      cbn [length]. lia.
Qed.

(** C8 (as amended). In both dispatchers a pass through the loop that
    goes on to the next step ends with a progress message whose percent is
    (steps completed before this recipe + n) / (total step count), [n]
    being the counter of the step just executed, and a pass at which the
    run returns sends no progress message.  So in every run the steps
    started carry the counters n, n+1, ..., each of them but possibly the
    last is followed by its progress message, and the last one is not when
    the run ended at it. *)
Theorem progress_after_each_completed_step
  (style : string -> string) (tsc scs bcs : Z) (recipe : parser.Recipe) :
  (forall n,
      progress bcs n tsc
      = PrimFloat.div
          (PrimFloat.add (Go.float64_of_int bcs) (Go.float64_of_int n))
          (Go.float64_of_int tsc))
  /\ (forall (world : Z -> Browser.Env) n b step result' b' events,
         Browser.runStep style tsc scs bcs recipe world n b step
         = (Next result' b', events) ->
         events
         = [Send (Browser.title scs recipe n step); Launch n (parser.Action step);
            Send (ProgressUpdate (progress bcs n tsc))])
  /\ (forall (world : Z -> OAuth2.Env) n b step result' b' events,
         OAuth2.runStep style tsc scs bcs recipe world n b step
         = (Next result' b', events) ->
         events
         = [Send (OAuth2.title scs recipe n step); Launch n (parser.Action step);
            Send (ProgressUpdate (progress bcs n tsc))])
  /\ (forall (world : Z -> Browser.Env) n b step,
         percents (snd (Browser.runStep style tsc scs bcs recipe world n b step))
         = match fst (Browser.runStep style tsc scs bcs recipe world n b step) with
           | Next _ _ => [progress bcs n tsc]
           | _ => []
           end)
  /\ (forall (world : Z -> OAuth2.Env) n b step,
         percents (snd (OAuth2.runStep style tsc scs bcs recipe world n b step))
         = match fst (OAuth2.runStep style tsc scs bcs recipe world n b step) with
           | Next _ _ => [progress bcs n tsc]
           | _ => []
           end)
  /\ (forall (world : Z -> Browser.Env) steps n result b,
         progressTrace bcs tsc n steps
           (snd (Browser.runSteps style tsc scs bcs recipe world steps n result b)))
  /\ (forall (world : Z -> OAuth2.Env) steps n result b,
         progressTrace bcs tsc n steps
           (snd (OAuth2.runSteps style tsc scs bcs recipe world steps n result b))).
Proof.
  split; [reflexivity |]. split; [| split; [| split; [| split; [| split]]]].
  - intros world n b step result' b' events. unfold Browser.runStep.
    destruct (Browser.selectResult (world n) b step) as [lsr b1 | b1 | err];
      [destruct (String.eqb (StepResult.Status lsr) "success") | |];
      intros Heq; inversion Heq; reflexivity.
  - intros world n b step result' b' events. unfold OAuth2.runStep.
    destruct (OAuth2.selectResult (world n) b recipe step) as [lsr b1 | b1 | err];
      [destruct (String.eqb (StepResult.Status lsr) "success");
       [| destruct (StepResult.Break lsr)] | |];
      intros Heq; inversion Heq; reflexivity.
  - intros. apply browser_runStep_percents.
  - intros. apply oauth2_runStep_percents.
  - intros. apply browser_progressTrace.
  - intros. apply oauth2_progressTrace.
Qed.

(** A one-step browser recipe whose click fails: the step is executed and
    the run sends no progress message at all, where C8 has one after
    every step. *)
Lemma failed_step_sends_no_progress :
  let world := fun _ : Z => Fixtures.browserEnv Fixtures.runsBroken 2 Go.Second in
  let step := Fixtures.stepOf "click" "Open the invoice list" "" in
  let run := Browser.RunRecipe Fixtures.browserHost world 1 1 0
               Fixtures.browserDriver (Fixtures.recipeOf [step]) in
  launched (snd run) = [1] /\ percents (snd run) = [].
Proof. vm_compute. split; reflexivity. Qed.

Lemma progress_after_each_completed_step_witness :
  let world := fun _ : Z => Fixtures.browserEnv Fixtures.runsFine 2 Go.Second in
  let step := Fixtures.stepOf "click" "Open the invoice list" "" in
  let empty := fun _ : Z =>
    Fixtures.oauth2Env None Fixtures.ok200 (inr JNull) Go.Second in
  let check := Fixtures.stepOf "oauth2-check-tokens" "Check the token cache" "" in
  let recipe := Fixtures.recipeOf [step] in
  let pass := Browser.runStep Fixtures.bold 8 1 3 recipe world 1
                Fixtures.browserDriver step in
  let soft := OAuth2.runStep Fixtures.bold 8 1 3 recipe empty 1
                Fixtures.oauth2Driver check in
  (pass = (Next (Browser.onSuccess Fixtures.bold recipe 1 step Fixtures.browserDriver)
                Fixtures.browserDriver, snd pass)
   /\ percents (snd pass) = [0.5%float])
  /\ (soft = (fst soft, snd soft)
      /\ fst soft
         = Next (OAuth2.onError Fixtures.bold recipe 1 check
                   (StepResult.make "error"
                      "No access token found. New OAuth2 login needed." false)
                   Fixtures.oauth2Driver)
                Fixtures.oauth2Driver
      /\ percents (snd soft) = [0.5%float]).
Proof.
  intros world step empty check recipe pass soft.
  assert (Hpass : pass
                  = (Next (Browser.onSuccess Fixtures.bold recipe 1 step
                             Fixtures.browserDriver)
                          Fixtures.browserDriver, snd pass)) by reflexivity.
  assert (Hsoft : soft
                  = (Next (OAuth2.onError Fixtures.bold recipe 1 check
                             (StepResult.make "error"
                                "No access token found. New OAuth2 login needed."
                                false)
                             Fixtures.oauth2Driver)
                          Fixtures.oauth2Driver, snd soft)) by reflexivity.
  destruct (progress_after_each_completed_step Fixtures.bold 8 1 3 recipe)
    as (_ & Hbrowser & Hoauth2 & _).
  split.
  - split; [exact Hpass |].
    rewrite (Hbrowser world 1 Fixtures.browserDriver step _ _ _ Hpass).
    vm_compute. reflexivity.
  - split; [reflexivity |]. split; [reflexivity |].
    rewrite (Hoauth2 empty 1 Fixtures.oauth2Driver check _ _ _ Hsoft).
    vm_compute. reflexivity.
Defined.

(** ** C9: the success result *)

Lemma newDocumentsText_cases count :
  newDocumentsText count
  = if count =? 0 then "No new documents"
    else if count =? 1 then "One new document"
    else Go.Itoa count +:+ " new documents".
Proof.
  unfold newDocumentsText.
  destruct (count =? 0) eqn:H0; [reflexivity |].
  destruct (count =? 1); reflexivity.
Qed.

Lemma browser_returns_reporting style tsc scs bcs recipe world steps :
  forall n result b r b' events,
    reportsItsCount recipe result ->
    Browser.runSteps style tsc scs bcs recipe world steps n result b
    = (Return r b', events) ->
    reportsItsCount recipe r.
Proof.
  induction steps as [| step rest IH]; intros n result b r b' events Hinv.
  - cbn [Browser.runSteps]. intros Heq. inversion Heq; subst. exact Hinv.
  - rewrite browser_runSteps_cons. unfold Browser.runStep.
    destruct (Browser.selectResult (world n) b step) as [lsr b1 | b1 | err].
    + destruct (String.eqb (StepResult.Status lsr) "success").
      * intros Heq.
        apply (IH (n + 1) (Browser.onSuccess style recipe n step b1) b1 r b'
                 (snd (Browser.runSteps style tsc scs bcs recipe world rest (n + 1)
                         (Browser.onSuccess style recipe n step b1) b1))).
        -- intros _. reflexivity.
        -- inversion Heq as [[Hflow Hevents]]. rewrite Hflow.
           destruct (Browser.runSteps style tsc scs bcs recipe world rest (n + 1)
                       (Browser.onSuccess style recipe n step b1) b1) as [flow later].
           cbn [fst snd] in *. now subst flow.
      * intros Heq. inversion Heq; subst. intros Hstatus. discriminate Hstatus.
    + intros Heq. inversion Heq; subst. intros Hstatus. discriminate Hstatus.
    + intros Heq. discriminate Heq.
Qed.

Lemma oauth2_returns_reporting style tsc scs bcs recipe world steps :
  forall n result b r b' events,
    reportsItsCount recipe result ->
    OAuth2.runSteps style tsc scs bcs recipe world steps n result b
    = (Return r b', events) ->
    reportsItsCount recipe r.
Proof.
  induction steps as [| step rest IH]; intros n result b r b' events Hinv.
  - cbn [OAuth2.runSteps]. intros Heq. inversion Heq; subst. exact Hinv.
  - rewrite oauth2_runSteps_cons. unfold OAuth2.runStep.
    assert (Hgo : forall recorded b1 started,
               reportsItsCount recipe recorded ->
               (fst (OAuth2.runSteps style tsc scs bcs recipe world rest (n + 1)
                       recorded b1),
                started
                  ++ snd (OAuth2.runSteps style tsc scs bcs recipe world rest (n + 1)
                            recorded b1))
               = (Return r b', events) ->
               reportsItsCount recipe r).
    { intros recorded b1 started Hrec Heq.
      apply (IH (n + 1) recorded b1 r b'
               (snd (OAuth2.runSteps style tsc scs bcs recipe world rest (n + 1)
                       recorded b1)) Hrec).
      inversion Heq as [[Hflow Hevents]]. rewrite Hflow.
      destruct (OAuth2.runSteps style tsc scs bcs recipe world rest (n + 1)
                  recorded b1) as [flow later].
      cbn [fst snd] in *. now subst flow. }
    destruct (OAuth2.selectResult (world n) b recipe step) as [lsr b1 | b1 | err].
    + destruct (String.eqb (StepResult.Status lsr) "success").
      * apply Hgo. intros _. reflexivity.
      * destruct (StepResult.Break lsr).
        -- intros Heq. inversion Heq; subst. intros Hstatus. discriminate Hstatus.
        -- apply Hgo. intros Hstatus. discriminate Hstatus.
    + intros Heq. inversion Heq; subst. intros Hstatus. discriminate Hstatus.
    + intros Heq. discriminate Heq.
Qed.

(** C9. Whenever either dispatcher builds a success RecipeResult, after
    a step whose handler returned success, its NewFilesCount is the
    current new-files counter and its status text renders that counter as
    "No new documents" for 0, "One new document" for 1 and "N new
    documents" for every other N; and every success result a run returns
    was built that way. *)
Theorem success_result_reports_new_files
  (style : string -> string) (tsc scs bcs : Z) (recipe : parser.Recipe) :
  (forall count,
      newDocumentsText count
      = if count =? 0 then "No new documents"
        else if count =? 1 then "One new document"
        else Go.Itoa count +:+ " new documents")
  /\ (newDocumentsText 0 = "No new documents"
      /\ newDocumentsText 1 = "One new document"
      /\ newDocumentsText 2 = "2 new documents")
  /\ (forall (world : Z -> Browser.Env) n b step lsr b',
         Browser.selectResult (world n) b step = Received lsr b' ->
         StepResult.Status lsr = "success" ->
         exists built events,
           Browser.runStep style tsc scs bcs recipe world n b step
           = (Next built b', events)
           /\ RecipeResult.Status built = "success"
           /\ RecipeResult.NewFilesCount built = Browser.newFilesCount b'
           /\ RecipeResult.StatusText built
              = parser.Provider recipe +:+ ": "
                +:+ newDocumentsText (Browser.newFilesCount b'))
  /\ (forall (world : Z -> OAuth2.Env) n b step lastStepResult b',
         OAuth2.selectResult (world n) b recipe step = Received lastStepResult b' ->
         StepResult.Status lastStepResult = "success" ->
         exists built events,
           OAuth2.runStep style tsc scs bcs recipe world n b step
           = (Next built b', events)
           /\ RecipeResult.Status built = "success"
           /\ RecipeResult.NewFilesCount built = OAuth2.newFilesCount b'
           /\ RecipeResult.StatusText built
              = parser.Supplier recipe +:+ ": "
                +:+ newDocumentsText (OAuth2.newFilesCount b'))
  /\ (forall (world : Z -> Browser.Env) r b b' events,
         Browser.runSteps style tsc scs bcs recipe world (parser.Steps recipe) 1
           RecipeResult.zero b = (Return r b', events) ->
         RecipeResult.Status r = "success" ->
         RecipeResult.StatusText r
         = parser.Supplier recipe +:+ ": "
           +:+ newDocumentsText (RecipeResult.NewFilesCount r))
  /\ (forall (world : Z -> OAuth2.Env) r b b' events,
         OAuth2.runSteps style tsc scs bcs recipe world (parser.Steps recipe) 1
           RecipeResult.zero b = (Return r b', events) ->
         RecipeResult.Status r = "success" ->
         RecipeResult.StatusText r
         = parser.Supplier recipe +:+ ": "
           +:+ newDocumentsText (RecipeResult.NewFilesCount r)).
Proof.
  split; [apply newDocumentsText_cases |].
  split; [repeat split |].
  split; [| split; [| split]].
  - intros world n b step lsr b' Hsel Hstatus.
    exists (Browser.onSuccess style recipe n step b'). eexists.
    split; [eapply browser_runStep_success; eassumption | repeat split].
  - intros world n b step lsr b' Hsel Hstatus.
    exists (OAuth2.onSuccess style recipe n step b'). eexists.
    split; [eapply oauth2_runStep_success; eassumption | repeat split].
  - intros world r b b' events Hrun.
    apply (browser_returns_reporting style tsc scs bcs recipe world
             (parser.Steps recipe) 1 RecipeResult.zero b r b' events);
      [intros Hstatus; discriminate Hstatus | exact Hrun].
  - intros world r b b' events Hrun.
    apply (oauth2_returns_reporting style tsc scs bcs recipe world
             (parser.Steps recipe) 1 RecipeResult.zero b r b' events);
      [intros Hstatus; discriminate Hstatus | exact Hrun].
Qed.

Lemma success_result_reports_new_files_witness :
  let world := fun _ : Z => Fixtures.browserEnv Fixtures.runsFine 2 Go.Second in
  let step := Fixtures.stepOf "click" "Open the invoice list" "" in
  let recipe := Fixtures.recipeOf [step] in
  let b := Browser.set_newFilesCount Fixtures.browserDriver 2 in
  let calm := fun _ : Z =>
    Fixtures.oauth2Env None Fixtures.ok200 (inr JNull) Go.Second in
  let setup := Fixtures.stepOf "oauth2-setup" "Set up" "" in
  let once := Fixtures.recipeOf [setup] in
  let c := OAuth2.set_newFilesCount Fixtures.oauth2Driver 1 in
  (Browser.selectResult (world 1) b step = Received successResult b
   /\ exists built events,
        Browser.runStep Fixtures.bold 1 1 0 recipe world 1 b step
        = (Next built b, events)
        /\ RecipeResult.Status built = "success"
        /\ RecipeResult.NewFilesCount built = 2
        /\ RecipeResult.StatusText built = "acme: 2 new documents")
  /\ (OAuth2.selectResult (calm 1) c once setup
      = Received (StepResult.make "success" "Successfully set up OAuth2 settings."
                    false) c
      /\ exists built events,
           OAuth2.runStep Fixtures.bold 1 1 0 once calm 1 c setup
           = (Next built c, events)
           /\ RecipeResult.Status built = "success"
           /\ RecipeResult.NewFilesCount built = 1
           /\ RecipeResult.StatusText built = "acme: One new document")
  /\ (exists r b' events,
         Browser.runSteps Fixtures.bold 1 1 0 recipe world (parser.Steps recipe) 1
           RecipeResult.zero Fixtures.browserDriver = (Return r b', events)
         /\ RecipeResult.Status r = "success"
         /\ RecipeResult.StatusText r
            = "acme: " +:+ newDocumentsText (RecipeResult.NewFilesCount r)).
Proof.
  intros world step recipe b calm setup once c.
  assert (Hsel : Browser.selectResult (world 1) b step = Received successResult b)
    by reflexivity.
  assert (Hsel' : OAuth2.selectResult (calm 1) c once setup
                  = Received (StepResult.make "success"
                                "Successfully set up OAuth2 settings." false) c)
    by reflexivity.
  split; [| split].
  - split; [exact Hsel |].
    destruct (success_result_reports_new_files Fixtures.bold 1 1 0 recipe)
      as (_ & _ & Hbrowser & _).
    destruct (Hbrowser world 1 b step successResult b Hsel eq_refl)
      as (built & events & Hrun & Hstatus & Hcount & Htext).
    exists built, events. repeat split; assumption.
  - split; [exact Hsel' |].
    destruct (success_result_reports_new_files Fixtures.bold 1 1 0 once)
      as (_ & _ & _ & Hoauth2 & _).
    destruct (Hoauth2 calm 1 c setup _ c Hsel' eq_refl)
      as (built & events & Hrun & Hstatus & Hcount & Htext).
    exists built, events. repeat split; assumption.
  - destruct (success_result_reports_new_files Fixtures.bold 1 1 0 recipe)
      as (_ & _ & _ & _ & Hreturned & _).
    eexists. eexists. eexists.
    split; [reflexivity |]. split; [reflexivity |].
    exact (Hreturned world _ Fixtures.browserDriver _ _ eq_refl eq_refl).
Defined.

(** ** C2: the token check *)

Lemma oauth2_handle_check env b recipe step :
  parser.Action step = "oauth2-check-tokens" ->
  OAuth2.handle env b recipe step
  = OAuth2.stepOauth2CheckTokens env b recipe step (OAuth2.credentials b)
      (OAuth2.buchhalterConfigDirectory b).
Proof. intros Haction. unfold OAuth2.handle. now rewrite Haction. Qed.

Lemma oauth2_handle_items env b recipe step :
  parser.Action step = "oauth2-post-and-get-items" ->
  OAuth2.handle env b recipe step = OAuth2.stepOauth2PostAndGetItems env b step.
Proof. intros Haction. unfold OAuth2.handle. now rewrite Haction. Qed.

(** A handler that returns in time is what the [select] receives. *)
Lemma oauth2_received env b recipe step lsr b' effects :
  OAuth2.handle env b recipe step = (Returns lsr, b', effects) ->
  OAuth2.elapsed env < OAuth2.recipeTimeout b ->
  OAuth2.selectResult env b recipe step = Received lsr b'.
Proof.
  intros Hhandle Hfast. unfold OAuth2.selectResult. rewrite Hhandle.
  apply Z.ltb_lt in Hfast. now rewrite Hfast.
Qed.

(** C2. In the oauth2-check-tokens step, with the cache read under the
    key supplier|credentialId: tokens found and valid are adopted, the
    access token of the driver being the cached one afterwards, and the
    step returns success; tokens found but expired whose refresh exchange
    succeeds make the new access token the one of the driver and yet give
    an error StepResult with break set, at which the dispatcher returns;
    no tokens found gives an error StepResult with break unset and leaves
    the driver, its token included, as it was, after which the dispatcher
    starts the next step.  A token is valid when its creation time plus
    its lifetime lies after the current time. *)
Theorem check_tokens_outcomes
  (env : OAuth2.Env) (b : OAuth2.ClientAuthBrowserDriver)
  (recipe : parser.Recipe) (step : parser.Step)
  (credentials : vault.Credentials) (directory : string) :
  let pii := parser.Supplier recipe +:+ "|" +:+ vault.Id credentials in
  let check := OAuth2.stepOauth2CheckTokens env b recipe step credentials directory in
  (forall tokens,
      OAuth2.validOauth2AuthToken env tokens
      = (OAuth2.now env
         <? Go.wrap64 (secrets.CreatedAt tokens + secrets.ExpiresIn tokens)))
  /\ (forall tokens,
         OAuth2.GetOauthAccessTokenFromCache env pii directory = Some tokens ->
         OAuth2.validOauth2AuthToken env tokens = true ->
         check
         = (Returns (StepResult.make "success"
                       "Found valid oauth2 access token in cache" false),
            OAuth2.set_oauth2AuthToken b (secrets.AccessToken tokens), [])
         /\ OAuth2.oauth2AuthToken (snd (fst check)) = secrets.AccessToken tokens
         /\ sameSession b (snd (fst check)))
  /\ (forall tokens nt effects,
         OAuth2.GetOauthAccessTokenFromCache env pii directory = Some tokens ->
         OAuth2.validOauth2AuthToken env tokens = false ->
         OAuth2.getOauth2Tokens env b (OAuth2.refreshPayload b tokens) pii directory
         = (nt, None, effects) ->
         check
         = (Returns (StepResult.make "error"
                       "Error getting oauth2 access token with refresh token" true),
            OAuth2.set_oauth2AuthToken b (secrets.AccessToken nt), effects)
         /\ OAuth2.oauth2AuthToken (snd (fst check)) = secrets.AccessToken nt
         /\ sameSession b (snd (fst check)))
  /\ (OAuth2.GetOauthAccessTokenFromCache env pii directory = None ->
      check
      = (Returns (StepResult.make "error"
                    "No access token found. New OAuth2 login needed." false),
         b, [])
      /\ OAuth2.oauth2AuthToken (snd (fst check)) = OAuth2.oauth2AuthToken b)
  /\ (forall style tsc scs bcs world rest n result lsr b',
         world n = env ->
         parser.Action step = "oauth2-check-tokens" ->
         credentials = OAuth2.credentials b ->
         directory = OAuth2.buchhalterConfigDirectory b ->
         OAuth2.elapsed env < OAuth2.recipeTimeout b ->
         fst check = (Returns lsr, b') ->
         StepResult.Status lsr = "error" ->
         let run := OAuth2.runSteps style tsc scs bcs recipe world in
         let recorded := OAuth2.onError style recipe n step lsr b' in
         (StepResult.Break lsr = true ->
          run (step :: rest) n result b
          = (Return recorded b',
             [Send (OAuth2.title scs recipe n step); Launch n (parser.Action step)]))
         /\ (StepResult.Break lsr = false ->
             forall next later,
               rest = next :: later ->
               exists more,
                 snd (run (step :: rest) n result b)
                 = [Send (OAuth2.title scs recipe n step);
                    Launch n (parser.Action step);
                    Send (ProgressUpdate (progress bcs n tsc));
                    Send (OAuth2.title scs recipe (n + 1) next);
                    Launch (n + 1) (parser.Action next)] ++ more)).
Proof.
  intros pii check.
  split; [reflexivity |]. split; [| split; [| split; [| idtac]]].
  - intros tokens Hfound Hvalid. unfold check, OAuth2.stepOauth2CheckTokens.
    fold pii. rewrite Hfound, Hvalid.
    split; [reflexivity | split; [reflexivity | now repeat split]].
  - intros tokens nt effects Hfound Hvalid Hrefresh.
    unfold check, OAuth2.stepOauth2CheckTokens. fold pii.
    rewrite Hfound, Hvalid, Hrefresh.
    split; [reflexivity | split; [reflexivity | now repeat split]].
  - intros Hfound. unfold check, OAuth2.stepOauth2CheckTokens. fold pii.
    rewrite Hfound. split; reflexivity.
  - intros style tsc scs bcs world rest n result lsr b' Hworld Haction
           Hcredentials Hdirectory Hfast Hcheck Herror run recorded.
    assert (Hfailed : StepResult.Status lsr <> "success")
      by (rewrite Herror; discriminate).
    assert (Hsel : OAuth2.selectResult (world n) b recipe step = Received lsr b').
    { rewrite Hworld.
      destruct check as [[completion driver] effects] eqn:Hshape.
      cbn [fst] in Hcheck. inversion Hcheck; subst completion driver.
      apply (oauth2_received env b recipe step lsr b' effects); [| exact Hfast].
      rewrite oauth2_handle_check by exact Haction.
      rewrite <- Hcredentials, <- Hdirectory. exact Hshape. }
    split.
    + intros Hbreak. unfold run. rewrite oauth2_runSteps_cons.
      now rewrite (oauth2_runStep_hard style tsc scs bcs recipe world n b step
                     lsr b' Hsel Hfailed Hbreak).
    + intros Hbreak next later ->. unfold run. rewrite oauth2_runSteps_cons.
      rewrite (oauth2_runStep_soft style tsc scs bcs recipe world n b step
                 lsr b' Hsel Hfailed Hbreak).
      cbn [snd].
      destruct (oauth2_runSteps_started style tsc scs bcs recipe world next later
                  (n + 1) (OAuth2.onError style recipe n step lsr b') b')
        as [more Hmore].
      exists more. rewrite Hmore. reflexivity.
Qed.

Lemma check_tokens_outcomes_witness :
  let step := Fixtures.stepOf "oauth2-check-tokens" "Check the token cache" "" in
  let setup := Fixtures.stepOf "oauth2-setup" "Set up" "" in
  let recipe := Fixtures.recipeOf [step; setup] in
  let b := Fixtures.oauth2Driver in
  let found tokens := Fixtures.oauth2Env (Some tokens) Fixtures.ok200 (inr JNull) Go.Second in
  let empty := Fixtures.oauth2Env None Fixtures.ok200 (inr JNull) Go.Second in
  let check env :=
    OAuth2.stepOauth2CheckTokens env b recipe step Fixtures.someone
      "/home/user/.buchhalter" in
  (OAuth2.GetOauthAccessTokenFromCache (found Fixtures.liveTokens) "acme|42"
     "/home/user/.buchhalter" = Some Fixtures.liveTokens
   /\ OAuth2.validOauth2AuthToken (found Fixtures.liveTokens) Fixtures.liveTokens = true
   /\ fst (check (found Fixtures.liveTokens))
      = (Returns (StepResult.make "success"
                    "Found valid oauth2 access token in cache" false),
         OAuth2.set_oauth2AuthToken b "live")
   /\ OAuth2.oauth2AuthToken b = ""
   /\ OAuth2.oauth2AuthToken (snd (fst (check (found Fixtures.liveTokens))))
      = "live")
  /\ (OAuth2.validOauth2AuthToken (found Fixtures.staleTokens) Fixtures.staleTokens
      = false
      /\ fst (check (found Fixtures.staleTokens))
         = (Returns (StepResult.make "error"
                       "Error getting oauth2 access token with refresh token" true),
            OAuth2.set_oauth2AuthToken b "fresh")
      /\ OAuth2.oauth2AuthToken (snd (fst (check (found Fixtures.staleTokens))))
         = "fresh"
      /\ launched (snd (OAuth2.runSteps Fixtures.bold 2 2 0 recipe
                          (fun _ => found Fixtures.staleTokens) [step; setup] 1
                          RecipeResult.zero b))
         = [1])
  /\ (OAuth2.GetOauthAccessTokenFromCache empty "acme|42" "/home/user/.buchhalter"
      = None
      /\ fst (check empty)
         = (Returns (StepResult.make "error"
                       "No access token found. New OAuth2 login needed." false), b)
      /\ exists more,
           snd (OAuth2.runSteps Fixtures.bold 2 2 0 recipe (fun _ => empty)
                  [step; setup] 1 RecipeResult.zero b)
           = [Send (OAuth2.title 2 recipe 1 step); Launch 1 "oauth2-check-tokens";
              Send (ProgressUpdate (progress 0 1 2));
              Send (OAuth2.title 2 recipe 2 setup); Launch 2 "oauth2-setup"]
               ++ more).
Proof.
  intros step setup recipe b found empty check.
  split; [| split].
  - destruct (check_tokens_outcomes (found Fixtures.liveTokens) b recipe step
                Fixtures.someone "/home/user/.buchhalter") as (_ & Hvalid & _).
    split; [reflexivity |]. split; [reflexivity |].
    destruct (Hvalid Fixtures.liveTokens eq_refl eq_refl) as (Hcheck & Htoken & _).
    split; [unfold check; now rewrite Hcheck |].
    split; [reflexivity | exact Htoken].
  - destruct (check_tokens_outcomes (found Fixtures.staleTokens) b recipe step
                Fixtures.someone "/home/user/.buchhalter")
      as (_ & _ & Hrefresh & _ & Hrun).
    split; [reflexivity |].
    destruct (Hrefresh Fixtures.staleTokens _ _ eq_refl eq_refl eq_refl)
      as (Hcheck & Htoken & _).
    split; [unfold check; now rewrite Hcheck |].
    split; [exact Htoken |].
    destruct (Hrun Fixtures.bold 2 2 0 (fun _ => found Fixtures.staleTokens) [setup]
                1 RecipeResult.zero _ _ eq_refl eq_refl eq_refl eq_refl eq_refl
                (f_equal fst Hcheck) eq_refl) as (Hhard & _).
    now rewrite (Hhard eq_refl).
  - destruct (check_tokens_outcomes empty b recipe step
                Fixtures.someone "/home/user/.buchhalter")
      as (_ & _ & _ & Hnone & Hrun).
    split; [reflexivity |].
    destruct (Hnone eq_refl) as [Hcheck _].
    split; [unfold check; now rewrite Hcheck |].
    destruct (Hrun Fixtures.bold 2 2 0 (fun _ => empty) [setup]
                1 RecipeResult.zero _ _ eq_refl eq_refl eq_refl eq_refl eq_refl
                (f_equal fst Hcheck) eq_refl) as (_ & Hsoft).
    exact (Hsoft eq_refl setup [] eq_refl).
Defined.

(** ** C5: no document identifiers *)

(** C5 (as amended). In the oauth2-post-and-get-items step, when the
    request is answered with HTTP 200 and the configured id-path extracts
    no identifier from the body, the step returns the error "No content
    ids found" with the break flag set, having reset the new-files counter
    to zero, and the dispatcher returns at once: no later step is
    started. *)
Theorem no_identifiers_is_a_hard_failure
  (env : OAuth2.Env) (b : OAuth2.ClientAuthBrowserDriver) (step : parser.Step)
  (body : string) (jsr : json) :
  OAuth2.NewRequest env "POST" (parser.URL step) = None ->
  OAuth2.Do env (OAuth2.itemsRequest b step) = http.Response 200 (inr body) ->
  OAuth2.unmarshal env body = inr jsr ->
  Extractor.extractJsonValue jsr (parser.ExtractDocumentIds step) = [] ->
  let lsr := StepResult.make "error" "No content ids found" true in
  let b' := OAuth2.set_newFilesCount b 0 in
  OAuth2.stepOauth2PostAndGetItems env b step
  = (Returns lsr, b', [HttpDo (OAuth2.itemsRequest b step)])
  /\ (forall style tsc scs bcs recipe world rest n result,
         world n = env ->
         parser.Action step = "oauth2-post-and-get-items" ->
         OAuth2.elapsed env < OAuth2.recipeTimeout b ->
         OAuth2.runSteps style tsc scs bcs recipe world (step :: rest) n result b
         = (Return (OAuth2.onError style recipe n step lsr b') b',
            [Send (OAuth2.title scs recipe n step); Launch n (parser.Action step)])).
Proof.
  intros Hrequest Hreply Hparsed Hids lsr b'.
  assert (Hstep : OAuth2.stepOauth2PostAndGetItems env b step
                  = (Returns lsr, b', [HttpDo (OAuth2.itemsRequest b step)])).
  { unfold OAuth2.stepOauth2PostAndGetItems.
    rewrite Hrequest, Hreply. cbn [Z.eqb Pos.eqb]. rewrite Hparsed, Hids.
    reflexivity. }
  split; [exact Hstep |].
  intros style tsc scs bcs recipe world rest n result Hworld Haction Hfast.
  assert (Hsel : OAuth2.selectResult (world n) b recipe step = Received lsr b').
  { rewrite Hworld.
    apply (oauth2_received env b recipe step lsr b'
             [HttpDo (OAuth2.itemsRequest b step)]); [| exact Hfast].
    now rewrite oauth2_handle_items. }
  rewrite oauth2_runSteps_cons.
  rewrite (oauth2_runStep_hard style tsc scs bcs recipe world n b step lsr b' Hsel);
    [reflexivity | discriminate | reflexivity].
Qed.

(** A recipe whose items request is answered 200 with the body [{}]: the
    step's result has the break flag set and the second step is never
    started, where C5 has the flag unset and the recipe continue. *)
Lemma no_identifiers_sets_break :
  let env := Fixtures.oauth2Env None Fixtures.ok200 (inr (JObject [])) Go.Second in
  let items := Fixtures.stepOf "oauth2-post-and-get-items" "Fetch the invoices" "" in
  let setup := Fixtures.stepOf "oauth2-setup" "Set up" "" in
  let run := OAuth2.RunRecipe Fixtures.oauth2Host (fun _ => env) 2 2 0
               Fixtures.oauth2Driver (Fixtures.recipeOf [items; setup]) in
  fst (fst (OAuth2.stepOauth2PostAndGetItems env Fixtures.oauth2Driver items))
  = Returns (StepResult.make "error" "No content ids found" true)
  /\ launched (snd run) = [1]
  /\ option_map RecipeResult.LastErrorMessage (returned (fst run))
     = Some "No content ids found".
Proof. vm_compute. repeat split. Qed.

Lemma no_identifiers_is_a_hard_failure_witness :
  let env := Fixtures.oauth2Env None Fixtures.ok200 (inr (JObject [])) Go.Second in
  let items := Fixtures.stepOf "oauth2-post-and-get-items" "Fetch the invoices" "" in
  let setup := Fixtures.stepOf "oauth2-setup" "Set up" "" in
  let b := Fixtures.oauth2Driver in
  (OAuth2.NewRequest env "POST" (parser.URL items) = None
   /\ OAuth2.Do env (OAuth2.itemsRequest b items) = http.Response 200 (inr "{}")
   /\ OAuth2.unmarshal env "{}" = inr (JObject [])
   /\ Extractor.extractJsonValue (JObject []) (parser.ExtractDocumentIds items) = []
   /\ OAuth2.elapsed env < OAuth2.recipeTimeout b)
  /\ launched
       (snd (OAuth2.runSteps Fixtures.bold 2 2 0 (Fixtures.recipeOf [items; setup])
               (fun _ => env) [items; setup] 1 RecipeResult.zero b))
     = [1].
Proof.
  intros env items setup b.
  assert (Hfast : OAuth2.elapsed env < OAuth2.recipeTimeout b) by reflexivity.
  split; [repeat split |].
  destruct (no_identifiers_is_a_hard_failure env b items "{}" (JObject [])
              eq_refl eq_refl eq_refl eq_refl) as (_ & Hrun).
  now rewrite (Hrun Fixtures.bold 2 2 0 (Fixtures.recipeOf [items; setup])
                 (fun _ => env) [setup] 1 RecipeResult.zero eq_refl eq_refl Hfast).
Defined.

(** ** C6: the bounded download *)

(** The capped loop is the uncapped loop on the nodes the cap lets
    through. *)
Lemma clickNodes_capped env step nodes :
  forall x,
    Browser.clickNodes env step nodes x
    = triggerEach env step (firstn (Z.to_nat (2 - x)) nodes).
Proof.
  induction nodes as [| n rest IH]; intros x.
  - now rewrite firstn_nil.
  - cbn [Browser.clickNodes]. destruct (2 <=? x) eqn:Hcap.
    + apply Z.leb_le in Hcap.
      replace (Z.to_nat (2 - x)) with 0%nat by lia. reflexivity.
    + apply Z.leb_gt in Hcap.
      replace (Z.to_nat (2 - x)) with (S (Z.to_nat (2 - (x + 1)))) by lia.
      cbn [firstn triggerEach].
      destruct (Browser.Run env (Browser.triggerDownload step n)); [reflexivity |].
      now rewrite IH.
Qed.







Lemma cap_of_nodes (nodes : list cdp.Node) :
  (if 2 <? Z.of_nat (length nodes) then 2 else Z.of_nat (length nodes))
  = Z.min (Z.of_nat (length nodes)) 2
  /\ Z.of_nat (length (firstn 2 nodes)) = Z.min (Z.of_nat (length nodes)) 2.
Proof.
  rewrite length_firstn. split.
  - destruct (2 <? Z.of_nat (length nodes)) eqn:H;
      [apply Z.ltb_lt in H | apply Z.ltb_ge in H]; lia.
  - lia.
Qed.

(** [stepDownloadAll] once its nodes are resolved. *)
Lemma stepDownloadAll_resolved env b step :
  Browser.Run env (resolveNodes step) = None ->
  let nodes := Browser.nodesOf env (parser.Selector step) in
  let cap := Z.min (Z.of_nat (length nodes)) 2 in
  let opening :=
    [ChromedpRun (resolveNodes step); ListenTarget "download"; WaitGroupAdd cap] in
  let completed := Z.of_nat (Browser.downloadsCompleted env) in
  Browser.stepDownloadAll env b step
  = match triggerEach env step (firstn 2 nodes) with
    | (Some err, clicks) =>
        if cap <? completed
        then (Panics Browser.negativeCounter, b, opening ++ clicks)
        else (Returns (errorResult err), b, opening ++ clicks)
    | (None, clicks) =>
        if completed <? cap
        then (Blocks, b, opening ++ clicks ++ [WaitGroupWait])
        else if completed =? cap
        then (Returns successResult, b, opening ++ clicks ++ [WaitGroupWait])
        else (Panics Browser.negativeCounter, b,
              opening ++ clicks ++ [WaitGroupWait])
    end.
Proof.
  intros Hresolved nodes cap opening completed.
  unfold Browser.stepDownloadAll.
  change [chromedp.Tasks [chromedp.WaitReady (parser.Selector step) [];
                          chromedp.Nodes (parser.Selector step) []]]
    with (resolveNodes step).
  rewrite Hresolved. cbv zeta.
  rewrite clickNodes_capped. change (Z.to_nat (2 - 0)) with 2%nat.
  destruct (cap_of_nodes (Browser.nodesOf env (parser.Selector step))) as [-> _].
  reflexivity.
Qed.




(** ** C10: a sleep step with a malformed duration *)

Lemma parseUintFrom_range s :
  forall n v, Go.parseUintFrom n s = (v, Some Go.ErrRange) -> v = Go.maxUint64.
Proof.
  induction s as [| c rest IH]; intros n v; cbn [Go.parseUintFrom].
  - discriminate.
  - destruct (Go.digit c) as [d |]; [| discriminate].
    destruct (Go.maxUint64 / 10 + 1 <=? n); [intros Heq; now inversion Heq |].
    destruct (Go.maxUint64 <? n * 10 + d); [intros Heq; now inversion Heq |].
    apply IH.
Qed.

Lemma parseUintFrom_malformed s :
  Go.allDigits s = false -> forall n, snd (Go.parseUintFrom n s) <> None.
Proof.
  induction s as [| c rest IH]; cbn [Go.allDigits Go.parseUintFrom];
    [discriminate |].
  intros Hbad n. destruct (Go.digit c) as [d |]; [| discriminate].
  destruct (Go.maxUint64 / 10 + 1 <=? n); [discriminate |].
  destruct (Go.maxUint64 <? n * 10 + d); [discriminate |].
  now apply IH.
Qed.

(** [Atoi] on a string that is no decimal integer: an error, with the
    value 0 or, when the digits read so far already leave [uint64], a
    bound of [int]. *)
Lemma Atoi_malformed s :
  Go.isDecimal s = false ->
  exists seconds err,
    Go.Atoi s = (seconds, Some err)
    /\ (seconds = 0 \/ seconds = Go.MaxInt64 \/ seconds = Go.MinInt64)
    /\ (err = Go.ErrSyntax -> seconds = 0).
Proof.
  unfold Go.isDecimal, Go.Atoi, Go.ParseInt. intros Hbad.
  destruct s as [| c0 s0]; [exists 0, Go.ErrSyntax; auto |].
  destruct (Go.unsignedPart (String c0 s0)) as [neg body].
  destruct body as [| c rest]; [exists 0, Go.ErrSyntax; auto |].
  unfold Go.ParseUint.
  pose proof (parseUintFrom_malformed (String c rest) Hbad 0) as Herr.
  pose proof (parseUintFrom_range (String c rest) 0) as Hrange.
  destruct (Go.parseUintFrom 0 (String c rest)) as [un [[|] |]]; cbn [snd] in Herr.
  - exists 0, Go.ErrSyntax. auto.
  - rewrite (Hrange un eq_refl).
    destruct neg; [exists Go.MinInt64, Go.ErrRange | exists Go.MaxInt64, Go.ErrRange];
      (split; [reflexivity | split; [auto | discriminate]]).
  - contradiction.
Qed.

(** C10. For every sleep step whose value is not a decimal integer, the
    parse fails, the error is dropped and the step asks the browser for a
    sleep that lasts zero seconds (a duration of zero or, when the leading
    digits of the value overflow, one that is not positive); it returns
    success exactly when that browser run reports no error, and leaves
    the driver as it was.  When the browser run fails, the step returns
    the error of the browser; that is the only error it can return, so it
    never fails because of the value. *)
Theorem sleep_ignores_malformed_duration
  (env : Browser.Env) (b : Browser.BrowserDriver) (step : parser.Step) :
  Go.isDecimal (parser.Value step) = false ->
  exists seconds err,
    let d := Go.wrap64 (seconds * Go.Second) in
    Go.Atoi (parser.Value step) = (seconds, Some err)
    /\ (err = Go.ErrSyntax -> d = 0)
    /\ Go.timerDelay d = 0
    /\ snd (Browser.stepSleep env b step) = [ChromedpRun [chromedp.Sleep d]]
    /\ (Browser.Run env [chromedp.Sleep d] = None ->
        fst (Browser.stepSleep env b step) = (Returns successResult, b))
    /\ (forall lsr b',
           fst (Browser.stepSleep env b step) = (Returns lsr, b') ->
           StepResult.Status lsr = "error" ->
           Browser.Run env [chromedp.Sleep d] = Some (StepResult.Message lsr))
    /\ (forall failure,
           Browser.Run env [chromedp.Sleep d] = Some failure ->
           fst (Browser.stepSleep env b step) = (Returns (errorResult failure), b)).
Proof.
  intros Hmalformed.
  destruct (Atoi_malformed (parser.Value step) Hmalformed)
    as (seconds & err & Hatoi & Hvalue & Hsyntax).
  exists seconds, err. cbv zeta.
  split; [exact Hatoi |].
  split; [intros Herr; now rewrite (Hsyntax Herr) |].
  split; [destruct Hvalue as [-> | [-> | ->]]; reflexivity |].
  unfold Browser.stepSleep. rewrite Hatoi. unfold Browser.runOnce.
  destruct (Browser.Run env [chromedp.Sleep (Go.wrap64 (seconds * Go.Second))])
    as [failure |]; cbn [fst snd].
  - split; [reflexivity |]. split; [discriminate |].
    split; [intros lsr b' Heq _; now inversion Heq |].
    intros msg Heq. now inversion Heq.
  - split; [reflexivity |]. split; [reflexivity |].
    split; [| discriminate].
    intros lsr b' Heq Hstatus. inversion Heq; subst. discriminate Hstatus.
Qed.

(** The value "2 seconds" is no decimal integer and the browser run of
    the zero-second sleep fails: the step returns the error of the
    browser, where C10 has every sleep step with such a value return a
    success StepResult. *)
Lemma malformed_sleep_fails_with_the_browser :
  let env := Fixtures.browserEnv Fixtures.runsBroken 2 Go.Second in
  let step := Fixtures.stepOf "sleep" "Wait for the page" "2 seconds" in
  Go.isDecimal (parser.Value step) = false
  /\ Browser.stepSleep env Fixtures.browserDriver step
     = (Returns (StepResult.make "error" "context canceled" false),
        Fixtures.browserDriver, [ChromedpRun [chromedp.Sleep 0]])
  /\ StepResult.Status (StepResult.make "error" "context canceled" false)
     <> "success".
Proof. vm_compute. repeat split. discriminate. Qed.

Lemma sleep_ignores_malformed_duration_witness :
  let env := Fixtures.browserEnv Fixtures.runsFine 2 Go.Second in
  let step := Fixtures.stepOf "sleep" "Wait for the page" "2 seconds" in
  Go.isDecimal (parser.Value step) = false
  /\ Browser.Run env [chromedp.Sleep 0] = None
  /\ Browser.stepSleep env Fixtures.browserDriver step
     = (Returns successResult, Fixtures.browserDriver,
        [ChromedpRun [chromedp.Sleep 0]]).
Proof.
  intros env step.
  destruct (sleep_ignores_malformed_duration env Fixtures.browserDriver step eq_refl)
    as (seconds & err & Hatoi & _ & _ & Heffects & Hfine & _ & _).
  split; [reflexivity |]. split; [reflexivity |].
  inversion Hatoi; subst seconds.
  pose proof (Hfine eq_refl) as Hresult.
  destruct (Browser.stepSleep env Fixtures.browserDriver step)
    as [[completion driver] effects].
  cbn [fst snd] in *. now rewrite Heffects, Hresult.
Defined.

(** ** C7: HTTP status codes and error messages *)






(** * Properties beyond the claims *)

(** ** What the handlers leave alone *)

Ltac split_cases :=
  repeat match goal with
         | |- context [match ?x with _ => _ end] => destruct x eqn:?
         end.

(** X1. A browser handler changes nothing of the driver but the new-files
    counter, and only the move step changes that. *)
Theorem browser_handlers_keep_driver
  (env : Browser.Env) (b : Browser.BrowserDriver) (step : parser.Step) :
  let b' := snd (fst (Browser.handle env b step)) in
  b' = Browser.set_newFilesCount b (Browser.newFilesCount b')
  /\ (parser.Action step <> "move" -> b' = b).
Proof.
  cbv zeta.
  unfold Browser.handle, Browser.stepOpen, Browser.stepRemoveElement,
    Browser.stepClick, Browser.stepType, Browser.stepSleep, Browser.stepWaitFor,
    Browser.stepDownloadAll, Browser.stepTransform, Browser.stepMove,
    Browser.stepRunScript, Browser.stepRunScriptDownloadUrls, Browser.runOnce.
  split_cases; cbn [fst snd];
    (split;
     [now destruct b
     | intros Hno; try reflexivity; exfalso; apply Hno; now apply String.eqb_eq]).
Qed.

Lemma browser_handlers_keep_driver_witness :
  let step := Fixtures.stepOf "downloadAll" "Download the invoices" "/span" in
  parser.Action step <> "move"
  /\ snd (fst (Browser.handle Staging.env Staging.driver step)) = Staging.driver.
Proof.
  intros step.
  assert (Hother : parser.Action step <> "move") by discriminate.
  split; [exact Hother |].
  now apply (browser_handlers_keep_driver Staging.env Staging.driver step).
Defined.

(** How a downloadAll step ends once its nodes are resolved: with the
    panic of its listener when that sees more completed downloads than
    the barrier holds, and in the plain way otherwise. *)
Lemma downloadAll_completion env b step :
  Browser.Run env (resolveNodes step) = None ->
  let cap :=
    Z.min (Z.of_nat (length (Browser.nodesOf env (parser.Selector step)))) 2 in
  let completion := fst (fst (Browser.stepDownloadAll env b step)) in
  (cap < Z.of_nat (Browser.downloadsCompleted env) ->
   completion = Panics Browser.negativeCounter)
  /\ (Z.of_nat (Browser.downloadsCompleted env) <= cap ->
      plainCompletion completion).
Proof.
  intros Hresolved cap completion. subst completion.
  rewrite (stepDownloadAll_resolved env b step Hresolved). cbv zeta. fold cap.
  destruct (triggerEach env step _) as [[e |] clicks].
  - destruct (Z.ltb_spec cap (Z.of_nat (Browser.downloadsCompleted env)));
      cbn [fst plainCompletion]; split; try reflexivity; try lia.
    intros _. right. now exists e.
  - destruct (Z.ltb_spec (Z.of_nat (Browser.downloadsCompleted env)) cap);
      [| destruct (Z.eqb_spec (Z.of_nat (Browser.downloadsCompleted env)) cap)];
      cbn [fst plainCompletion]; split; try reflexivity; try lia.
    intros _. now left.
Qed.

Lemma downloadAll_unresolved env b step e :
  Browser.Run env (resolveNodes step) = Some e ->
  fst (fst (Browser.stepDownloadAll env b step)) = Returns (errorResult e).
Proof.
  intros Hresolved. unfold Browser.stepDownloadAll.
  change [chromedp.Tasks [chromedp.WaitReady (parser.Selector step) [];
                          chromedp.Nodes (parser.Selector step) []]]
    with (resolveNodes step).
  now rewrite Hresolved.
Qed.



(** ** The browser-driven run as a whole *)

(** What the [select] relies on: a handler leaves the staging directory
    and the timeout alone, and it panics only with its download
    listener. *)
Lemma browser_handle_keeps env b step :
  let b' := snd (fst (Browser.handle env b step)) in
  Browser.downloadsDirectory b' = Browser.downloadsDirectory b
  /\ Browser.recipeTimeout b' = Browser.recipeTimeout b.
Proof.
  cbv zeta.
  unfold Browser.handle, Browser.stepOpen, Browser.stepRemoveElement,
    Browser.stepClick, Browser.stepType, Browser.stepSleep, Browser.stepWaitFor,
    Browser.stepDownloadAll, Browser.stepTransform, Browser.stepMove,
    Browser.stepRunScript, Browser.stepRunScriptDownloadUrls, Browser.runOnce.
  split_cases; cbn [fst snd]; split; reflexivity.
Qed.

Lemma downloadAll_panics env b step err :
  fst (fst (Browser.stepDownloadAll env b step)) = Panics err ->
  err = Browser.negativeCounter
  /\ Browser.Run env (resolveNodes step) = None
  /\ Z.min (Z.of_nat (length (Browser.nodesOf env (parser.Selector step)))) 2
     < Z.of_nat (Browser.downloadsCompleted env).
Proof.
  destruct (Browser.Run env (resolveNodes step)) as [e |] eqn:Hresolved.
  { rewrite (downloadAll_unresolved env b step e Hresolved). discriminate. }
  destruct (downloadAll_completion env b step Hresolved) as [Hover Hplain].
  destruct (Z.lt_ge_cases
              (Z.min (Z.of_nat (length (Browser.nodesOf env
                                          (parser.Selector step)))) 2)
              (Z.of_nat (Browser.downloadsCompleted env))) as [Hmore | Hfew].
  - rewrite (Hover Hmore). intros Heq. injection Heq as <-. now repeat split.
  - specialize (Hplain Hfew). intros Heq. rewrite Heq in Hplain. elim Hplain.
Qed.

Lemma browser_handle_panics env b step err :
  fst (fst (Browser.handle env b step)) = Panics err ->
  err = Browser.negativeCounter /\ overrun env step.
Proof.
  destruct (String.eqb_spec (parser.Action step) "downloadAll") as [Haction | Hother].
  - unfold Browser.handle. rewrite Haction. cbn [String.eqb Ascii.eqb Bool.eqb].
    intros Hpanics. apply downloadAll_panics in Hpanics as (-> & Hresolved & Hmore).
    split; [reflexivity |]. unfold overrun. now repeat split.
  - apply String.eqb_neq in Hother.
    unfold Browser.handle, Browser.stepOpen, Browser.stepRemoveElement,
      Browser.stepClick, Browser.stepType, Browser.stepSleep, Browser.stepWaitFor,
      Browser.stepTransform, Browser.stepMove,
      Browser.stepRunScript, Browser.stepRunScriptDownloadUrls, Browser.runOnce.
    cbv zeta. rewrite Hother.
    split_cases; cbn [fst snd]; discriminate.
Qed.

Lemma browser_select_keeps_directory env b step :
  match Browser.selectResult env b step with
  | Received _ b' | TimedOut b' =>
      Browser.downloadsDirectory b' = Browser.downloadsDirectory b
  | Crashed err => err = Browser.negativeCounter /\ overrun env step
  end.
Proof.
  unfold Browser.selectResult.
  pose proof (browser_handle_keeps env b step) as [Hkept _].
  pose proof (browser_handle_panics env b step) as Hpanics.
  destruct (Browser.handle env b step) as [[[lsr | | err] b'] effects];
    cbn [fst snd] in *;
    [destruct (Browser.elapsed env <? Browser.recipeTimeout b) |
    | destruct (Browser.elapsed env <? Browser.recipeTimeout b)];
    try reflexivity; try exact Hkept.
  now apply Hpanics.
Qed.

Lemma browser_runStep_keeps_directory style tsc scs bcs recipe world n b step :
  match Browser.runStep style tsc scs bcs recipe world n b step with
  | (Next _ b', events) =>
      Browser.downloadsDirectory b' = Browser.downloadsDirectory b
      /\ purged events = []
  | (Return _ b', events) =>
      Browser.downloadsDirectory b' = Browser.downloadsDirectory b
      /\ purged events = [Browser.downloadsDirectory b]
  | (Panic err, events) =>
      err = Browser.negativeCounter /\ overrun (world n) step /\ purged events = []
  end.
Proof.
  unfold Browser.runStep.
  pose proof (browser_select_keeps_directory (world n) b step) as Hkept.
  destruct (Browser.selectResult (world n) b step) as [lsr b' | b' | err];
    [destruct (String.eqb (StepResult.Status lsr) "success") |
     | destruct Hkept as [Herr Hover];
       split; [exact Herr | split; [exact Hover | reflexivity]]];
    (split; [exact Hkept |]);
    try reflexivity; cbn [app purged flat_map];
    change (purged (Browser.purge (world n) b') = [Browser.downloadsDirectory b]);
    now rewrite purged_purge, Hkept.
Qed.

Lemma purged_app e1 e2 : purged (e1 ++ e2) = purged e1 ++ purged e2.
Proof. apply flat_map_app. Qed.

(** A run of the loop returns after one purge of the staging directory,
    or it goes down at the panic of a download listener with nothing
    purged. *)
Lemma browser_runSteps_purge_once style tsc scs bcs recipe world steps :
  forall n result b,
    match Browser.runSteps style tsc scs bcs recipe world steps n result b with
    | (Return _ b', events) =>
        Browser.downloadsDirectory b' = Browser.downloadsDirectory b
        /\ purged events = [Browser.downloadsDirectory b]
    | (Panic err, events) =>
        err = Browser.negativeCounter
        /\ purged events = []
        /\ exists k step, In step steps /\ overrun (world k) step
    | (Next _ _, _) => False
    end.
Proof.
  induction steps as [| step rest IH]; intros n result b.
  - cbn [Browser.runSteps]. split; [reflexivity | apply purged_purge].
  - rewrite browser_runSteps_cons.
    pose proof (browser_runStep_keeps_directory style tsc scs bcs recipe world n b step)
      as Hstep.
    destruct (Browser.runStep style tsc scs bcs recipe world n b step)
      as [[result' b1 | result' b1 | err] events].
    + destruct Hstep as [Hdir Hnone]. specialize (IH (n + 1) result' b1).
      destruct (Browser.runSteps style tsc scs bcs recipe world rest (n + 1)
                  result' b1) as [[r b' | r b' | err] later];
        cbn [fst snd]; [contradiction | |].
      * destruct IH as [Hdir' Hpurged].
        split; [congruence |]. rewrite purged_app, Hnone, Hpurged, Hdir. reflexivity.
      * destruct IH as (Herr & Hpurged & k & culprit & Hin & Hover).
        split; [exact Herr |]. split; [now rewrite purged_app, Hnone, Hpurged |].
        exists k, culprit. split; [now right | exact Hover].
    + exact Hstep.
    + destruct Hstep as (Herr & Hover & Hnone).
      split; [exact Herr |]. split; [exact Hnone |].
      exists n, step. split; [now left | exact Hover].
Qed.

(** X3. A browser-driven run whose browser is up either returns or goes
    down at the panic of a download listener.  When it returns, whether
    with success, an error or a timeout, it has purged the download
    staging directory exactly once, and the directory purged is the one
    [InitProviderDirectories] returned.  It goes down only with a negative
    WaitGroup counter, at a downloadAll step of the recipe whose listener
    sees more completed downloads than its barrier holds, and it returns
    whenever the recipe has no such step. *)
Theorem browser_run_purges_exactly_once
  (host : Browser.Host) (world : Z -> Browser.Env) (tsc scs bcs : Z)
  (b : Browser.BrowserDriver) (recipe : parser.Recipe) :
  Browser.startBrowser host = None ->
  (Browser.ChromeVersion b = "" -> exists text, Browser.readVersion host = inr text) ->
  Browser.allowDownloads host = None ->
  let run := Browser.RunRecipe host world tsc scs bcs b recipe in
  let downloads :=
    fst (fst (Browser.InitProviderDirectories host (Browser.buchhalterDirectory b)
                (parser.Provider recipe))) in
  (forall r b', fst run = Return r b' -> purged (snd run) = [downloads])
  /\ (forall err,
         fst run = Panic err ->
         err = Browser.negativeCounter
         /\ exists n step, In step (parser.Steps recipe) /\ overrun (world n) step)
  /\ ((forall n step, In step (parser.Steps recipe) -> ~ overrun (world n) step) ->
      exists r b', fst run = Return r b' /\ purged (snd run) = [downloads]).
Proof.
  intros Hstart Hversion Hallow run downloads.
  unfold run, downloads, Browser.RunRecipe. rewrite Hstart, Hallow.
  assert (Hread : exists chromeVersion,
             (if String.eqb (Browser.ChromeVersion b) ""
              then match Browser.readVersion host with
                   | inl err => inl err
                   | inr text => inr (Browser.TrimSpace host text)
                   end
              else inr (Browser.ChromeVersion b))
             = (inr chromeVersion : string + string)).
  { destruct (String.eqb_spec (Browser.ChromeVersion b) "") as [Hempty | _];
      [| eexists; reflexivity].
    destruct (Hversion Hempty) as [text ->]. eexists; reflexivity. }
  destruct Hread as [chromeVersion ->].
  destruct (Browser.InitProviderDirectories host (Browser.buchhalterDirectory b)
              (parser.Provider recipe)) as [[dl docs] err].
  cbn [fst].
  match goal with
  | |- context [Browser.runSteps ?s ?t ?c ?bc ?rc ?w ?st ?n ?res ?b0] =>
      pose proof (browser_runSteps_purge_once s t c bc rc w st n res b0) as Hloop;
      destruct (Browser.runSteps s t c bc rc w st n res b0)
        as [[r b' | r b' | crash] events]
  end; cbn [fst snd Browser.downloadsDirectory] in *.
  - contradiction.
  - destruct Hloop as [_ Hpurged].
    assert (Honce : purged (match err with
                            | Some e => [FmtPrintln e]
                            | None => []
                            end ++ events) = [dl])
      by (rewrite purged_app, Hpurged; now destruct err).
    split; [intros _ _ _; exact Honce |].
    split; [discriminate |].
    intros _. exists r, b'. split; [reflexivity | exact Honce].
  - destruct Hloop as (Hcrash & Hpurged & k & culprit & Hin & Hover).
    split; [discriminate |]. split.
    + intros e Heq. injection Heq as <-. split; [exact Hcrash |].
      now exists k, culprit.
    + intros Hnone. now elim (Hnone k culprit Hin).
Qed.

Lemma browser_run_purges_exactly_once_witness :
  let world := fun _ : Z => Fixtures.browserEnv Fixtures.runsBroken 2 Go.Second in
  let step := Fixtures.stepOf "click" "Open the invoice list" "" in
  let run := Browser.RunRecipe Fixtures.browserHost world 2 2 0
               Fixtures.browserDriver (Fixtures.recipeOf [step; step]) in
  Browser.startBrowser Fixtures.browserHost = None
  /\ Browser.allowDownloads Fixtures.browserHost = None
  /\ exists r b',
       fst run = Return r b'
       /\ purged (snd run) = ["/home/user/buchhalter/_tmp/acme"].
Proof.
  intros world step run.
  split; [reflexivity |]. split; [reflexivity |].
  destruct (browser_run_purges_exactly_once Fixtures.browserHost world 2 2 0
              Fixtures.browserDriver (Fixtures.recipeOf [step; step]) eq_refl
              (fun _ => ex_intro _ " Chrome/120.0 " eq_refl) eq_refl)
    as (_ & _ & Hreturns).
  apply Hreturns. intros n culprit Hin [Haction _].
  destruct Hin as [<- | [<- | []]]; discriminate Haction.
Defined.

(** ** What a run returns *)

Lemma browser_runStep_names_step style tsc scs bcs recipe world n b step :
  launched (snd (Browser.runStep style tsc scs bcs recipe world n b step)) = [n]
  /\ match fst (Browser.runStep style tsc scs bcs recipe world n b step) with
     | Next r _ | Return r _ =>
         RecipeResult.LastStepId r = stepId recipe n step
         /\ RecipeResult.LastStepDescription r = parser.Description step
         /\ (RecipeResult.Status r = "success" \/ RecipeResult.Status r = "error")
     | Panic _ => True
     end.
Proof.
  split; [apply browser_runStep_launched |].
  unfold Browser.runStep.
  destruct (Browser.selectResult (world n) b step) as [lsr b' | b' | err];
    [destruct (String.eqb (StepResult.Status lsr) "success") | |];
    cbn [fst]; auto.
Qed.

Lemma oauth2_runStep_names_step style tsc scs bcs recipe world n b step :
  launched (snd (OAuth2.runStep style tsc scs bcs recipe world n b step)) = [n]
  /\ match fst (OAuth2.runStep style tsc scs bcs recipe world n b step) with
     | Next r _ | Return r _ =>
         RecipeResult.LastStepId r = stepId recipe n step
         /\ RecipeResult.LastStepDescription r = parser.Description step
         /\ (RecipeResult.Status r = "success" \/ RecipeResult.Status r = "error")
     | Panic _ => True
     end.
Proof.
  split; [apply oauth2_runStep_launched |].
  unfold OAuth2.runStep.
  destruct (OAuth2.selectResult (world n) b recipe step) as [lsr b' | b' | err];
    [destruct (String.eqb (StepResult.Status lsr) "success");
     [| destruct (StepResult.Break lsr)] | |];
    cbn [fst]; auto.
Qed.

Lemma lastStarted_here recipe step rest n events r :
  launched events = [n] ->
  RecipeResult.LastStepId r = stepId recipe n step ->
  RecipeResult.LastStepDescription r = parser.Description step ->
  lastStarted recipe (step :: rest) n events r.
Proof.
  intros Hl Hid Hd. exists 0%nat, step.
  split; [reflexivity |]. split; [exact Hl |].
  split; [now rewrite Z.add_0_r | exact Hd].
Qed.

Lemma lastStarted_later recipe step rest n events later r :
  launched events = [n] ->
  lastStarted recipe rest (n + 1) later r ->
  lastStarted recipe (step :: rest) n (events ++ later) r.
Proof.
  intros Hl (k & s & Hnth & Hlater & Hid & Hd). exists (S k), s.
  split; [exact Hnth |].
  split; [rewrite launched_app, Hl, Hlater; reflexivity |].
  split; [| exact Hd]. rewrite Hid. f_equal. lia.
Qed.

Lemma browser_run_names_last style tsc scs bcs recipe world steps :
  forall n result b r b' events,
    Browser.runSteps style tsc scs bcs recipe world steps n result b
    = (Return r b', events) ->
    (steps = [] -> r = result /\ launched events = [])
    /\ (steps <> [] ->
        lastStarted recipe steps n events r
        /\ (RecipeResult.Status r = "success" \/ RecipeResult.Status r = "error")).
Proof.
  induction steps as [| step rest IH]; intros n result b r b' events.
  - cbn [Browser.runSteps]. intros Heq. injection Heq as <- _ <-.
    split; [| intros Hne; now elim Hne]. intros _. split; [reflexivity |].
    unfold Browser.purge.
    destruct (Browser.truncate (world n) (Browser.downloadsDirectory b));
      reflexivity.
  - rewrite browser_runSteps_cons.
    destruct (browser_runStep_names_step style tsc scs bcs recipe world n b step)
      as [Hl Hstep].
    destruct (Browser.runStep style tsc scs bcs recipe world n b step)
      as [[r1 b1 | r1 b1 | err] ev]; cbn [fst snd] in *.
    + intros Heq. split; [discriminate |]. intros _.
      destruct Hstep as (Hid & Hd & Hstatus).
      destruct (Browser.runSteps style tsc scs bcs recipe world rest (n + 1) r1 b1)
        as [flow later] eqn:Hrest.
      cbn [fst snd] in Heq. injection Heq as -> <-.
      destruct (IH (n + 1) r1 b1 r b' later Hrest) as [Hempty Hmore].
      destruct rest as [| next rest'].
      * destruct (Hempty eq_refl) as [-> Hnone].
        split; [| exact Hstatus].
        exists 0%nat, step. split; [reflexivity |].
        split; [now rewrite launched_app, Hl, Hnone |].
        split; [now rewrite Z.add_0_r | exact Hd].
      * destruct Hmore as [Hlast Hs]; [discriminate |].
        split; [now apply lastStarted_later | exact Hs].
    + intros Heq. injection Heq as <- _ <-. split; [discriminate |]. intros _.
      destruct Hstep as (Hid & Hd & Hstatus).
      split; [now apply lastStarted_here | exact Hstatus].
    + discriminate.
Qed.

Lemma oauth2_run_names_last style tsc scs bcs recipe world steps :
  forall n result b r b' events,
    OAuth2.runSteps style tsc scs bcs recipe world steps n result b
    = (Return r b', events) ->
    (steps = [] -> r = result /\ events = [])
    /\ (steps <> [] ->
        lastStarted recipe steps n events r
        /\ (RecipeResult.Status r = "success" \/ RecipeResult.Status r = "error")).
Proof.
  induction steps as [| step rest IH]; intros n result b r b' events.
  - cbn [OAuth2.runSteps]. intros Heq. injection Heq as <- _ <-.
    split; [| intros Hne; now elim Hne]. intros _. split; reflexivity.
  - rewrite oauth2_runSteps_cons.
    destruct (oauth2_runStep_names_step style tsc scs bcs recipe world n b step)
      as [Hl Hstep].
    destruct (OAuth2.runStep style tsc scs bcs recipe world n b step)
      as [[r1 b1 | r1 b1 | err] ev]; cbn [fst snd] in *.
    + intros Heq. split; [discriminate |]. intros _.
      destruct Hstep as (Hid & Hd & Hstatus).
      destruct (OAuth2.runSteps style tsc scs bcs recipe world rest (n + 1) r1 b1)
        as [flow later] eqn:Hrest.
      cbn [fst snd] in Heq. injection Heq as -> <-.
      destruct (IH (n + 1) r1 b1 r b' later Hrest) as [Hempty Hmore].
      destruct rest as [| next rest'].
      * destruct (Hempty eq_refl) as [-> ->].
        split; [| exact Hstatus].
        exists 0%nat, step. split; [reflexivity |].
        split; [now rewrite app_nil_r |].
        split; [now rewrite Z.add_0_r | exact Hd].
      * destruct Hmore as [Hlast Hs]; [discriminate |].
        split; [now apply lastStarted_later | exact Hs].
    + intros Heq. injection Heq as <- _ <-. split; [discriminate |]. intros _.
      destruct Hstep as (Hid & Hd & Hstatus).
      split; [now apply lastStarted_here | exact Hstatus].
    + discriminate.
Qed.

(** X4. Whatever a run of either dispatcher returns: for a recipe without
    steps it is the empty RecipeResult, with no step started; otherwise
    its status is "success" or "error" and its last-step identifier and
    description are those of the last step the run started, so a result
    never names a step that did not run or an earlier one. *)
Theorem returned_result_names_last_started_step
  (style : string -> string) (tsc scs bcs : Z) (recipe : parser.Recipe) :
  (forall (world : Z -> Browser.Env) b r b' events,
      Browser.runSteps style tsc scs bcs recipe world (parser.Steps recipe) 1
        RecipeResult.zero b = (Return r b', events) ->
      (parser.Steps recipe = [] -> r = RecipeResult.zero /\ launched events = [])
      /\ (parser.Steps recipe <> [] ->
          lastStarted recipe (parser.Steps recipe) 1 events r
          /\ (RecipeResult.Status r = "success"
              \/ RecipeResult.Status r = "error")))
  /\ (forall (world : Z -> OAuth2.Env) b r b' events,
         OAuth2.runSteps style tsc scs bcs recipe world (parser.Steps recipe) 1
           RecipeResult.zero b = (Return r b', events) ->
         (parser.Steps recipe = [] -> r = RecipeResult.zero /\ events = [])
         /\ (parser.Steps recipe <> [] ->
             lastStarted recipe (parser.Steps recipe) 1 events r
             /\ (RecipeResult.Status r = "success"
                 \/ RecipeResult.Status r = "error"))).
Proof.
  split.
  - intros world b r b' events. apply browser_run_names_last.
  - intros world b r b' events. apply oauth2_run_names_last.
Qed.

Lemma returned_result_names_last_started_step_witness :
  let world := fun _ : Z =>
    Fixtures.oauth2Env None Fixtures.ok200 (inr (JObject [])) Go.Second in
  let check := Fixtures.stepOf "oauth2-check-tokens" "Check the token cache" "" in
  let items := Fixtures.stepOf "oauth2-post-and-get-items" "Fetch the invoices" "" in
  let setup := Fixtures.stepOf "oauth2-setup" "Set up" "" in
  let recipe := Fixtures.recipeOf [check; items; setup] in
  let run := OAuth2.runSteps Fixtures.bold 3 3 0 recipe world (parser.Steps recipe) 1
               RecipeResult.zero Fixtures.oauth2Driver in
  parser.Steps recipe <> []
  /\ (exists r b', run = (Return r b', snd run)
                   /\ lastStarted recipe (parser.Steps recipe) 1 (snd run) r
                   /\ RecipeResult.LastStepId r = "acme-1.0-2-oauth2-post-and-get-items").
Proof.
  intros world check items setup recipe run.
  assert (Hne : parser.Steps recipe <> []) by discriminate.
  split; [exact Hne |].
  destruct (returned_result_names_last_started_step Fixtures.bold 3 3 0 recipe)
    as (_ & Hoauth2).
  eexists. eexists.
  assert (Hrun : run = (Return _ _, snd run)) by reflexivity.
  split; [exact Hrun |].
  destruct (Hoauth2 world Fixtures.oauth2Driver _ _ _ Hrun) as (_ & Hnames).
  split; [exact (proj1 (Hnames Hne)) | reflexivity].
Defined.

(** ** What the OAuth2 handlers return and leave alone *)

Lemma fetchDocuments_ends_softly env b step filenames ids :
  forall n count ended count' effects,
    OAuth2.fetchDocuments env b step filenames ids n count
    = (Some ended, count', effects) ->
    statusedCompletion false ended.
Proof.
  induction ids as [| id rest IH]; intros n count ended count' effects;
    cbn [OAuth2.fetchDocuments]; [discriminate |].
  destruct (if 0 <? Z.of_nat (length filenames)
            then match filenames !! Z.to_nat n with
                 | Some name =>
                     Some (OAuth2.Join env [OAuth2.downloadsDirectory b; name], name)
                 | None => None
                 end
            else Some (OAuth2.Join env [OAuth2.downloadsDirectory b; id; ".pdf"],
                       OAuth2.Join env [id; ".pdf"])) as [[f filename] |].
  2: { intros Heq. injection Heq as <- _ _. exact I. }
  destruct (OAuth2.doRequest env b _ _ _ f) as [[ok err] requested].
  destruct ok; cbn [negb].
  2: { intros Heq. injection Heq as <- _ _. split; [now right | discriminate]. }
  destruct (OAuth2.FileExists env f).
  - destruct (OAuth2.fetchDocuments env b step filenames rest (n + 1) count)
      as [[later c1] e1] eqn:Hrest.
    intros Heq. injection Heq as -> _ _. exact (IH _ _ _ _ _ Hrest).
  - destruct (OAuth2.copy env f _).
    { intros Heq. injection Heq as <- _ _. split; [now right | discriminate]. }
    destruct (OAuth2.addFile env _).
    { intros Heq. injection Heq as <- _ _. split; [now right | discriminate]. }
    destruct (OAuth2.fetchDocuments env b step filenames rest (n + 1) (count + 1))
      as [[later c1] e1] eqn:Hrest.
    intros Heq. injection Heq as -> _ _. exact (IH _ _ _ _ _ Hrest).
Qed.

Lemma items_statused env b step :
  statusedCompletion true (fst (fst (OAuth2.stepOauth2PostAndGetItems env b step)))
  /\ sameSession b (snd (fst (OAuth2.stepOauth2PostAndGetItems env b step))).
Proof.
  unfold OAuth2.stepOauth2PostAndGetItems.
  destruct (OAuth2.NewRequest env "POST" (parser.URL step)).
  { split; [split; [now right | now split] | repeat split]. }
  destruct (OAuth2.Do env (OAuth2.itemsRequest b step)) as [err | code [err | body]].
  { split; [split; [now right | now split] | repeat split]. }
  { split; [split; [now right | discriminate] | repeat split]. }
  destruct (code =? 200).
  - destruct (OAuth2.unmarshal env body) as [err | jsr].
    { split; [exact I | repeat split]. }
    destruct (Z.of_nat (length (Extractor.extractJsonValue jsr
                                 (parser.ExtractDocumentIds step))) =? 0).
    { split; [split; [now right | now split] | repeat split]. }
    destruct (OAuth2.fetchDocuments env (OAuth2.set_newFilesCount b 0) step _ _ 0 0)
      as [[[ended |] count] effects] eqn:Hloop; cbn [fst snd].
    + split; [| repeat split].
      pose proof (fetchDocuments_ends_softly _ _ _ _ _ _ _ _ _ _ Hloop) as Hsoft.
      destruct ended as [lsr | |]; try exact I.
      destruct Hsoft as [Hstatus Hbreak]. split; [exact Hstatus |].
      intros Hb. destruct (Hbreak Hb) as [Hno _]. discriminate Hno.
    + split; [split; [now left | discriminate] | repeat split].
  - destruct (code =? 400);
      (split; [split; [now right | discriminate] | repeat split]).
Qed.

Lemma check_statused env b recipe step credentials directory :
  statusedCompletion true
    (fst (fst (OAuth2.stepOauth2CheckTokens env b recipe step credentials directory)))
  /\ sameSession b
       (snd (fst (OAuth2.stepOauth2CheckTokens env b recipe step credentials
                    directory))).
Proof.
  unfold OAuth2.stepOauth2CheckTokens.
  split_cases; cbn [fst snd statusedCompletion StepResult.Status StepResult.Break];
    (split; [split; [auto | intros Hb; (discriminate Hb || now split)]
            | repeat split]).
Qed.

Lemma authenticate_statused env b recipe step credentials directory :
  statusedCompletion false
    (fst (fst (OAuth2.stepOauth2Authenticate env b recipe step credentials directory)))
  /\ sameSession b
       (snd (fst (OAuth2.stepOauth2Authenticate env b recipe step credentials
                    directory))).
Proof.
  unfold OAuth2.stepOauth2Authenticate, OAuth2.loginError.
  split_cases; cbn [fst snd statusedCompletion StepResult.Status StepResult.Break
                      successResult];
    (split; [first [exact I | split; [auto | intros Hb; discriminate Hb]]
            | repeat split]).
Qed.

Lemma statusedCompletion_weaken completion mayBreak :
  statusedCompletion false completion -> statusedCompletion mayBreak completion.
Proof.
  destruct completion as [lsr | |]; cbn [statusedCompletion]; auto.
  intros [Hstatus Hbreak]. split; [exact Hstatus |].
  intros Hb. destruct (Hbreak Hb) as [Hno _]. discriminate Hno.
Qed.

Lemma oauth2_handle_keeps_timeout env b recipe step :
  OAuth2.recipeTimeout (snd (fst (OAuth2.handle env b recipe step)))
  = OAuth2.recipeTimeout b.
Proof.
  unfold OAuth2.handle. cbv zeta.
  destruct (String.eqb (parser.Action step) "oauth2-setup"); [reflexivity |].
  destruct (String.eqb (parser.Action step) "oauth2-check-tokens");
    [apply (check_statused env b recipe step) |].
  destruct (String.eqb (parser.Action step) "oauth2-authenticate");
    [apply (authenticate_statused env b recipe step) |].
  destruct (String.eqb (parser.Action step) "oauth2-post-and-get-items");
    [apply (items_statused env b step) | reflexivity].
Qed.

(** X7. An OAuth2 handler leaves the credentials, the directories, the
    browser version and the step timeout of the driver as they were.  A
    result it returns has status "success" or "error", and the break flag
    is set only on an error of the token check or of the items request:
    the setup and the login never end a run by themselves. *)
Theorem oauth2_handlers_keep_session
  (env : OAuth2.Env) (b : OAuth2.ClientAuthBrowserDriver)
  (recipe : parser.Recipe) (step : parser.Step) :
  let handled := OAuth2.handle env b recipe step in
  sameSession b (snd (fst handled))
  /\ statusedCompletion
       (String.eqb (parser.Action step) "oauth2-check-tokens"
        || String.eqb (parser.Action step) "oauth2-post-and-get-items")
       (fst (fst handled)).
Proof.
  unfold OAuth2.handle. cbv zeta.
  destruct (String.eqb (parser.Action step) "oauth2-setup").
  { split; [repeat split | split; [now left | discriminate]]. }
  destruct (String.eqb (parser.Action step) "oauth2-check-tokens").
  { destruct (check_statused env b recipe step (OAuth2.credentials b)
                (OAuth2.buchhalterConfigDirectory b)) as [Hs Hk].
    split; [exact Hk | exact Hs]. }
  destruct (String.eqb (parser.Action step) "oauth2-authenticate").
  { destruct (authenticate_statused env b recipe step (OAuth2.credentials b)
                (OAuth2.buchhalterConfigDirectory b)) as [Hs Hk].
    split; [exact Hk | now apply statusedCompletion_weaken]. }
  destruct (String.eqb (parser.Action step) "oauth2-post-and-get-items").
  { destruct (items_statused env b step) as [Hs Hk].
    split; [exact Hk | exact Hs]. }
  split; [repeat split | exact I].
Qed.

Lemma oauth2_select_keeps_timeout env b recipe step lsr b' :
  OAuth2.selectResult env b recipe step = Received lsr b' ->
  OAuth2.recipeTimeout b' = OAuth2.recipeTimeout b.
Proof.
  unfold OAuth2.selectResult.
  pose proof (oauth2_handle_keeps_timeout env b recipe step) as Hkept.
  destruct (OAuth2.handle env b recipe step) as [[[sr | | err] b1] effects];
    cbn [fst snd] in *; try discriminate;
    destruct (OAuth2.elapsed env <? OAuth2.recipeTimeout b); try discriminate.
  intros Heq. injection Heq as _ <-. exact Hkept.
Qed.

Lemma browser_select_keeps_timeout env b step lsr b' :
  Browser.selectResult env b step = Received lsr b' ->
  Browser.recipeTimeout b' = Browser.recipeTimeout b.
Proof.
  unfold Browser.selectResult.
  pose proof (browser_handle_keeps env b step) as [_ Hkept].
  destruct (Browser.handle env b step) as [[[sr | | err] b1] effects];
    cbn [fst snd] in *; try discriminate;
    destruct (Browser.elapsed env <? Browser.recipeTimeout b); try discriminate.
  intros Heq. injection Heq as _ <-. exact Hkept.
Qed.

(** ** A run in which every step succeeds *)

Lemma browser_all_succeed style tsc scs bcs recipe world steps :
  forall n result b,
    browserSucceedsAlong world steps n b ->
    let run := Browser.runSteps style tsc scs bcs recipe world steps n result b in
    (exists r b',
        fst run = Return r b'
        /\ (steps <> [] -> RecipeResult.Status r = "success"))
    /\ launched (snd run) = counters n (length steps)
    /\ percents (snd run)
       = map (fun k => progress bcs k tsc) (counters n (length steps)).
Proof.
  induction steps as [| step rest IH]; intros n result b Hall; cbv zeta.
  - split; [exists result, b; split; [reflexivity | intros Hne; now elim Hne] |].
    cbn [Browser.runSteps snd]. unfold Browser.purge.
    destruct (Browser.truncate (world n) (Browser.downloadsDirectory b));
      split; reflexivity.
  - destruct Hall as (lsr & b1 & Hsel & Hstatus & Hrest).
    rewrite browser_runSteps_cons.
    rewrite (browser_runStep_success style tsc scs bcs recipe world n b step lsr b1
               Hsel Hstatus).
    cbn [fst snd].
    destruct (IH (n + 1) (Browser.onSuccess style recipe n step b1) b1 Hrest)
      as ((r & b' & Hflow & Hsuccess) & Hl & Hp).
    split.
    + exists r, b'. split; [exact Hflow |]. intros _.
      destruct rest as [| next rest']; [| apply Hsuccess; discriminate].
      cbn [Browser.runSteps fst] in Hflow. injection Hflow as <- _. reflexivity.
    + rewrite launched_app, percents_app, Hl, Hp. split; reflexivity.
Qed.

Lemma oauth2_all_succeed style tsc scs bcs recipe world steps :
  forall n result b,
    oauth2SucceedsAlong world recipe steps n b ->
    let run := OAuth2.runSteps style tsc scs bcs recipe world steps n result b in
    (exists r b',
        fst run = Return r b'
        /\ (steps <> [] -> RecipeResult.Status r = "success"))
    /\ launched (snd run) = counters n (length steps)
    /\ percents (snd run)
       = map (fun k => progress bcs k tsc) (counters n (length steps)).
Proof.
  induction steps as [| step rest IH]; intros n result b Hall; cbv zeta.
  - split; [exists result, b; split; [reflexivity | intros Hne; now elim Hne] |].
    split; reflexivity.
  - destruct Hall as (lsr & b1 & Hsel & Hstatus & Hrest).
    rewrite oauth2_runSteps_cons.
    rewrite (oauth2_runStep_success style tsc scs bcs recipe world n b step lsr b1
               Hsel Hstatus).
    cbn [fst snd].
    destruct (IH (n + 1) (OAuth2.onSuccess style recipe n step b1) b1 Hrest)
      as ((r & b' & Hflow & Hsuccess) & Hl & Hp).
    split.
    + exists r, b'. split; [exact Hflow |]. intros _.
      destruct rest as [| next rest']; [| apply Hsuccess; discriminate].
      cbn [OAuth2.runSteps fst] in Hflow. injection Hflow as <- _. reflexivity.
    + rewrite launched_app, percents_app, Hl, Hp. split; reflexivity.
Qed.

(** X5. When every step of a recipe delivers a success result in time
    along the run, each one in the world of its own counter and from the
    driver the step before it left, the run of either dispatcher starts
    all the steps in order, sends the progress message of every one of
    them, the last being (steps before + number of steps) / total, and
    returns a result which for a recipe with at least one step has status
    "success". *)
Theorem all_steps_succeed_gives_success
  (style : string -> string) (tsc scs bcs : Z) (recipe : parser.Recipe) :
  (forall (world : Z -> Browser.Env) b,
      browserSucceedsAlong world (parser.Steps recipe) 1 b ->
      let run := Browser.runSteps style tsc scs bcs recipe world
                   (parser.Steps recipe) 1 RecipeResult.zero b in
      (exists r b',
          fst run = Return r b'
          /\ (parser.Steps recipe <> [] -> RecipeResult.Status r = "success"))
      /\ launched (snd run) = counters 1 (length (parser.Steps recipe))
      /\ percents (snd run)
         = map (fun k => progress bcs k tsc)
               (counters 1 (length (parser.Steps recipe))))
  /\ (forall (world : Z -> OAuth2.Env) b,
         oauth2SucceedsAlong world recipe (parser.Steps recipe) 1 b ->
         let run := OAuth2.runSteps style tsc scs bcs recipe world
                      (parser.Steps recipe) 1 RecipeResult.zero b in
         (exists r b',
             fst run = Return r b'
             /\ (parser.Steps recipe <> [] -> RecipeResult.Status r = "success"))
         /\ launched (snd run) = counters 1 (length (parser.Steps recipe))
         /\ percents (snd run)
            = map (fun k => progress bcs k tsc)
                  (counters 1 (length (parser.Steps recipe)))).
Proof.
  split.
  - intros world b Hall.
    now apply (browser_all_succeed style tsc scs bcs recipe world
                 (parser.Steps recipe)).
  - intros world b Hall.
    now apply (oauth2_all_succeed style tsc scs bcs recipe world
                 (parser.Steps recipe)).
Qed.

(** A run of the OAuth2 dispatcher over a valid cached token: the check
    adopts it, the login is skipped and the items are fetched.  The login
    step succeeds only from the driver the check left; from the driver the
    run starts with it would start a login. *)
Lemma all_steps_succeed_gives_success_witness :
  let world := fun _ : Z => Portal.env in
  let check := Fixtures.stepOf "oauth2-check-tokens" "Look for a token" "" in
  let login := Fixtures.stepOf "oauth2-authenticate" "Log in" "" in
  let recipe := Fixtures.recipeOf [check; login; Portal.itemsStep ""] in
  let run := OAuth2.runSteps Fixtures.bold 6 3 3 recipe world (parser.Steps recipe) 1
               RecipeResult.zero Fixtures.oauth2Driver in
  oauth2SucceedsAlong world recipe (parser.Steps recipe) 1 Fixtures.oauth2Driver
  /\ snd (OAuth2.handle Portal.env Fixtures.oauth2Driver recipe login) <> []
  /\ (exists r b', fst run = Return r b' /\ RecipeResult.Status r = "success")
  /\ launched (snd run) = [1; 2; 3]
  /\ percents (snd run) = map (fun k => progress 3 k 6) [1; 2; 3].
Proof.
  intros world check login recipe run.
  assert (Hall : oauth2SucceedsAlong world recipe (parser.Steps recipe) 1
                   Fixtures.oauth2Driver).
  { cbn [oauth2SucceedsAlong parser.Steps recipe Fixtures.recipeOf].
    eexists; eexists; split; [vm_compute; reflexivity |].
    split; [reflexivity |].
    eexists; eexists; split; [vm_compute; reflexivity |].
    split; [reflexivity |].
    eexists; eexists; split; [vm_compute; reflexivity |].
    split; [reflexivity | exact I]. }
  split; [exact Hall |].
  split; [vm_compute; discriminate |].
  destruct (all_steps_succeed_gives_success Fixtures.bold 6 3 3 recipe)
    as (_ & Hoauth2).
  destruct (Hoauth2 world Fixtures.oauth2Driver Hall)
    as ((r & b' & Hflow & Hsuccess) & Hl & Hp).
  split; [exists r, b'; split; [exact Hflow | apply Hsuccess; discriminate] |].
  split; [exact Hl | exact Hp].
Defined.

(** ** A step of an unknown kind *)

Lemma browser_unknown_blocks env b step :
  ~ In (parser.Action step) browserActions ->
  Browser.handle env b step = (Blocks, b, []).
Proof.
  intros Hunknown. unfold Browser.handle.
  repeat match goal with
         | |- context [String.eqb (parser.Action step) ?a] =>
             destruct (String.eqb_spec (parser.Action step) a) as [Heq | _];
             [exfalso; apply Hunknown; rewrite Heq; unfold browserActions;
              cbn [In]; tauto |]
         end.
  reflexivity.
Qed.

Lemma oauth2_unknown_blocks env b recipe step :
  ~ In (parser.Action step) oauth2Actions ->
  OAuth2.handle env b recipe step = (Blocks, b, []).
Proof.
  intros Hunknown. unfold OAuth2.handle.
  repeat match goal with
         | |- context [String.eqb (parser.Action step) ?a] =>
             destruct (String.eqb_spec (parser.Action step) a) as [Heq | _];
             [exfalso; apply Hunknown; rewrite Heq; unfold oauth2Actions;
              cbn [In]; tauto |]
         end.
  reflexivity.
Qed.

(** X6. A step whose action the dispatcher does not know starts a handler
    that never sends a result: the run waits out the step timeout and
    returns the timeout error for that step, with no later step started.
    No action of one dispatcher is known to the other, so a step given to
    the wrong driver ends the run this way. *)
Theorem unknown_action_times_out
  (style : string -> string) (tsc scs bcs : Z) (recipe : parser.Recipe)
  (step : parser.Step) (rest : list parser.Step) (n : Z) (result : RecipeResult.t) :
  (forall action, In action oauth2Actions -> ~ In action browserActions)
  /\ (forall action, In action browserActions -> ~ In action oauth2Actions)
  /\ (~ In (parser.Action step) browserActions ->
      forall (world : Z -> Browser.Env) b,
        let b' := Browser.set_newFilesCount b
                    (Browser.countAtTimeout (world n) (Browser.newFilesCount b)) in
        Browser.runSteps style tsc scs bcs recipe world (step :: rest) n result b
        = (Return (Browser.onTimeout style recipe n step b') b',
           [Send (Browser.title scs recipe n step); Launch n (parser.Action step)]
             ++ Browser.purge (world n) b'))
  /\ (~ In (parser.Action step) oauth2Actions ->
      forall (world : Z -> OAuth2.Env) b,
        let b' := OAuth2.set_newFilesCount b
                    (OAuth2.countAtTimeout (world n) (OAuth2.newFilesCount b)) in
        OAuth2.runSteps style tsc scs bcs recipe world (step :: rest) n result b
        = (Return (OAuth2.onTimeout style recipe n step b') b',
           [Send (OAuth2.title scs recipe n step); Launch n (parser.Action step)])).
Proof.
  split; [| split; [| split]].
  - unfold oauth2Actions, browserActions. cbn [In].
    intros action Hin Hother.
    repeat (destruct Hin as [<- | Hin];
            [repeat (destruct Hother as [Heq | Hother]; [discriminate Heq |]);
             exact Hother |]).
    exact Hin.
  - unfold oauth2Actions, browserActions. cbn [In].
    intros action Hin Hother.
    repeat (destruct Hother as [<- | Hother];
            [repeat (destruct Hin as [Heq | Hin]; [discriminate Heq |]);
             exact Hin |]).
    exact Hother.
  - intros Hunknown world b b'.
    assert (Hsel : Browser.selectResult (world n) b step = TimedOut b').
    { apply browser_timer_first. right.
      now rewrite (browser_unknown_blocks (world n) b step Hunknown). }
    rewrite browser_runSteps_cons.
    now rewrite (browser_runStep_timeout style tsc scs bcs recipe world n b step b'
                   Hsel).
  - intros Hunknown world b b'.
    assert (Hsel : OAuth2.selectResult (world n) b recipe step = TimedOut b').
    { apply oauth2_timer_first. right.
      now rewrite (oauth2_unknown_blocks (world n) b recipe step Hunknown). }
    rewrite oauth2_runSteps_cons.
    now rewrite (oauth2_runStep_timeout style tsc scs bcs recipe world n b step b'
                   Hsel).
Qed.

Lemma unknown_action_times_out_witness :
  let world := fun _ : Z => Fixtures.browserEnv Fixtures.runsFine 2 Go.Second in
  let setup := Fixtures.stepOf "oauth2-setup" "Set up" "" in
  let click := Fixtures.stepOf "click" "Open the invoice list" "" in
  let recipe := Fixtures.recipeOf [setup; click] in
  ~ In (parser.Action setup) browserActions
  /\ option_map RecipeResult.StatusText
       (returned (fst (Browser.runSteps Fixtures.bold 2 2 0 recipe world
                         [setup; click] 1 RecipeResult.zero Fixtures.browserDriver)))
     = Some "acme aborted with timeout.".
Proof.
  intros world setup click recipe.
  destruct (unknown_action_times_out Fixtures.bold 2 2 0 recipe setup [click] 1
              RecipeResult.zero) as (Hforeign & _ & Hbrowser & _).
  assert (Hunknown : ~ In (parser.Action setup) browserActions).
  { apply Hforeign. unfold oauth2Actions. cbn [In]. now left. }
  split; [exact Hunknown |].
  now rewrite (Hbrowser Hunknown world Fixtures.browserDriver).
Defined.

(** ** The move step *)

Lemma copies_app e1 e2 : copies (e1 ++ e2) = copies e1 ++ copies e2.
Proof. apply flat_map_app. Qed.

(** The walk of [stepMove]: the copies made are those of the entries to
    move among a prefix of the entries, in order, and the counter has
    grown by their number. *)
Lemma moveFiles_counts env b step entries :
  forall count,
  exists k,
    (k <= length entries)%nat
    /\ copies (snd (Browser.moveFiles env b step entries count))
       = map (moveOf env b) (List.filter (moved env b step) (firstn k entries))
    /\ snd (fst (Browser.moveFiles env b step entries count))
       = count + Z.of_nat (length (copies (snd (Browser.moveFiles env b step
                                                   entries count))))
    /\ (fst (fst (Browser.moveFiles env b step entries count)) = None ->
        k = length entries).
Proof.
  induction entries as [| d rest IH]; intros count.
  - exists 0%nat. cbn. repeat split; lia.
  - cbn [Browser.moveFiles].
    destruct (Browser.walkErr d) as [e |].
    { exists 0%nat. cbn. repeat split; try lia. discriminate. }
    pose proof (eq_refl (moved env b step d)) as Hmoved. unfold moved at 2 in Hmoved.
    destruct (Browser.MatchString env (parser.Value step) (Browser.Name d))
      as [[|] [e |]].
    + exists 0%nat. cbn. repeat split; try lia. discriminate.
    + destruct (Browser.FileExists env
                  (Browser.Join env (Browser.downloadsDirectory b) (Browser.Name d))).
      * destruct (IH count) as (k & Hk & Hcopies & Hcount & Hdone).
        exists (S k). cbn [firstn List.filter length]. rewrite Hmoved.
        repeat split; [lia | exact Hcopies | exact Hcount |].
        intros Hnone. now rewrite (Hdone Hnone).
      * destruct (Browser.copy env _ _) as [e |].
        -- exists 1%nat. cbn [firstn List.filter length fst snd]. rewrite Hmoved.
           cbn. repeat split; try lia. discriminate.
        -- destruct (IH (count + 1)) as (k & Hk & Hcopies & Hcount & Hdone).
           destruct (Browser.moveFiles env b step rest (count + 1))
             as [[err count'] effects].
           cbn [fst snd] in *.
           exists (S k). cbn [firstn List.filter length]. rewrite Hmoved.
           cbn [negb map copies flat_map app].
           change (flat_map _ effects) with (copies effects).
           repeat split; [lia | now rewrite Hcopies | |].
           ++ rewrite Hcount. cbn [length]. lia.
           ++ intros Hnone. now rewrite (Hdone Hnone).
    + exists 0%nat. cbn. repeat split; try lia. discriminate.
    + destruct (IH count) as (k & Hk & Hcopies & Hcount & Hdone).
      exists (S k). cbn [firstn List.filter length]. rewrite Hmoved.
      repeat split; [lia | exact Hcopies | exact Hcount |].
      intros Hnone. now rewrite (Hdone Hnone).
Qed.

Lemma moveFiles_any_counter env b step entries k :
  forall count,
    Browser.moveFiles env (Browser.set_newFilesCount b k) step entries count
    = Browser.moveFiles env b step entries count.
Proof.
  induction entries as [| d rest IH]; intros count; [reflexivity |].
  cbn [Browser.moveFiles Browser.set_newFilesCount Browser.downloadsDirectory
       Browser.documentsDirectory].
  now rewrite !IH.
Qed.

(** X8. The move step counts afresh: whatever the counter held before,
    afterwards it is the number of copies the step started, the failed one
    included when a copy fails.  The files copied are exactly the entries
    of a prefix of the walk whose name matches the pattern and which the
    archive does not have yet, each copied from the staging directory to
    the documents directory under its own name; when the step succeeds the
    prefix is the whole walk. *)
Theorem move_counts_the_copies_it_starts
  (env : Browser.Env) (b : Browser.BrowserDriver) (step : parser.Step) (k : Z) :
  let entries := Browser.WalkDir env (Browser.downloadsDirectory b) in
  let handled := Browser.stepMove env b step in
  let counter := Browser.newFilesCount (snd (fst handled)) in
  counter = Z.of_nat (length (copies (snd handled)))
  /\ 0 <= counter <= Z.of_nat (length entries)
  /\ Browser.newFilesCount
       (snd (fst (Browser.stepMove env (Browser.set_newFilesCount b k) step)))
     = counter
  /\ (exists visited,
         (visited <= length entries)%nat
         /\ copies (snd handled)
            = map (moveOf env b)
                  (List.filter (moved env b step) (firstn visited entries))
         /\ (fst (fst handled) = Returns successResult ->
             visited = length entries)).
Proof.
  intros entries handled counter.
  destruct (moveFiles_counts env b step entries 0)
    as (visited & Hvisited & Hcopies & Hcount & Hdone).
  assert (Hshape : handled
                   = (match fst (fst (Browser.moveFiles env b step entries 0)) with
                      | Some e => Returns (errorResult e)
                      | None => Returns successResult
                      end,
                      Browser.set_newFilesCount b
                        (snd (fst (Browser.moveFiles env b step entries 0))),
                      snd (Browser.moveFiles env b step entries 0))).
  { unfold handled, Browser.stepMove. fold entries.
    destruct (Browser.moveFiles env b step entries 0) as [[[e |] c] eff];
      reflexivity. }
  assert (Hcounter : counter = Z.of_nat (length (copies (snd handled)))).
  { unfold counter. rewrite Hshape. cbn [fst snd Browser.newFilesCount
                                          Browser.set_newFilesCount].
    rewrite Hcount. lia. }
  split; [exact Hcounter |]. split; [| split].
  - rewrite Hcounter, Hshape. cbn [snd]. rewrite Hcopies, List.length_map.
    pose proof (filter_length_le (moved env b step) (firstn visited entries)).
    rewrite length_firstn in *. lia.
  - unfold counter, handled, Browser.stepMove.
    cbn [Browser.downloadsDirectory Browser.set_newFilesCount].
    rewrite moveFiles_any_counter. fold entries.
    destruct (Browser.moveFiles env b step entries 0) as [[[e |] c] eff];
      reflexivity.
  - exists visited. split; [exact Hvisited |]. rewrite Hshape. cbn [fst snd].
    split; [exact Hcopies |].
    destruct (fst (fst (Browser.moveFiles env b step entries 0))) as [e |];
      [intros Heq; inversion Heq | intros _; now apply Hdone].
Qed.
Lemma move_counts_the_copies_it_starts_witness :
  let step := Fixtures.stepOf "move" "Archive the invoices" "invoice.*" in
  let handled := Browser.stepMove Staging.env Staging.driver step in
  fst (fst handled) = Returns successResult
  /\ Browser.newFilesCount (snd (fst handled)) = 1
  /\ copies (snd handled)
     = [("/home/user/buchhalter/_tmp/acme/invoice-1.pdf",
         "/home/user/buchhalter/acme/invoice-1.pdf")].
Proof.
  intros step handled.
  assert (Hok : fst (fst handled) = Returns successResult) by reflexivity.
  destruct (move_counts_the_copies_it_starts Staging.env Staging.driver step 7)
    as (Hcounter & _ & _ & visited & _ & Hcopies & Hall).
  fold handled in Hcounter, Hcopies, Hall.
  split; [exact Hok |]. split.
  - rewrite Hcounter, Hcopies, (Hall Hok), firstn_all. reflexivity.
  - rewrite Hcopies, (Hall Hok), firstn_all. reflexivity.
Defined.

(** ** The transform step *)

Lemma unzipAll_all_fine env b zipFiles :
  (forall s, In s zipFiles ->
             Browser.unzip env s (Browser.downloadsDirectory b) = None) ->
  Browser.unzipAll env b zipFiles
  = (None, map (fun s => UnzipFile s (Browser.downloadsDirectory b)) zipFiles).
Proof.
  induction zipFiles as [| s rest IH]; intros Hfine; [reflexivity |].
  cbn [Browser.unzipAll map].
  rewrite (Hfine s (or_introl eq_refl)).
  rewrite IH by (intros s' Hs'; apply Hfine; now right).
  reflexivity.
Qed.

Lemma unzipAll_first_failure env b before s after err :
  (forall s', In s' before ->
              Browser.unzip env s' (Browser.downloadsDirectory b) = None) ->
  Browser.unzip env s (Browser.downloadsDirectory b) = Some err ->
  Browser.unzipAll env b (before ++ s :: after)
  = (Some err,
     map (fun s => UnzipFile s (Browser.downloadsDirectory b)) (before ++ [s])).
Proof.
  intros Hfine Hfails.
  induction before as [| s' rest IH]; cbn [app Browser.unzipAll map].
  - now rewrite Hfails.
  - rewrite (Hfine s' (or_introl eq_refl)).
    rewrite IH by (intros k Hk; apply Hfine; now right).
    reflexivity.
Qed.

(** X9. A transform step does something only when its value is "unzip":
    then it unpacks the zip files found in the staging directory into that
    same directory, in the order found.  When every one unpacks the step
    succeeds; the first one that does not ends the step with its error and
    the files after it are left packed.  An error of the search itself is
    only printed: the step goes on with the files the search returned.
    The driver is never changed. *)
Theorem transform_unzips_until_first_failure
  (env : Browser.Env) (b : Browser.BrowserDriver) (step : parser.Step) :
  let dir := Browser.downloadsDirectory b in
  let zipFiles := fst (Browser.FindFiles env dir ".zip") in
  let notice := printed (snd (Browser.FindFiles env dir ".zip")) in
  let unpack := fun s => UnzipFile s dir in
  (parser.Value step <> "unzip" ->
   Browser.stepTransform env b step = (Returns successResult, b, []))
  /\ (parser.Value step = "unzip" ->
      (forall s, In s zipFiles -> Browser.unzip env s dir = None) ->
      Browser.stepTransform env b step
      = (Returns successResult, b, notice ++ map unpack zipFiles))
  /\ (forall before s after err,
         parser.Value step = "unzip" ->
         zipFiles = before ++ s :: after ->
         (forall s', In s' before -> Browser.unzip env s' dir = None) ->
         Browser.unzip env s dir = Some err ->
         Browser.stepTransform env b step
         = (Returns (errorResult err), b, notice ++ map unpack (before ++ [s]))).
Proof.
  intros dir zipFiles notice unpack. unfold Browser.stepTransform.
  fold dir. subst zipFiles notice.
  destruct (Browser.FindFiles env dir ".zip") as [zipFiles err]. cbn [fst snd].
  split; [| split].
  - intros Hother. apply String.eqb_neq in Hother. now rewrite Hother.
  - intros -> Hfine. rewrite String.eqb_refl.
    unfold dir in *. now rewrite (unzipAll_all_fine env b zipFiles Hfine).
  - intros before s after e -> -> Hfine Hfails. rewrite String.eqb_refl.
    unfold dir in *.
    now rewrite (unzipAll_first_failure env b before s after e Hfine Hfails).
Qed.

Lemma transform_unzips_until_first_failure_witness :
  let step := Fixtures.stepOf "transform" "Unpack the downloads" "unzip" in
  let dir := "/home/user/buchhalter/_tmp/acme" in
  Browser.stepTransform Staging.env Staging.driver step
  = (Returns (errorResult "zip: not a valid zip file"), Staging.driver,
     [Println "lstat: permission denied";
      UnzipFile (dir +:+ "/a.zip") dir;
      UnzipFile (dir +:+ "/broken.zip") dir]).
Proof.
  intros step dir.
  destruct (transform_unzips_until_first_failure Staging.env Staging.driver step)
    as (_ & _ & Hfails).
  apply (Hfails [dir +:+ "/a.zip"] (dir +:+ "/broken.zip") [dir +:+ "/c.zip"]
           "zip: not a valid zip file").
  - reflexivity.
  - reflexivity.
  - intros s' [<- | []]. reflexivity.
  - reflexivity.
Defined.

(** ** How often a step calls the browser *)

Lemma browserRuns_app e1 e2 :
  browserRuns (e1 ++ e2) = browserRuns e1 ++ browserRuns e2.
Proof. apply flat_map_app. Qed.

Lemma clickNodes_runs env step nodes :
  forall x,
    0 <= x ->
    (length (browserRuns (snd (Browser.clickNodes env step nodes x)))
     <= Z.to_nat (2 - x))%nat.
Proof.
  induction nodes as [| n rest IH]; intros x Hx; cbn [Browser.clickNodes].
  - cbn. lia.
  - destruct (2 <=? x) eqn:Hcap; [cbn; lia |].
    apply Z.leb_gt in Hcap.
    destruct (Browser.Run env (Browser.triggerDownload step n)).
    + cbn. lia.
    + specialize (IH (x + 1) ltac:(lia)).
      destruct (Browser.clickNodes env step rest (x + 1)) as [err effects].
      cbn [snd] in *. cbn [browserRuns flat_map app length].
      change (flat_map _ effects) with (browserRuns effects). lia.
Qed.

Lemma moveFiles_runs env b step entries :
  forall count,
    browserRuns (snd (Browser.moveFiles env b step entries count)) = [].
Proof.
  induction entries as [| d rest IH]; intros count; [reflexivity |].
  cbn [Browser.moveFiles].
  destruct (Browser.walkErr d); [reflexivity |].
  destruct (Browser.MatchString env _ _) as [[|] [e |]]; try reflexivity;
    try apply IH.
  destruct (Browser.FileExists env _); [apply IH |].
  destruct (Browser.copy env _ _); [reflexivity |].
  specialize (IH (count + 1)).
  destruct (Browser.moveFiles env b step rest (count + 1)) as [[err c] effects].
  exact IH.
Qed.

Lemma unzipAll_runs env b zipFiles :
  browserRuns (snd (Browser.unzipAll env b zipFiles)) = [].
Proof.
  induction zipFiles as [| s rest IH]; [reflexivity |].
  cbn [Browser.unzipAll].
  destruct (Browser.unzip env s _); [reflexivity |].
  destruct (Browser.unzipAll env b rest) as [err effects]. exact IH.
Qed.

Lemma runOnce_runs env b actions :
  browserRuns (snd (Browser.runOnce env b actions)) = [actions].
Proof. unfold Browser.runOnce. now destruct (Browser.Run env actions). Qed.

(** X10. How often a step calls the browser.  The handlers of open,
    removeElement, click, type, sleep, waitFor and runScript make exactly
    one call of chromedp.Run.  A downloadAll step makes at least one and at
    most three, however many nodes its selector matches.  The handlers of
    transform, move and runScriptDownloadUrls, and a step of an unknown
    kind, make none: runScriptDownloadUrls in particular never evaluates
    its script and never navigates. *)
Theorem browser_calls_per_step
  (env : Browser.Env) (b : Browser.BrowserDriver) (step : parser.Step) :
  let calls := length (browserRuns (snd (Browser.handle env b step))) in
  let action := parser.Action step in
  (calls <= 3)%nat
  /\ (In action oneCallActions -> calls = 1%nat)
  /\ (action = "downloadAll" -> (1 <= calls)%nat)
  /\ (~ In action ("downloadAll" :: oneCallActions) -> calls = 0%nat).
Proof.
  intros calls action.
  assert (Hdl : (1 <= length (browserRuns (snd (Browser.stepDownloadAll env b step)))
                 <= 3)%nat).
  { unfold Browser.stepDownloadAll.
    destruct (Browser.Run env _); [cbn; lia |].
    pose proof (clickNodes_runs env step
                  (Browser.nodesOf env (parser.Selector step)) 0 ltac:(lia)) as Hle.
    unfold browserRuns in *.
    destruct (Browser.clickNodes env step _ 0) as [[err |] clicks];
      cbn [snd] in *.
    - cbv zeta. destruct (_ <? _); cbn [snd]; rewrite flat_map_app;
        cbn [flat_map app length]; lia.
    - cbv zeta. destruct (_ <? _); [| destruct (_ =? _)];
        cbn [snd]; rewrite !flat_map_app;
        cbn [flat_map app length]; rewrite ?length_app;
        cbn [length]; lia. }
  assert (Htr : browserRuns (snd (Browser.stepTransform env b step)) = []).
  { unfold Browser.stepTransform. destruct (String.eqb _ _); [| reflexivity].
    destruct (Browser.FindFiles env _ _) as [zipFiles err].
    pose proof (unzipAll_runs env b zipFiles) as Hnone.
    destruct (Browser.unzipAll env b zipFiles) as [[e |] effects];
      cbn [snd] in *; rewrite browserRuns_app, Hnone; now destruct err. }
  assert (Hmv : browserRuns (snd (Browser.stepMove env b step)) = []).
  { unfold Browser.stepMove.
    pose proof (moveFiles_runs env b step
                  (Browser.WalkDir env (Browser.downloadsDirectory b)) 0) as Hnone.
    destruct (Browser.moveFiles env b step _ 0) as [[[e |] c] effects];
      exact Hnone. }
  subst calls action. unfold Browser.handle, oneCallActions. cbv zeta.
  destruct (String.eqb_spec (parser.Action step) "open") as [-> | Hopen].
  { unfold Browser.stepOpen. rewrite runOnce_runs. cbn.
    repeat split; try lia; try discriminate. intros H; elim H; tauto. }
  destruct (String.eqb_spec (parser.Action step) "removeElement") as [-> | Hrm].
  { unfold Browser.stepRemoveElement. rewrite runOnce_runs. cbn.
    repeat split; try lia; try discriminate. intros H; elim H; tauto. }
  destruct (String.eqb_spec (parser.Action step) "click") as [-> | Hclick].
  { unfold Browser.stepClick. rewrite runOnce_runs. cbn.
    repeat split; try lia; try discriminate. intros H; elim H; tauto. }
  destruct (String.eqb_spec (parser.Action step) "type") as [-> | Htype].
  { unfold Browser.stepType. rewrite runOnce_runs. cbn.
    repeat split; try lia; try discriminate. intros H; elim H; tauto. }
  destruct (String.eqb_spec (parser.Action step) "sleep") as [-> | Hsleep].
  { unfold Browser.stepSleep. destruct (Go.Atoi _) as [seconds err].
    rewrite runOnce_runs. cbn.
    repeat split; try lia; try discriminate. intros H; elim H; tauto. }
  destruct (String.eqb_spec (parser.Action step) "waitFor") as [-> | Hwait].
  { unfold Browser.stepWaitFor. rewrite runOnce_runs. cbn.
    repeat split; try lia; try discriminate. intros H; elim H; tauto. }
  destruct (String.eqb_spec (parser.Action step) "downloadAll") as [-> | Hdown].
  { repeat split; try lia.
    - cbn. intros H. repeat destruct H as [H | H]; try discriminate; contradiction.
    - intros H; elim H; now left. }
  assert (Hone : In (parser.Action step)
                    ["open"; "removeElement"; "click"; "type"; "sleep"; "waitFor";
                     "runScript"] -> parser.Action step = "runScript").
  { cbn. intros H. repeat destruct H as [H | H]; try congruence; contradiction. }
  destruct (String.eqb_spec (parser.Action step) "transform") as [Heq | Htrans].
  { rewrite Htr. cbn [length]. repeat split; try lia; try congruence.
    intros H. apply Hone in H. congruence. }
  destruct (String.eqb_spec (parser.Action step) "move") as [Heq | Hmove].
  { rewrite Hmv. cbn [length]. repeat split; try lia; try congruence.
    intros H. apply Hone in H. congruence. }
  destruct (String.eqb_spec (parser.Action step) "runScript") as [Heq | Hscript].
  { unfold Browser.stepRunScript. rewrite runOnce_runs. cbn [length].
    repeat split; try lia; try congruence.
    intros H; elim H. rewrite Heq. cbn. tauto. }
  destruct (String.eqb_spec (parser.Action step) "runScriptDownloadUrls")
    as [Heq | Hurls].
  { cbn. repeat split; try lia; try congruence.
    intros H. apply Hone in H. congruence. }
  cbn [snd browserRuns flat_map length].
  repeat split; try lia; try congruence.
  intros H. apply Hone in H. congruence.
Qed.

Lemma browser_calls_per_step_witness :
  let calls action :=
    length (browserRuns
              (snd (Browser.handle Staging.env Staging.driver
                      (Fixtures.stepOf action "A step" "1")))) in
  calls "type" = 1%nat
  /\ calls "downloadAll" = 3%nat
  /\ calls "runScriptDownloadUrls" = 0%nat.
Proof.
  intros calls.
  destruct (browser_calls_per_step Staging.env Staging.driver
              (Fixtures.stepOf "type" "A step" "1")) as (_ & Hone & _ & _).
  destruct (browser_calls_per_step Staging.env Staging.driver
              (Fixtures.stepOf "downloadAll" "A step" "1")) as (Hmost & _ & Hleast & _).
  destruct (browser_calls_per_step Staging.env Staging.driver
              (Fixtures.stepOf "runScriptDownloadUrls" "A step" "1"))
    as (_ & _ & _ & Hnone).
  split; [| split].
  - apply Hone. cbn. tauto.
  - reflexivity.
  - apply Hnone. cbn.
    intros H. repeat destruct H as [H | H]; try discriminate; contradiction.
Defined.

(** ** One document request *)

Lemma substring_whole s : String.substring 0 (String.length s) s = s.
Proof. induction s as [| c rest IH]; cbn; [reflexivity | now rewrite IH]. Qed.

(** X11. One document request.  [doRequest] reports a download as
    successful exactly when the request could be built, the reply has
    status 200, the target file could be created, the body was read to
    its end and all of it was written; then the file holds the body and no
    error is returned.  The target file is created anew exactly when the
    reply has status 200 and the creation succeeds, also when the download
    then fails: a write that fails leaves the part of the body written
    before it in the file, a body whose read fails leaves what was read
    before or a part of that, and in both cases the error is returned.  A
    failure without an error is a reply with another status, at which no
    file is touched and the caller has nothing to print.  It sends at
    most one request, with the given method and URL and an empty body. *)
Theorem doRequest_succeeds_only_on_200
  (env : OAuth2.Env) (b : OAuth2.ClientAuthBrowserDriver)
  (url method : string) (headers : gmap string string) (filename : string) :
  let req :=
    {| http.Method := method; http.Url := url;
       http.Header := OAuth2.authorizedHeader b headers; http.Payload := "" |} in
  let done := OAuth2.doRequest env b url method headers filename in
  let ok := fst (fst done) in
  let err := snd (fst done) in
  (ok = true <->
   OAuth2.NewRequest env method url = None
   /\ OAuth2.create env filename = None
   /\ exists content,
        OAuth2.Do env req = http.Response 200 (inr content)
        /\ OAuth2.writeError env filename content = None)
  /\ (ok = true <-> err = None /\ created (snd done) = [filename])
  /\ (forall content,
         ok = true -> OAuth2.Do env req = http.Response 200 (inr content) ->
         snd done = [HttpDo req; CreateFile filename; WriteFile filename content])
  /\ (created (snd done) = [filename] <->
      OAuth2.NewRequest env method url = None
      /\ OAuth2.create env filename = None
      /\ exists body, OAuth2.Do env req = http.Response 200 body)
  /\ (created (snd done) <> [filename] ->
      created (snd done) = [] /\ written (snd done) = [])
  /\ (forall content n failure,
         OAuth2.NewRequest env method url = None ->
         OAuth2.create env filename = None ->
         OAuth2.Do env req = http.Response 200 (inr content) ->
         OAuth2.writeError env filename content = Some (n, failure) ->
         done = (false, Some failure,
                 [HttpDo req; CreateFile filename;
                  WriteFile filename (String.substring 0 n content)]))
  /\ (forall failure,
         OAuth2.NewRequest env method url = None ->
         OAuth2.create env filename = None ->
         OAuth2.Do env req = http.Response 200 (inl failure) ->
         ok = false
         /\ (exists n e,
                err = Some e
                /\ snd done
                   = [HttpDo req; CreateFile filename;
                      WriteFile filename
                        (String.substring 0 n (OAuth2.readBefore env req))])
         /\ (OAuth2.writeError env filename (OAuth2.readBefore env req) = None ->
             done = (false, Some failure,
                     [HttpDo req; CreateFile filename;
                      WriteFile filename (OAuth2.readBefore env req)])))
  /\ (forall code body,
         OAuth2.NewRequest env method url = None ->
         OAuth2.Do env req = http.Response code body -> code <> 200 ->
         done = (false, None, [HttpDo req]))
  /\ (ok = false -> err = None ->
      exists code body,
        OAuth2.Do env req = http.Response code body /\ code <> 200)
  /\ (requests (snd done) = [] \/ requests (snd done) = [req]).
Proof.
  intros req done ok err. subst ok err done. unfold OAuth2.doRequest. fold req.
  destruct (OAuth2.NewRequest env method url) as [e |].
  { cbn [fst snd created written requests flat_map app]. repeat apply conj;
      try solve [intros; first [discriminate | congruence | tauto
                                | (left; reflexivity)]];
      try solve [intros (H1 & _); discriminate]. }
  destruct (OAuth2.Do env req) as [e | code body].
  { cbn [fst snd created written requests flat_map app]. repeat apply conj;
      try solve [intros; first [discriminate | congruence | tauto
                                | (right; reflexivity)]];
      try solve [intros (H & _); discriminate];
      try solve [intros (_ & _ & x & H & _); discriminate];
      try solve [intros (_ & _ & x & H); discriminate]. }
  destruct (Z.eqb_spec code 200) as [-> | Hcode].
  2: { cbn [fst snd created written requests flat_map app]. repeat apply conj;
         try solve [intros; first [discriminate | congruence | tauto
                                   | (right; reflexivity)]];
         try solve [intros (_ & H); discriminate];
         try solve [intros (_ & _ & x & H & _); congruence];
         try solve [intros (_ & _ & x & H); congruence].
       intros _ _. now exists code, body. }
  destruct (OAuth2.create env filename) as [e |].
  { cbn [fst snd created written requests flat_map app]. repeat apply conj;
      try solve [intros; first [discriminate | congruence | tauto
                                | (right; reflexivity)]];
      try solve [intros (H & _); discriminate];
      try solve [intros (_ & H & _); discriminate]. }
  unfold OAuth2.ioCopy.
  destruct body as [rerr | content].
  - destruct (OAuth2.writeError env filename (OAuth2.readBefore env req))
      as [[n werr] |];
      cbn [fst snd created written requests flat_map app]; repeat apply conj;
      try solve [intros; first [discriminate | congruence | tauto
                                | (right; reflexivity)]];
      try solve [intros (_ & _ & x & H & _); congruence];
      try solve [intros (H & _); discriminate];
      try solve [intros _; repeat apply conj; try reflexivity; now eexists].
    + intros failure _ _ _. repeat apply conj; try reflexivity; try discriminate.
      now exists n, werr.
    + intros failure _ _ Heq. injection Heq as <-.
      repeat apply conj; try reflexivity.
      exists (String.length (OAuth2.readBefore env req)), rerr.
      split; [reflexivity |]. now rewrite substring_whole.
  - destruct (OAuth2.writeError env filename content) as [[n werr] |] eqn:Hwrite;
      cbn [fst snd created written requests flat_map app]; repeat apply conj;
      try solve [intros; first [discriminate | congruence | tauto
                                | (right; reflexivity)]];
      try solve [intros (H & _); discriminate];
      try solve [intros _; repeat apply conj; try reflexivity; now eexists].
    intros (_ & _ & x & Heq & Hnone). injection Heq as <-. congruence.
Qed.

Lemma doRequest_succeeds_only_on_200_witness :
  let target := "/home/user/buchhalter/_tmp/acme/invoice-17.pdf" in
  let url := "https://portal.example/doc/17" in
  let req :=
    {| http.Method := "GET"; http.Url := url;
       http.Header := OAuth2.authorizedHeader Fixtures.oauth2Driver ∅;
       http.Payload := "" |} in
  OAuth2.doRequest Portal.env Fixtures.oauth2Driver url "GET" ∅ target
  = (true, None, [HttpDo req; CreateFile target; WriteFile target "{}"])
  /\ OAuth2.doRequest Portal.cramped Fixtures.oauth2Driver url "GET" ∅ target
     = (false, Some "no space left on device",
        [HttpDo req; CreateFile target; WriteFile target "{"]).
Proof.
  intros target url req. split.
  - destruct (doRequest_succeeds_only_on_200 Portal.env Fixtures.oauth2Driver
                url "GET" ∅ target)
      as (_ & Herr & Hwritten & _).
    assert (Hok : fst (fst (OAuth2.doRequest Portal.env Fixtures.oauth2Driver
                              url "GET" ∅ target))
                  = true) by reflexivity.
    destruct (proj1 Herr Hok) as [Hnone _]. specialize (Hwritten "{}" Hok eq_refl).
    destruct (OAuth2.doRequest Portal.env Fixtures.oauth2Driver url "GET" ∅ target)
      as [[ok err] effects].
    cbn [fst snd] in *. now subst.
  - destruct (doRequest_succeeds_only_on_200 Portal.cramped Fixtures.oauth2Driver
                url "GET" ∅ target)
      as (_ & _ & _ & _ & _ & Hfull & _).
    exact (Hfull "{}" 1%nat "no space left on device" eq_refl eq_refl eq_refl
             eq_refl).
Defined.

(** ** The documents of an items step *)

Lemma doRequest_effects env b url method headers f :
  let done := OAuth2.doRequest env b url method headers f in
  copies (snd done) = []
  /\ added (snd done) = []
  /\ (length (written (snd done)) <= length (requests (snd done)))%nat
  /\ (fst (fst done) = true -> written (snd done) = [f])
  /\ (length (requests (snd done)) <= 1)%nat
  /\ (fst (fst done) = true -> length (requests (snd done)) = 1%nat).
Proof.
  cbv zeta. unfold OAuth2.doRequest.
  destruct (OAuth2.NewRequest env method url);
    [| destruct (OAuth2.Do env _) as [e | code body];
       [| destruct (code =? 200);
          [destruct (OAuth2.create env f);
           [| destruct (OAuth2.ioCopy env _ f body) as [copied [e |]]] |]]];
    cbn; repeat apply conj; try reflexivity; try lia; try discriminate.
Qed.

Lemma copies_printed (err : option string) :
  copies (match err with Some e => [Println e] | None => [] end) = [].
Proof. now destruct err. Qed.

Lemma written_app e1 e2 : written (e1 ++ e2) = written e1 ++ written e2.
Proof. apply flat_map_app. Qed.

Lemma requests_app e1 e2 : requests (e1 ++ e2) = requests e1 ++ requests e2.
Proof. apply flat_map_app. Qed.

Lemma added_app e1 e2 : added (e1 ++ e2) = added e1 ++ added e2.
Proof. apply flat_map_app. Qed.

(** What the loop over the identifiers keeps: the counter has grown by
    the number of copies started; every copy is of a file written before
    it and every file handed to the archive was copied; one request is
    sent per identifier looked at, and when the loop runs to its end every
    identifier was requested and written. *)
Lemma fetchDocuments_bookkeeping env b step filenames ids :
  forall n count,
    let loop := OAuth2.fetchDocuments env b step filenames ids n count in
    let effects := snd loop in
    snd (fst loop) = count + Z.of_nat (length (copies effects))
    /\ incl (map fst (copies effects)) (written effects)
    /\ incl (added effects) (map snd (copies effects))
    /\ (length (copies effects) <= length (written effects))%nat
    /\ (length (written effects) <= length (requests effects))%nat
    /\ (length (requests effects) <= length ids)%nat
    /\ (fst (fst loop) = None ->
        length (requests effects) = length ids
        /\ length (written effects) = length ids).
Proof.
  induction ids as [| id rest IH]; intros n count; cbv zeta;
    cbn [OAuth2.fetchDocuments].
  { cbn. repeat apply conj; try lia; try apply incl_nil_l; auto. }
  destruct (if 0 <? Z.of_nat (length filenames)
            then match filenames !! Z.to_nat n with
                 | Some name =>
                     Some (OAuth2.Join env [OAuth2.downloadsDirectory b; name], name)
                 | None => None
                 end
            else Some (OAuth2.Join env [OAuth2.downloadsDirectory b; id; ".pdf"],
                       OAuth2.Join env [id; ".pdf"])) as [[f filename] |].
  2: { cbn. repeat apply conj; try lia; try apply incl_nil_l; discriminate. }
  pose proof (doRequest_effects env b
                (Go.ReplaceAll (parser.DocumentUrl step) "{{ id }}" id)
                (parser.DocumentRequestMethod step)
                (parser.DocumentRequestHeaders step) f)
    as (Hcopies & Hadded & Hfewer & Hwritten & Hatmost & Hone).
  destruct (OAuth2.doRequest env b _ _ _ f) as [[ok err] requested].
  cbn [fst snd] in Hcopies, Hadded, Hfewer, Hwritten, Hatmost, Hone.
  set (e1 := requested ++ match err with Some e => [Println e] | None => [] end).
  assert (Hc1 : copies e1 = []).
  { unfold e1. rewrite copies_app, Hcopies. now destruct err. }
  assert (Ha1 : added e1 = []).
  { unfold e1. rewrite added_app, Hadded. now destruct err. }
  assert (Hw0 : written e1 = written requested).
  { unfold e1. rewrite written_app. destruct err; cbn; now rewrite app_nil_r. }
  assert (Hr1 : requests e1 = requests requested).
  { unfold e1. rewrite requests_app. destruct err; cbn; now rewrite app_nil_r. }
  destruct ok; cbn [negb].
  2: { cbn [fst snd]. rewrite Hc1, Ha1, Hw0, Hr1. cbn [length map].
       repeat apply conj; try lia; try apply incl_nil_l; try discriminate. }
  assert (Hw1 : written e1 = [f]) by (rewrite Hw0; now apply Hwritten).
  specialize (Hone eq_refl).
  destruct (OAuth2.FileExists env f).
  { specialize (IH (n + 1) count). cbv zeta in IH.
    destruct (OAuth2.fetchDocuments env b step filenames rest (n + 1) count)
      as [[ended count'] later].
    cbn [fst snd] in *.
    destruct IH as (Hcount & Hsrc & Hdst & Hcw & Hwr & Hri & Hall).
    rewrite copies_app, written_app, requests_app, added_app, Hc1, Ha1, Hw1, Hr1.
    cbn [app]. rewrite !length_app, Hone. cbn [length].
    repeat apply conj; try lia; try assumption.
    - now apply incl_tl.
    - intros Hnone. destruct (Hall Hnone). lia. }
  destruct (OAuth2.copy env f _) as [e |].
  { cbn [fst snd].
    rewrite copies_app, written_app, requests_app, added_app, Hc1, Ha1, Hw1, Hr1.
    cbn. rewrite !app_nil_r, Hone.
    repeat apply conj; try lia; try apply incl_nil_l; try discriminate.
    apply incl_refl. }
  destruct (OAuth2.addFile env _) as [e |].
  { cbn [fst snd].
    rewrite copies_app, written_app, requests_app, added_app, Hc1, Ha1, Hw1, Hr1.
    cbn. rewrite !app_nil_r, Hone.
    repeat apply conj; try lia; try discriminate; apply incl_refl. }
  specialize (IH (n + 1) (count + 1)). cbv zeta in IH.
  destruct (OAuth2.fetchDocuments env b step filenames rest (n + 1) (count + 1))
    as [[ended count'] later].
  cbn [fst snd] in *.
  destruct IH as (Hcount & Hsrc & Hdst & Hcw & Hwr & Hri & Hall).
  rewrite !copies_app, !written_app, !requests_app, !added_app, Hc1, Ha1, Hw1, Hr1.
  cbn [app copies written requests added flat_map map length].
  fold (copies later) (written later) (requests later) (added later).
  rewrite !length_app, Hone. cbn [length].
  repeat apply conj; try lia.
  - apply incl_cons; [now left | now apply incl_tl].
  - apply incl_cons; [now left | now apply incl_tl].
  - intros Hnone. destruct (Hall Hnone). lia.
Qed.

Lemma fetchDocuments_endings env b step filenames ids :
  forall n count ended count' effects,
    OAuth2.fetchDocuments env b step filenames ids n count
    = (Some ended, count', effects) ->
    ended = Panics "index out of range"
    \/ exists lsr, ended = Returns lsr /\ StepResult.Status lsr = "error".
Proof.
  induction ids as [| id rest IH]; intros n count ended' count' effects;
    cbn [OAuth2.fetchDocuments]; [discriminate |].
  destruct (if 0 <? Z.of_nat (length filenames)
            then match filenames !! Z.to_nat n with
                 | Some name =>
                     Some (OAuth2.Join env [OAuth2.downloadsDirectory b; name], name)
                 | None => None
                 end
            else Some (OAuth2.Join env [OAuth2.downloadsDirectory b; id; ".pdf"],
                       OAuth2.Join env [id; ".pdf"])) as [[f filename] |].
  2: { intros Heq. injection Heq as <- _ _. now left. }
  destruct (OAuth2.doRequest env b _ _ _ f) as [[ok err] requested].
  destruct ok; cbn [negb].
  2: { intros Heq. injection Heq as <- _ _. right. eexists. now split. }
  destruct (OAuth2.FileExists env f).
  { destruct (OAuth2.fetchDocuments env b step filenames rest (n + 1) count)
      as [[ended c] later] eqn:Hrest.
    intros Heq. injection Heq as -> _ _. eapply IH. exact Hrest. }
  destruct (OAuth2.copy env f _);
    [intros Heq; injection Heq as <- _ _; right; eexists; now split |].
  destruct (OAuth2.addFile env _);
    [intros Heq; injection Heq as <- _ _; right; eexists; now split |].
  destruct (OAuth2.fetchDocuments env b step filenames rest (n + 1) (count + 1))
    as [[ended c] later] eqn:Hrest.
  intros Heq. injection Heq as -> _ _. eapply IH. exact Hrest.
Qed.
(** X12. The bookkeeping of an items step.  Whatever the step does, every
    file it copies to the documents directory is one it has just written,
    and every file it hands to the archive is one it has copied.  When the
    listing is answered with status 200 the new-files counter is started
    afresh and ends as the number of copies started; otherwise the driver
    is left as it was.  When the step returns success, the listing was
    answered with 200, it held at least one identifier, and the step has
    sent one request and written one file for every identifier, also for
    documents the archive has already. *)
Theorem items_step_bookkeeping
  (env : OAuth2.Env) (b : OAuth2.ClientAuthBrowserDriver) (step : parser.Step) :
  let handled := OAuth2.stepOauth2PostAndGetItems env b step in
  let effects := snd handled in
  let b' := snd (fst handled) in
  let listed :=
    OAuth2.NewRequest env "POST" (parser.URL step) = None
    /\ exists body,
         OAuth2.Do env (OAuth2.itemsRequest b step) = http.Response 200 (inr body) in
  incl (map fst (copies effects)) (written effects)
  /\ incl (added effects) (map snd (copies effects))
  /\ (listed ->
      b' = OAuth2.set_newFilesCount b (Z.of_nat (length (copies effects))))
  /\ (~ listed -> b' = b /\ copies effects = [])
  /\ (fst (fst handled) = Returns successResult ->
      exists body jsr,
        OAuth2.NewRequest env "POST" (parser.URL step) = None
        /\ OAuth2.Do env (OAuth2.itemsRequest b step) = http.Response 200 (inr body)
        /\ OAuth2.unmarshal env body = inr jsr
        /\ let ids :=
             Extractor.extractJsonValue jsr (parser.ExtractDocumentIds step) in
           ids <> []
           /\ length (requests effects) = S (length ids)
           /\ length (written effects) = length ids).
Proof.
  intros handled effects b' listed. subst listed effects b' handled.
  unfold OAuth2.stepOauth2PostAndGetItems.
  destruct (OAuth2.NewRequest env "POST" (parser.URL step)) as [e |].
  { cbn. repeat apply conj; try apply incl_nil_l; try discriminate; try tauto.
    intros (Hno & _). discriminate. }
  destruct (OAuth2.Do env (OAuth2.itemsRequest b step)) as [e | code [e | body]].
  { cbn. repeat apply conj; try apply incl_nil_l; try discriminate; try tauto.
    intros (_ & body & Hno). discriminate. }
  { cbn. repeat apply conj; try apply incl_nil_l; try discriminate; try tauto.
    intros (_ & body & Hno). discriminate. }
  destruct (Z.eqb_spec code 200) as [-> | Hcode].
  2: { destruct (code =? 400); cbn;
         (repeat apply conj; try apply incl_nil_l; try discriminate; try tauto;
          intros (_ & body0 & Heq); injection Heq as -> _; now elim Hcode). }
  assert (Hlisted : @None string = None
                    /\ exists body0 : string,
                        http.Response 200 (inr body) = http.Response 200 (inr body0)).
  { split; [reflexivity | now exists body]. }
  destruct (OAuth2.unmarshal env body) as [e | jsr] eqn:Hparsed.
  { cbn. repeat apply conj; try apply incl_nil_l; try discriminate; tauto. }
  destruct (Extractor.extractJsonValue jsr (parser.ExtractDocumentIds step))
    as [| id ids] eqn:Hids.
  { cbn. repeat apply conj; try apply incl_nil_l; try discriminate; tauto. }
  replace (Z.of_nat (length (id :: ids)) =? 0) with false
    by (symmetry; apply Z.eqb_neq; cbn [length]; lia).
  set (filenames := if String.eqb (parser.ExtractDocumentFilenames step) ""
                    then [] else _).
  pose proof (fetchDocuments_bookkeeping env (OAuth2.set_newFilesCount b 0) step
                filenames (id :: ids) 0 0)
    as (Hcount & Hsrc & Hdst & _ & _ & _ & Hall).
  pose proof (fetchDocuments_endings env (OAuth2.set_newFilesCount b 0) step
                filenames (id :: ids) 0 0) as Herror.
  destruct (OAuth2.fetchDocuments env (OAuth2.set_newFilesCount b 0) step filenames
              (id :: ids) 0 0) as [[[ended |] count] later];
    cbn [fst snd] in *.
  - change (copies (HttpDo (OAuth2.itemsRequest b step) :: later)) with (copies later).
    change (written (HttpDo (OAuth2.itemsRequest b step) :: later))
      with (written later).
    change (added (HttpDo (OAuth2.itemsRequest b step) :: later)) with (added later).
    repeat apply conj; try assumption.
    + intros _. rewrite Hcount. reflexivity.
    + intros Hno. now elim Hno.
    + intros ->. destruct (Herror _ _ _ eq_refl) as [Hp | (lsr & Heq & Hstatus)];
        [discriminate Hp |].
      injection Heq as <-. discriminate Hstatus.
  - change (copies (HttpDo (OAuth2.itemsRequest b step) :: later)) with (copies later).
    change (written (HttpDo (OAuth2.itemsRequest b step) :: later))
      with (written later).
    change (added (HttpDo (OAuth2.itemsRequest b step) :: later)) with (added later).
    change (requests (HttpDo (OAuth2.itemsRequest b step) :: later))
      with (OAuth2.itemsRequest b step :: requests later).
    repeat apply conj; try assumption.
    + intros _. rewrite Hcount. reflexivity.
    + intros Hno. now elim Hno.
    + intros _. exists body, jsr. rewrite Hids. destruct (Hall eq_refl) as [Hr Hw].
      repeat apply conj; try reflexivity; try discriminate.
      * exact Hparsed.
      * cbn [length] in *. f_equal. exact Hr.
      * exact Hw.
Qed.

Lemma items_step_bookkeeping_witness :
  let handled :=
    OAuth2.stepOauth2PostAndGetItems Portal.env Fixtures.oauth2Driver
      (Portal.itemsStep "") in
  fst (fst handled) = Returns successResult
  /\ OAuth2.newFilesCount (snd (fst handled)) = 2
  /\ length (requests (snd handled)) = 3%nat
  /\ length (written (snd handled)) = 2%nat.
Proof.
  intros handled.
  assert (Hok : fst (fst handled) = Returns successResult) by reflexivity.
  destruct (items_step_bookkeeping Portal.env Fixtures.oauth2Driver
              (Portal.itemsStep "")) as (_ & _ & Hlisted & _ & Hall).
  fold handled in Hlisted, Hall.
  destruct (Hall Hok) as (body & jsr & Hnew & Hreply & Hparsed & _ & Hr & Hw).
  injection Hparsed as <-.
  split; [exact Hok |]. split; [| split].
  - rewrite Hlisted by (split; [exact Hnew | now exists body]). reflexivity.
  - rewrite Hr. reflexivity.
  - rewrite Hw. reflexivity.
Defined.

Lemma fetchDocuments_short_names env b step filenames ids :
  forall n count,
    0 <= n ->
    (0 < length filenames)%nat ->
    (Z.to_nat n <= length filenames)%nat ->
    (length filenames < Z.to_nat n + length ids)%nat ->
    fst (fst (OAuth2.fetchDocuments env b step filenames ids n count)) <> None
    /\ ((forall url f,
            fst (fst (OAuth2.doRequest env b url (parser.DocumentRequestMethod step)
                        (parser.DocumentRequestHeaders step) f)) = true) ->
        (forall src dst, OAuth2.copy env src dst = None) ->
        (forall path, OAuth2.addFile env path = None) ->
        fst (fst (OAuth2.fetchDocuments env b step filenames ids n count))
        = Some (Panics "index out of range")).
Proof.
  induction ids as [| id rest IH]; intros n count Hn Hsome Hin Hshort;
    cbn [length] in Hshort; [lia |].
  cbn [OAuth2.fetchDocuments].
  replace (0 <? Z.of_nat (length filenames)) with true
    by (symmetry; apply Z.ltb_lt; lia).
  destruct (filenames !! Z.to_nat n) as [name |] eqn:Hname.
  2: { cbn. split; [discriminate | reflexivity]. }
  apply lookup_lt_Some in Hname.
  assert (Hnext : fst (fst (OAuth2.fetchDocuments env b step filenames rest (n + 1)
                              count)) <> None
                  /\ fst (fst (OAuth2.fetchDocuments env b step filenames rest (n + 1)
                                 (count + 1))) <> None).
  { split; apply IH; lia. }
  assert (Hpanic : (forall url f,
                       fst (fst (OAuth2.doRequest env b url
                                   (parser.DocumentRequestMethod step)
                                   (parser.DocumentRequestHeaders step) f)) = true) ->
                   (forall src dst, OAuth2.copy env src dst = None) ->
                   (forall path, OAuth2.addFile env path = None) ->
                   fst (fst (OAuth2.fetchDocuments env b step filenames rest (n + 1)
                               count)) = Some (Panics "index out of range")
                   /\ fst (fst (OAuth2.fetchDocuments env b step filenames rest
                                  (n + 1) (count + 1)))
                      = Some (Panics "index out of range")).
  { intros Hdl Hcp Hadd. split; apply IH; auto; lia. }
  assert (Hthis : (forall url f,
                      fst (fst (OAuth2.doRequest env b url
                                  (parser.DocumentRequestMethod step)
                                  (parser.DocumentRequestHeaders step) f)) = true) ->
                  fst (fst (OAuth2.doRequest env b
                              (Go.ReplaceAll (parser.DocumentUrl step) "{{ id }}" id)
                              (parser.DocumentRequestMethod step)
                              (parser.DocumentRequestHeaders step)
                              (OAuth2.Join env [OAuth2.downloadsDirectory b; name])))
                  = true) by (intros H; apply H).
  destruct (OAuth2.doRequest env b _ _ _ _) as [[ok err] requested].
  cbn [fst snd] in Hthis.
  destruct ok; cbn [negb].
  2: { cbn. split; [discriminate |]. intros Hdl. specialize (Hthis Hdl).
       discriminate. }
  destruct (OAuth2.FileExists env _).
  { destruct (OAuth2.fetchDocuments env b step filenames rest (n + 1) count)
      as [[ended c] later].
    cbn [fst snd] in *. split; [apply Hnext |].
    intros Hdl Hcp Hadd. now apply Hpanic. }
  assert (Hcopy : (forall src dst, OAuth2.copy env src dst = None) ->
                  OAuth2.copy env
                    (OAuth2.Join env [OAuth2.downloadsDirectory b; name])
                    (OAuth2.Join env [OAuth2.documentsDirectory b; name]) = None)
    by (intros H; apply H).
  destruct (OAuth2.copy env _ _) as [e |].
  { cbn. split; [discriminate |]. intros _ Hcp. specialize (Hcopy Hcp).
    discriminate. }
  assert (Hput : (forall path, OAuth2.addFile env path = None) ->
                 OAuth2.addFile env
                   (OAuth2.Join env [OAuth2.documentsDirectory b; name]) = None)
    by (intros H; apply H).
  destruct (OAuth2.addFile env _) as [e |].
  { cbn. split; [discriminate |]. intros _ _ Hadd. specialize (Hput Hadd).
    discriminate. }
  destruct (OAuth2.fetchDocuments env b step filenames rest (n + 1) (count + 1))
    as [[ended c] later].
  cbn [fst snd] in *. split; [apply Hnext |].
  intros Hdl Hcp Hadd. now apply Hpanic.
Qed.

(** X13. File names that run out.  When the listing is answered with 200
    and the path of the file names yields at least one name but fewer
    names than there are identifiers, the items step cannot succeed: it
    ends with an error result or, when every download, copy and archive
    entry before that goes well, it panics on the index past the last
    name. *)
Theorem fewer_names_than_ids_never_succeeds
  (env : OAuth2.Env) (b : OAuth2.ClientAuthBrowserDriver) (step : parser.Step)
  (body : string) (jsr : json) :
  let ids := Extractor.extractJsonValue jsr (parser.ExtractDocumentIds step) in
  let filenames :=
    Extractor.extractJsonValue jsr (parser.ExtractDocumentFilenames step) in
  let completion := fst (fst (OAuth2.stepOauth2PostAndGetItems env b step)) in
  OAuth2.NewRequest env "POST" (parser.URL step) = None ->
  OAuth2.Do env (OAuth2.itemsRequest b step) = http.Response 200 (inr body) ->
  OAuth2.unmarshal env body = inr jsr ->
  parser.ExtractDocumentFilenames step <> "" ->
  (0 < length filenames < length ids)%nat ->
  (completion = Panics "index out of range"
   \/ exists lsr, completion = Returns lsr /\ StepResult.Status lsr = "error")
  /\ ((forall url f,
          fst (fst (OAuth2.doRequest env (OAuth2.set_newFilesCount b 0) url
                      (parser.DocumentRequestMethod step)
                      (parser.DocumentRequestHeaders step) f)) = true) ->
      (forall src dst, OAuth2.copy env src dst = None) ->
      (forall path, OAuth2.addFile env path = None) ->
      completion = Panics "index out of range").
Proof.
  intros ids filenames completion Hnew Hreply Hparsed Hpath [Hsome Hshort].
  subst completion. unfold OAuth2.stepOauth2PostAndGetItems.
  rewrite Hnew, Hreply. cbn [Z.eqb Pos.eqb]. rewrite Hparsed. fold ids.
  replace (Z.of_nat (length ids) =? 0) with false
    by (symmetry; apply Z.eqb_neq; lia).
  apply String.eqb_neq in Hpath. rewrite Hpath. fold filenames.
  destruct (fetchDocuments_short_names env (OAuth2.set_newFilesCount b 0) step
              filenames ids 0 0 ltac:(lia) Hsome ltac:(lia) ltac:(lia))
    as [Hends Hpanics].
  pose proof (fetchDocuments_endings env (OAuth2.set_newFilesCount b 0) step
                filenames ids 0 0) as Hendings.
  destruct (OAuth2.fetchDocuments env (OAuth2.set_newFilesCount b 0) step filenames
              ids 0 0) as [[[ended |] count] later]; cbn [fst snd] in *.
  2: { now elim Hends. }
  split.
  - destruct (Hendings _ _ _ eq_refl) as [-> | (lsr & -> & Hstatus)];
      [now left | right; now exists lsr].
  - intros Hdl Hcp Hadd. specialize (Hpanics Hdl Hcp Hadd). now injection Hpanics.
Qed.

Lemma fewer_names_than_ids_never_succeeds_witness :
  let step := Portal.itemsStep "items.file" in
  Extractor.extractJsonValue Portal.listing (parser.ExtractDocumentIds step)
  = ["17"; "18"]
  /\ Extractor.extractJsonValue Portal.listing (parser.ExtractDocumentFilenames step)
     = ["invoice-17.pdf"]
  /\ fst (fst (OAuth2.stepOauth2PostAndGetItems Portal.env Fixtures.oauth2Driver step))
     = Panics "index out of range".
Proof.
  intros step.
  split; [reflexivity |]. split; [reflexivity |].
  apply (fewer_names_than_ids_never_succeeds Portal.env Fixtures.oauth2Driver step
           "{}" Portal.listing).
  - reflexivity.
  - reflexivity.
  - reflexivity.
  - discriminate.
  - vm_compute. split; apply le_n.
  - intros url f. reflexivity.
  - intros src dst. reflexivity.
  - intros path. reflexivity.
Defined.

(** ** Where the access token comes from *)

Lemma getOauth2Tokens_success env b payload pii directory tokens effects :
  OAuth2.getOauth2Tokens env b payload pii directory = (tokens, None, effects) ->
  OAuth2.NewRequest env "POST" (OAuth2.oauth2TokenUrl b) = None
  /\ (exists body,
         OAuth2.Do env (OAuth2.tokenRequest b payload) = http.Response 200 (inr body)
         /\ OAuth2.unmarshalTokens env body = (tokens, None))
  /\ OAuth2.save env pii tokens directory = None
  /\ effects = [HttpDo (OAuth2.tokenRequest b payload);
                SaveOauth2TokensToFile pii tokens directory].
Proof.
  unfold OAuth2.getOauth2Tokens.
  destruct (OAuth2.NewRequest env "POST" (OAuth2.oauth2TokenUrl b)) as [e |];
    [discriminate |].
  destruct (OAuth2.Do env (OAuth2.tokenRequest b payload))
    as [e | code [e | body]]; try discriminate.
  destruct (Z.eqb_spec code 200) as [-> | Hcode].
  2: { destruct (code =? 400); discriminate. }
  destruct (OAuth2.unmarshalTokens env body) as [tj [e |]] eqn:Hparsed;
    [discriminate |].
  destruct (OAuth2.save env pii tj directory) as [e |] eqn:Hsaved; [discriminate |].
  intros Heq. injection Heq as <- <-.
  split; [reflexivity |]. split; [now exists body |]. now split.
Qed.

(** X14. Where the access token of the driver comes from.  A step of the
    OAuth2 dispatcher leaves the token as it was, or it adopts the token
    of a cache entry that is still valid, doing nothing else, or it adopts
    the token of an exchange that was answered with status 200, whose
    reply parsed, and that has been saved to the token file under the key
    supplier|credentialId before.  A token that could not be saved is
    never adopted. *)
Theorem access_token_is_cached_or_saved
  (env : OAuth2.Env) (b : OAuth2.ClientAuthBrowserDriver)
  (recipe : parser.Recipe) (step : parser.Step) :
  let pii := parser.Supplier recipe +:+ "|" +:+ vault.Id (OAuth2.credentials b) in
  let directory := OAuth2.buchhalterConfigDirectory b in
  let handled := OAuth2.handle env b recipe step in
  let token := OAuth2.oauth2AuthToken (snd (fst handled)) in
  token = OAuth2.oauth2AuthToken b
  \/ (exists tokens,
         OAuth2.GetOauthAccessTokenFromCache env pii directory = Some tokens
         /\ OAuth2.validOauth2AuthToken env tokens = true
         /\ token = secrets.AccessToken tokens
         /\ snd handled = [])
  \/ (exists tokens payload body,
         OAuth2.Do env (OAuth2.tokenRequest b payload) = http.Response 200 (inr body)
         /\ OAuth2.unmarshalTokens env body = (tokens, None)
         /\ OAuth2.save env pii tokens directory = None
         /\ token = secrets.AccessToken tokens
         /\ persisted (snd handled) = [(pii, tokens, directory)]).
Proof.
  intros pii directory handled token. subst token handled.
  unfold OAuth2.handle. cbv zeta.
  destruct (String.eqb (parser.Action step) "oauth2-setup"); [now left |].
  destruct (String.eqb (parser.Action step) "oauth2-check-tokens").
  { unfold OAuth2.stepOauth2CheckTokens. fold pii directory.
    destruct (OAuth2.GetOauthAccessTokenFromCache env pii directory)
      as [cached |] eqn:Hcached; [| now left].
    destruct (OAuth2.validOauth2AuthToken env cached) eqn:Hvalid.
    { right; left. exists cached. now repeat split. }
    destruct (OAuth2.getOauth2Tokens env b (OAuth2.refreshPayload b cached) pii
                directory) as [[nt [e |]] effects] eqn:Hexchange; [now left |].
    apply getOauth2Tokens_success in Hexchange
      as (_ & (body & Hreply & Hparsed) & Hsaved & ->).
    right; right. exists nt, (OAuth2.refreshPayload b cached), body.
    now repeat split. }
  destruct (String.eqb (parser.Action step) "oauth2-authenticate").
  { unfold OAuth2.stepOauth2Authenticate, OAuth2.loginError. fold pii directory.
    destruct (0 <? Z.of_nat (String.length (OAuth2.oauth2AuthToken b)));
      [now left |].
    destruct (OAuth2.Oauth2Pkce env (OAuth2.oauth2PkceVerifierLength b))
      as [[verifier challenge] pkceErr].
    destruct (OAuth2.Run env (OAuth2.loginForm _ _)); [now left |].
    destruct (OAuth2.Run env OAuth2.probeSecondFactor); [now left |].
    destruct (0 <? Z.of_nat (length (OAuth2.nodesOf env "#form-input-passcode"))).
    - destruct (OAuth2.Run env (OAuth2.submitSecondFactor _)); [now left |].
      destruct (OAuth2.Run env OAuth2.readLocation); [now left |].
      destruct (OAuth2.codeOf env (OAuth2.location env)) as [code |]; [| now left].
      destruct (OAuth2.getOauth2Tokens env b (OAuth2.codePayload b verifier code) pii
                  directory) as [[nt [e |]] effects] eqn:Hexchange; [now left |].
      apply getOauth2Tokens_success in Hexchange
        as (_ & (body & Hreply & Hparsed) & Hsaved & ->).
      right; right. exists nt, (OAuth2.codePayload b verifier code), body.
      repeat split; try assumption.
      cbn [snd]. unfold persisted. rewrite !flat_map_app.
      destruct pkceErr; reflexivity.
    - destruct (OAuth2.Run env OAuth2.readLocation); [now left |].
      destruct (OAuth2.codeOf env (OAuth2.location env)) as [code |]; [| now left].
      destruct (OAuth2.getOauth2Tokens env b (OAuth2.codePayload b verifier code) pii
                  directory) as [[nt [e |]] effects] eqn:Hexchange; [now left |].
      apply getOauth2Tokens_success in Hexchange
        as (_ & (body & Hreply & Hparsed) & Hsaved & ->).
      right; right. exists nt, (OAuth2.codePayload b verifier code), body.
      repeat split; try assumption.
      cbn [snd]. unfold persisted. rewrite !flat_map_app.
      destruct pkceErr; reflexivity. }
  destruct (String.eqb (parser.Action step) "oauth2-post-and-get-items");
    [| now left].
  left. pose proof (items_statused env b step) as [_ Hsame].
  unfold OAuth2.stepOauth2PostAndGetItems in *.
  destruct (OAuth2.NewRequest env "POST" (parser.URL step)); [reflexivity |].
  destruct (OAuth2.Do env (OAuth2.itemsRequest b step)) as [e | code [e | body]];
    try reflexivity.
  destruct (code =? 200); [| destruct (code =? 400); reflexivity].
  destruct (OAuth2.unmarshal env body); [reflexivity |].
  destruct (Z.of_nat (length _) =? 0); [reflexivity |].
  destruct (OAuth2.fetchDocuments env _ step _ _ 0 0) as [[[ended |] count] later];
    reflexivity.
Qed.

(** X15. The login is attempted exactly when the driver holds no access
    token.  With a token that is not the empty string the authenticate
    step returns success at once and touches neither the browser nor the
    network; with the empty token the first thing it does with the browser
    is to open the login form of the authorization URL. *)
Theorem authenticate_logs_in_only_without_token
  (env : OAuth2.Env) (b : OAuth2.ClientAuthBrowserDriver)
  (recipe : parser.Recipe) (step : parser.Step)
  (credentials : vault.Credentials) (directory : string) :
  let handled :=
    OAuth2.stepOauth2Authenticate env b recipe step credentials directory in
  (OAuth2.oauth2AuthToken b <> "" -> handled = (Returns successResult, b, []))
  /\ (OAuth2.oauth2AuthToken b = "" ->
      exists query later,
        browserRuns (snd handled)
        = OAuth2.loginForm (OAuth2.oauth2AuthUrl b +:+ "?" +:+ query) credentials
            :: later).
Proof.
  intros handled. subst handled. unfold OAuth2.stepOauth2Authenticate.
  split.
  - intros Htoken.
    destruct (OAuth2.oauth2AuthToken b) as [| c rest]; [now elim Htoken |].
    reflexivity.
  - intros ->. change (0 <? Z.of_nat (String.length "")) with false. cbv iota.
    destruct (OAuth2.Oauth2Pkce env (OAuth2.oauth2PkceVerifierLength b))
      as [[verifier challenge] pkceErr].
    eexists.
    destruct (OAuth2.Run env (OAuth2.loginForm _ _));
      [| destruct (OAuth2.Run env OAuth2.probeSecondFactor);
         [| destruct (0 <? Z.of_nat (length (OAuth2.nodesOf env
                                               "#form-input-passcode")));
            [destruct (OAuth2.Run env (OAuth2.submitSecondFactor _)) |];
            [| destruct (OAuth2.Run env OAuth2.readLocation);
               [| destruct (OAuth2.codeOf env (OAuth2.location env)) as [code |];
                  [destruct (OAuth2.getOauth2Tokens env b _ _ directory)
                     as [[nt [e |]] effects] |]]
             | destruct (OAuth2.Run env OAuth2.readLocation);
               [| destruct (OAuth2.codeOf env (OAuth2.location env)) as [code |];
                  [destruct (OAuth2.getOauth2Tokens env b _ _ directory)
                     as [[nt [e |]] effects] |]]]]];
      eexists; cbn [snd]; rewrite <- ?app_assoc; cbn [app];
      rewrite browserRuns_app; destruct pkceErr; reflexivity.
Qed.

Lemma authenticate_logs_in_only_without_token_witness :
  let b := OAuth2.set_oauth2AuthToken Fixtures.oauth2Driver "live" in
  let step := Fixtures.stepOf "oauth2-authenticate" "Log in" "" in
  OAuth2.oauth2AuthToken b <> ""
  /\ OAuth2.stepOauth2Authenticate Portal.env b (Fixtures.recipeOf [step]) step
       Fixtures.someone "/home/user/.buchhalter"
     = (Returns successResult, b, []).
Proof.
  intros b step.
  assert (Htoken : OAuth2.oauth2AuthToken b <> "") by discriminate.
  split; [exact Htoken |].
  now apply (authenticate_logs_in_only_without_token Portal.env b
               (Fixtures.recipeOf [step]) step Fixtures.someone
               "/home/user/.buchhalter").
Defined.

(** ** When a cached token is valid *)

(** X16. A cached token is valid exactly when the current time lies
    before its creation time plus its lifetime, the moment of expiry
    itself excluded, as long as that sum is an int.  When the sum of two
    ints overflows, as for a token with a very long lifetime, the token is
    taken for expired at every time that is not negative. *)
Theorem token_validity_and_overflow
  (env : OAuth2.Env) (tokens : secrets.Oauth2Tokens) :
  let created := secrets.CreatedAt tokens in
  let lifetime := secrets.ExpiresIn tokens in
  (Go.MinInt64 <= created + lifetime <= Go.MaxInt64 ->
   (OAuth2.validOauth2AuthToken env tokens = true <->
    OAuth2.now env < created + lifetime))
  /\ (created <= Go.MaxInt64 -> lifetime <= Go.MaxInt64 ->
      Go.MaxInt64 < created + lifetime -> 0 <= OAuth2.now env ->
      OAuth2.validOauth2AuthToken env tokens = false).
Proof.
  intros created lifetime. unfold OAuth2.validOauth2AuthToken, Go.wrap64.
  fold created lifetime. unfold Go.MinInt64, Go.MaxInt64. split.
  - intros Hrange.
    replace ((created + lifetime + 2 ^ 63) mod 2 ^ 64 - 2 ^ 63)
      with (created + lifetime)
      by (rewrite Z.mod_small; lia).
    apply Z.ltb_lt.
  - intros Hc Hl Hover Hnow. apply Z.ltb_ge.
    replace (created + lifetime + 2 ^ 63)
      with (created + lifetime - 2 ^ 63 + 1 * 2 ^ 64) by lia.
    rewrite Z.mod_add by lia. rewrite Z.mod_small; lia.
Qed.

Lemma token_validity_and_overflow_witness :
  let forever :=
    {| secrets.AccessToken := "live"; secrets.RefreshToken := "refresh";
       secrets.CreatedAt := 1000; secrets.ExpiresIn := Go.MaxInt64 |} in
  OAuth2.validOauth2AuthToken Portal.env Fixtures.liveTokens = true
  /\ OAuth2.validOauth2AuthToken Portal.env forever = false.
Proof.
  intros forever.
  destruct (token_validity_and_overflow Portal.env Fixtures.liveTokens)
    as [Hplain _].
  destruct (token_validity_and_overflow Portal.env forever) as [_ Hover].
  split.
  - apply Hplain; vm_compute; split; (reflexivity || discriminate).
  - apply Hover; vm_compute; (reflexivity || discriminate).
Defined.

(** ** Credential placeholders *)

Lemma drop_length k : forall s, String.length (Go.drop k s) = (String.length s - k)%nat.
Proof.
  induction k as [| k IH]; intros s; cbn [Go.drop]; [lia |].
  destruct s as [| c rest]; cbn [String.length]; [reflexivity | apply IH].
Qed.

Lemma replaceFrom_enough old new :
  old <> "" ->
  forall f1 f2 s,
    (String.length s <= f1)%nat -> (String.length s <= f2)%nat ->
    Go.replaceFrom f1 s old new = Go.replaceFrom f2 s old new.
Proof.
  intros Hold. induction f1 as [| f1 IH]; intros f2 s H1 H2.
  - destruct s; [| cbn in H1; lia]. now destruct f2.
  - destruct f2 as [| f2].
    { destruct s; [reflexivity | cbn in H2; lia]. }
    cbn [Go.replaceFrom]. destruct s as [| c rest]; [reflexivity |].
    cbn [String.length] in H1, H2.
    destruct (Go.HasPrefix (String c rest) old).
    + f_equal. apply IH; rewrite drop_length;
        destruct old; [now elim Hold | | now elim Hold |];
        cbn [String.length]; lia.
    + f_equal. apply IH; lia.
Qed.

Lemma ReplaceAll_skip c s old new :
  Go.HasPrefix (String c s) old = false ->
  Go.ReplaceAll (String c s) old new = String c (Go.ReplaceAll s old new).
Proof.
  intros Hmiss. unfold Go.ReplaceAll. cbn [String.length Go.replaceFrom].
  now rewrite Hmiss.
Qed.

Lemma ReplaceAll_hit s old new :
  old <> "" ->
  Go.HasPrefix s old = true ->
  Go.ReplaceAll s old new
  = new +:+ Go.ReplaceAll (Go.drop (String.length old) s) old new.
Proof.
  intros Hold Hhit. unfold Go.ReplaceAll.
  destruct s as [| c rest].
  { destruct old; [now elim Hold | discriminate Hhit]. }
  cbn [String.length Go.replaceFrom]. rewrite Hhit. f_equal.
  apply replaceFrom_enough; [exact Hold | | lia].
  rewrite drop_length. destruct old; [now elim Hold |].
  cbn [String.length]. lia.
Qed.

Lemma HasPrefix_here old rest : Go.HasPrefix (old +:+ rest) old = true.
Proof.
  induction old as [| c old IH]; [now destruct rest |].
  change (String c old +:+ rest) with (String c (old +:+ rest)).
  cbn [Go.HasPrefix]. now rewrite Ascii.eqb_refl, IH.
Qed.

Lemma drop_here old rest : Go.drop (String.length old) (old +:+ rest) = rest.
Proof. induction old as [| c old IH]; [reflexivity | exact IH]. Qed.

Lemma braceFree_app a b : braceFree (a +:+ b) = braceFree a && braceFree b.
Proof.
  induction a as [| c a IH]; [reflexivity |].
  change (String c a +:+ b) with (String c (a +:+ b)).
  cbn [braceFree]. now rewrite IH, andb_assoc.
Qed.

Lemma append_empty s : s +:+ "" = s.
Proof.
  induction s as [| c s IH]; [reflexivity |].
  change (String c s +:+ "") with (String c (s +:+ "")). now rewrite IH.
Qed.

Lemma ReplaceAll_before a rest old new :
  braceFree a = true ->
  Go.ReplaceAll (a +:+ rest) (String "{" old) new
  = a +:+ Go.ReplaceAll rest (String "{" old) new.
Proof.
  induction a as [| c a IH]; intros Hfree; [reflexivity |].
  cbn in Hfree. apply andb_prop in Hfree as [Hc Ha].
  change (String c a +:+ rest) with (String c (a +:+ rest)).
  rewrite ReplaceAll_skip.
  - now rewrite IH.
  - cbn [Go.HasPrefix]. rewrite Ascii.eqb_sym.
    now apply negb_true_iff in Hc as ->.
Qed.

Lemma ReplaceAll_braceFree s old new :
  braceFree s = true -> Go.ReplaceAll s (String "{" old) new = s.
Proof.
  intros Hfree.
  rewrite <- (append_empty s) at 1.
  rewrite ReplaceAll_before by exact Hfree.
  change (Go.ReplaceAll "" (String "{" old) new) with "".
  apply append_empty.
Qed.

Lemma ReplaceAll_at a b old new :
  braceFree a = true -> braceFree b = true ->
  Go.ReplaceAll (a +:+ String "{" old +:+ b) (String "{" old) new = a +:+ new +:+ b.
Proof.
  intros Ha Hb. rewrite ReplaceAll_before by exact Ha.
  rewrite ReplaceAll_hit by (discriminate || apply HasPrefix_here).
  now rewrite drop_here, ReplaceAll_braceFree.
Qed.

Ltac skip_placeholder :=
  cbv [String.append]; fold String.append;
  repeat (rewrite ReplaceAll_skip by reflexivity).

(** X17. Credential placeholders.  In a value whose other text, like the
    credentials, holds no opening brace, a placeholder {{ username }},
    {{ password }} or {{ totp }} is replaced by the credential it names, and
    a value without a brace is typed as it is.  The three replacements run
    one after the other over the whole value, so a user name is itself
    searched for the password and one-time-code placeholders. *)
Theorem placeholders_give_the_credentials
  (credentials : vault.Credentials) (before after : string) :
  braceFree before = true -> braceFree after = true ->
  braceFree (vault.Username credentials) = true ->
  braceFree (vault.Password credentials) = true ->
  braceFree (vault.Totp credentials) = true ->
  Browser.parseCredentialPlaceholders (before +:+ "{{ username }}" +:+ after)
    credentials
  = before +:+ vault.Username credentials +:+ after
  /\ Browser.parseCredentialPlaceholders (before +:+ "{{ password }}" +:+ after)
       credentials
     = before +:+ vault.Password credentials +:+ after
  /\ Browser.parseCredentialPlaceholders (before +:+ "{{ totp }}" +:+ after)
       credentials
     = before +:+ vault.Totp credentials +:+ after
  /\ Browser.parseCredentialPlaceholders before credentials = before
  /\ (forall anyone : vault.Credentials,
         Browser.parseCredentialPlaceholders "{{ username }}" anyone
         = Go.ReplaceAll
             (Go.ReplaceAll (vault.Username anyone) "{{ password }}"
                (vault.Password anyone))
             "{{ totp }}" (vault.Totp anyone)).
Proof.
  intros Hbefore Hafter Huser Hpass Htotp.
  unfold Browser.parseCredentialPlaceholders.
  assert (Hfree : forall middle,
             braceFree middle = true ->
             braceFree (before +:+ middle +:+ after) = true).
  { intros middle Hmiddle. now rewrite !braceFree_app, Hbefore, Hmiddle, Hafter. }
  assert (Hmiss : forall old placeholder new,
             Go.ReplaceAll (placeholder +:+ after) (String "{" old) new
             = placeholder +:+ after ->
             Go.ReplaceAll (before +:+ placeholder +:+ after) (String "{" old) new
             = before +:+ placeholder +:+ after).
  { intros old placeholder new Hrest.
    now rewrite (ReplaceAll_before before), Hrest by assumption. }
  split; [| split; [| split; [| split]]].
  - rewrite ReplaceAll_at by assumption.
    now rewrite !(ReplaceAll_braceFree
                    (before +:+ vault.Username credentials +:+ after))
      by now apply Hfree.
  - rewrite Hmiss
      by (skip_placeholder; now rewrite (ReplaceAll_braceFree after)).
    rewrite ReplaceAll_at by assumption.
    now rewrite ReplaceAll_braceFree by now apply Hfree.
  - rewrite !Hmiss
      by (skip_placeholder; now rewrite (ReplaceAll_braceFree after)).
    now rewrite ReplaceAll_at by assumption.
  - now rewrite !(ReplaceAll_braceFree before) by assumption.
  - intros anyone.
    rewrite (ReplaceAll_hit "{{ username }}" "{{ username }}") by
      (discriminate || reflexivity).
    change (Go.ReplaceAll (Go.drop _ "{{ username }}") "{{ username }}"
              (vault.Username anyone)) with "".
    now rewrite append_empty.
Qed.

Lemma placeholders_give_the_credentials_witness :
  Browser.parseCredentialPlaceholders "pin: {{ totp }}!" Fixtures.someone
  = "pin: 000000!".
Proof.
  now apply (placeholders_give_the_credentials Fixtures.someone "pin: " "!").
Defined.

(** ** A sleep step with a well-formed duration *)

Lemma of_uint_acc_grows d :
  forall acc, (acc <= Pos.of_uint_acc d acc)%positive.
Proof.
  induction d as [| d IH | d IH | d IH | d IH | d IH | d IH | d IH | d IH | d IH
                  | d IH]; intros acc; cbn [Pos.of_uint_acc];
    [lia | | | | | | | | | |];
    (etransitivity; [| apply IH]); lia.
Qed.

Lemma parseUintFrom_digits d :
  forall acc,
    Z.pos (Pos.of_uint_acc d acc) <= Go.maxUint64 ->
    Go.parseUintFrom (Z.pos acc) (NilEmpty.string_of_uint d)
    = (Z.pos (Pos.of_uint_acc d acc), None).
Proof.
  unfold Go.maxUint64.
  induction d as [| d IH | d IH | d IH | d IH | d IH | d IH | d IH | d IH | d IH
                  | d IH]; intros acc Hle;
    cbn [NilEmpty.string_of_uint Go.parseUintFrom Pos.of_uint_acc] in *;
    [reflexivity | | | | | | | | | |];
    match goal with
    | |- context [Go.digit ?c] =>
        let k := eval vm_compute in (Go.digit c) in
        change (Go.digit c) with k
    end;
    cbv iota beta;
    change (Go.maxUint64 / 10 + 1) with 1844674407370955162;
    unfold Go.maxUint64;
    match type of Hle with
    | (Z.pos (Pos.of_uint_acc d ?next) <= _) =>
        pose proof (of_uint_acc_grows d next) as Hgrows;
        replace (1844674407370955162 <=? Z.pos acc) with false
          by (symmetry; apply Z.leb_gt; lia);
        match goal with
        | |- context [2 ^ 64 - 1 <? ?v] =>
            replace (2 ^ 64 - 1 <? v) with false
              by (symmetry; apply Z.ltb_ge; lia);
            replace v with (Z.pos next) by lia
        end;
        now apply IH
    end.
Qed.

Lemma parseUintFrom_decimal d :
  Z.of_N (Pos.of_uint d) <= Go.maxUint64 ->
  Go.parseUintFrom 0 (NilEmpty.string_of_uint d) = (Z.of_N (Pos.of_uint d), None).
Proof.
  induction d as [| d IH | d IH | d IH | d IH | d IH | d IH | d IH | d IH | d IH
                  | d IH]; intros Hle;
    cbn [NilEmpty.string_of_uint Go.parseUintFrom Pos.of_uint] in *;
    [reflexivity | now apply IH | | | | | | | | |];
    match goal with
    | |- context [Go.digit ?c] =>
        let k := eval vm_compute in (Go.digit c) in
        change (Go.digit c) with k
    end;
    cbv iota beta;
    change (Go.maxUint64 / 10 + 1 <=? 0) with false;
    cbv iota;
    match goal with
    | |- context [Go.maxUint64 <? ?v] =>
        change (Go.maxUint64 <? v) with false
    end;
    cbv iota;
    now apply parseUintFrom_digits.
Qed.

Lemma to_uint_digits p :
  exists c rest,
    NilEmpty.string_of_uint (Pos.to_uint p) = String c rest
    /\ Go.unsignedPart (String c rest) = (false, String c rest).
Proof.
  pose proof (DecimalPos.Unsigned.of_to p) as Hback.
  destruct (Pos.to_uint p); [discriminate Hback | | | | | | | | | |];
    cbn [NilEmpty.string_of_uint]; eexists; eexists; split; reflexivity.
Qed.

(** [strconv.Atoi] reads back what [strconv.Itoa] writes. *)
Lemma Atoi_Itoa z :
  Go.MinInt64 <= z <= Go.MaxInt64 -> Go.Atoi (Go.Itoa z) = (z, None).
Proof.
  unfold Go.MinInt64, Go.MaxInt64, Go.Atoi, Go.Itoa. intros Hrange.
  destruct z as [| p | p]; [reflexivity | |];
    cbn [Z.to_int NilEmpty.string_of_int];
    destruct (to_uint_digits p) as (c & rest & Hshape & Hsign);
    pose proof (parseUintFrom_decimal (Pos.to_uint p)) as Hparse;
    rewrite DecimalPos.Unsigned.of_to in Hparse;
    specialize (Hparse ltac:(unfold Go.maxUint64; cbn [Z.of_N]; lia));
    rewrite Hshape in *; unfold Go.ParseInt.
  - rewrite Hsign. unfold Go.ParseUint. rewrite Hparse. cbn [Z.of_N negb andb].
    replace (2 ^ 63 <=? Z.pos p) with false by (symmetry; apply Z.leb_gt; lia).
    reflexivity.
  - cbn [Go.unsignedPart]. unfold Go.ParseUint. rewrite Hparse.
    cbn [Z.of_N negb andb].
    replace (2 ^ 63 <? Z.pos p) with false by (symmetry; apply Z.ltb_ge; lia).
    reflexivity.
Qed.

(** X18. A sleep step with a well-formed duration.  When the value is the
    decimal form of a number n of seconds and n times one second fits the
    64 bits of a duration, the step runs one sleep of exactly n seconds,
    which pauses max(n, 0) seconds, and succeeds unless the browser
    reports an error.  From 9223372037 seconds on the duration overflows:
    up to 18446744073 seconds it wraps to a negative duration and the
    step does not pause at all. *)
Theorem sleep_pauses_for_the_seconds_given
  (env : Browser.Env) (b : Browser.BrowserDriver) (step : parser.Step) (n : Z) :
  parser.Value step = Go.Itoa n ->
  (- 9223372036 <= n <= 9223372036 ->
   Browser.stepSleep env b step
   = Browser.runOnce env b [chromedp.Sleep (n * Go.Second)]
   /\ Go.timerDelay (n * Go.Second) = Z.max n 0 * Go.Second)
  /\ (9223372037 <= n <= 18446744073 ->
      exists d,
        Browser.stepSleep env b step = Browser.runOnce env b [chromedp.Sleep d]
        /\ Go.timerDelay d = 0).
Proof.
  intros Hvalue. unfold Browser.stepSleep. rewrite Hvalue. split.
  - intros Hrange.
    rewrite Atoi_Itoa by (unfold Go.MinInt64, Go.MaxInt64; lia).
    unfold Go.wrap64, Go.Second, Go.timerDelay.
    rewrite Z.mod_small by lia.
    split; [f_equal; f_equal; f_equal; lia | lia].
  - intros Hrange.
    rewrite Atoi_Itoa by (unfold Go.MinInt64, Go.MaxInt64; lia).
    eexists. split; [reflexivity |].
    unfold Go.wrap64, Go.Second, Go.timerDelay.
    replace (n * 1000000000 + 2 ^ 63)
      with (n * 1000000000 - 2 ^ 63 + 1 * 2 ^ 64) by lia.
    rewrite Z.mod_add by lia. rewrite Z.mod_small by lia. lia.
Qed.

Lemma sleep_pauses_for_the_seconds_given_witness :
  let step := Fixtures.stepOf "sleep" "Wait for the page" "90" in
  Browser.stepSleep Staging.env Staging.driver step
  = Browser.runOnce Staging.env Staging.driver [chromedp.Sleep (90 * Go.Second)].
Proof.
  intros step.
  destruct (sleep_pauses_for_the_seconds_given Staging.env Staging.driver step 90
              eq_refl) as [Hplain _].
  apply Hplain. lia.
Defined.

(** ** Where the new-files count of a result comes from *)

Lemma browser_received_keeps_count env b step lsr b' :
  parser.Action step <> "move" ->
  Browser.selectResult env b step = Received lsr b' ->
  b' = b.
Proof.
  intros Hother. unfold Browser.selectResult.
  assert (Hkept : snd (fst (Browser.handle env b step)) = b).
  { unfold Browser.handle, Browser.stepOpen, Browser.stepRemoveElement,
      Browser.stepClick, Browser.stepType, Browser.stepSleep, Browser.stepWaitFor,
      Browser.stepDownloadAll, Browser.stepTransform, Browser.stepMove,
      Browser.stepRunScript, Browser.stepRunScriptDownloadUrls, Browser.runOnce.
    split_cases; cbn [fst snd]; try reflexivity;
      exfalso; apply Hother; now apply String.eqb_eq. }
  destruct (Browser.handle env b step) as [[[sr | | err] b1] effects];
    cbn [fst snd] in *; try discriminate;
    destruct (Browser.elapsed env <? Browser.recipeTimeout b); try discriminate.
  intros Heq. now injection Heq as _ <-.
Qed.

Lemma oauth2_received_keeps_count env b recipe step lsr b' :
  parser.Action step <> "oauth2-post-and-get-items" ->
  OAuth2.selectResult env b recipe step = Received lsr b' ->
  OAuth2.newFilesCount b' = OAuth2.newFilesCount b.
Proof.
  intros Hother. unfold OAuth2.selectResult.
  assert (Hkept : OAuth2.newFilesCount (snd (fst (OAuth2.handle env b recipe step)))
                  = OAuth2.newFilesCount b).
  { unfold OAuth2.handle, OAuth2.stepOauth2Setup, OAuth2.stepOauth2CheckTokens,
      OAuth2.stepOauth2Authenticate, OAuth2.loginError.
    cbv zeta.
    destruct (String.eqb (parser.Action step) "oauth2-setup"); [reflexivity |].
    destruct (String.eqb (parser.Action step) "oauth2-check-tokens").
    { split_cases; reflexivity. }
    destruct (String.eqb (parser.Action step) "oauth2-authenticate").
    { split_cases; reflexivity. }
    destruct (String.eqb_spec (parser.Action step) "oauth2-post-and-get-items");
      [contradiction | reflexivity]. }
  destruct (OAuth2.handle env b recipe step) as [[[sr | | err] b1] effects];
    cbn [fst snd] in *; try discriminate;
    destruct (OAuth2.elapsed env <? OAuth2.recipeTimeout b); try discriminate.
  intros Heq. now injection Heq as _ <-.
Qed.

Lemma browser_count_without_move style tsc scs bcs recipe world steps :
  (forall step, In step steps -> parser.Action step <> "move") ->
  forall n result b r b' events,
    Browser.runSteps style tsc scs bcs recipe world steps n result b
    = (Return r b', events) ->
    RecipeResult.Status r = "success" ->
    (steps = [] /\ r = result)
    \/ RecipeResult.NewFilesCount r = Browser.newFilesCount b.
Proof.
  induction steps as [| step rest IH]; intros Hnone n result b r b' events.
  { cbn [Browser.runSteps]. intros Heq _. left. now injection Heq as <- _ _. }
  rewrite browser_runSteps_cons. unfold Browser.runStep.
  destruct (Browser.selectResult (world n) b step) as [lsr c | c | err] eqn:Hsel.
  - apply browser_received_keeps_count in Hsel as ->;
      [| apply Hnone; now left].
    destruct (String.eqb (StepResult.Status lsr) "success").
    + destruct (Browser.runSteps style tsc scs bcs recipe world rest (n + 1)
                  (Browser.onSuccess style recipe n step b) b)
        as [flow later] eqn:Hrest.
      cbn [fst snd]. intros Heq Hstatus. injection Heq as -> _.
      destruct (IH (fun s Hs => Hnone s (or_intror Hs)) _ _ _ _ _ _ Hrest Hstatus)
        as [[_ ->] | Hcount]; right; [reflexivity | exact Hcount].
    + intros Heq Hstatus. injection Heq as <- _ _. discriminate Hstatus.
  - intros Heq Hstatus. injection Heq as <- _ _. discriminate Hstatus.
  - discriminate.
Qed.

Lemma oauth2_count_without_items style tsc scs bcs recipe world steps :
  (forall step, In step steps ->
                parser.Action step <> "oauth2-post-and-get-items") ->
  forall n result b r b' events,
    OAuth2.runSteps style tsc scs bcs recipe world steps n result b
    = (Return r b', events) ->
    (steps = [] /\ r = result)
    \/ RecipeResult.Status r = "error" /\ RecipeResult.LastErrorMessage r = ""
       /\ RecipeResult.StatusText r = parser.Supplier recipe +:+ " aborted with timeout."
    \/ RecipeResult.NewFilesCount r = OAuth2.newFilesCount b.
Proof.
  induction steps as [| step rest IH]; intros Hnone n result b r b' events.
  { cbn [OAuth2.runSteps]. intros Heq. left. now injection Heq as <- _ _. }
  rewrite oauth2_runSteps_cons. unfold OAuth2.runStep.
  assert (Hrest : forall result' c,
             OAuth2.newFilesCount c = OAuth2.newFilesCount b ->
             RecipeResult.NewFilesCount result' = OAuth2.newFilesCount c ->
             forall later,
               (fst (OAuth2.runSteps style tsc scs bcs recipe world rest (n + 1)
                       result' c), later) = (Return r b', events) ->
               RecipeResult.Status r = "error" /\ RecipeResult.LastErrorMessage r = ""
               /\ RecipeResult.StatusText r
                  = parser.Supplier recipe +:+ " aborted with timeout."
               \/ RecipeResult.NewFilesCount r = OAuth2.newFilesCount b).
  { intros result' c Hc Hresult later Heq.
    destruct (OAuth2.runSteps style tsc scs bcs recipe world rest (n + 1) result' c)
      as [flow evs] eqn:Hrun.
    cbn [fst] in Heq. injection Heq as -> _.
    destruct (IH (fun s Hs => Hnone s (or_intror Hs)) _ _ _ _ _ _ Hrun)
      as [[_ ->] | [Htimeout | Hcount]].
    - right. congruence.
    - now left.
    - right. congruence. }
  destruct (OAuth2.selectResult (world n) b recipe step) as [lsr c | c | err] eqn:Hsel.
  - apply oauth2_received_keeps_count in Hsel as Hc; [| apply Hnone; now left].
    destruct (String.eqb (StepResult.Status lsr) "success");
      [| destruct (StepResult.Break lsr)].
    + intros Heq. right.
      exact (Hrest (OAuth2.onSuccess style recipe n step c) c Hc eq_refl _ Heq).
    + intros Heq. injection Heq as <- _ _. right; right. exact Hc.
    + intros Heq. right.
      exact (Hrest (OAuth2.onError style recipe n step lsr c) c Hc eq_refl _ Heq).
  - intros Heq. injection Heq as <- _ _. right; left. now repeat split.
  - discriminate.
Qed.

(** X19. Where the new-files count of a result comes from.  In the
    browser-driven dispatcher only the move step sets the counter, and in
    the OAuth2-driven one only the items step: a recipe without such a
    step does not start the counter afresh, and a success result it
    returns shows the count the driver held when the run started,
    whatever the steps downloaded. *)
Theorem count_is_stale_without_counting_step
  (style : string -> string) (tsc scs bcs : Z) (recipe : parser.Recipe) :
  parser.Steps recipe <> [] ->
  (forall (world : Z -> Browser.Env) b r b' events,
      (forall step, In step (parser.Steps recipe) -> parser.Action step <> "move") ->
      Browser.runSteps style tsc scs bcs recipe world (parser.Steps recipe) 1
        RecipeResult.zero b = (Return r b', events) ->
      RecipeResult.Status r = "success" ->
      RecipeResult.NewFilesCount r = Browser.newFilesCount b)
  /\ (forall (world : Z -> OAuth2.Env) b r b' events,
         (forall step, In step (parser.Steps recipe) ->
                       parser.Action step <> "oauth2-post-and-get-items") ->
         OAuth2.runSteps style tsc scs bcs recipe world (parser.Steps recipe) 1
           RecipeResult.zero b = (Return r b', events) ->
         RecipeResult.Status r = "success" ->
         RecipeResult.NewFilesCount r = OAuth2.newFilesCount b).
Proof.
  intros Hsteps. split.
  - intros world b r b' events Hnone Hrun Hstatus.
    destruct (browser_count_without_move style tsc scs bcs recipe world _ Hnone
                _ _ _ _ _ _ Hrun Hstatus) as [[Hempty _] | Hcount];
      [contradiction | exact Hcount].
  - intros world b r b' events Hnone Hrun Hstatus.
    destruct (oauth2_count_without_items style tsc scs bcs recipe world _ Hnone
                _ _ _ _ _ _ Hrun) as [[Hempty _] | [(Herror & _) | Hcount]];
      [contradiction | congruence | exact Hcount].
Qed.

Lemma count_is_stale_without_counting_step_witness :
  let recipe :=
    Fixtures.recipeOf [Fixtures.stepOf "downloadAll" "Download the invoices" "/a"] in
  let run :=
    Browser.runSteps Fixtures.bold 1 1 0 recipe (fun _ => Staging.env)
      (parser.Steps recipe) 1 RecipeResult.zero Staging.driver in
  exists r b',
    fst run = Return r b'
    /\ RecipeResult.Status r = "success"
    /\ RecipeResult.NewFilesCount r = 7.
Proof.
  intros recipe run.
  destruct (count_is_stale_without_counting_step Fixtures.bold 1 1 0 recipe
              ltac:(discriminate)) as [Hbrowser _].
  destruct run as [flow events] eqn:Hrun.
  assert (Hflow : exists r b', flow = Return r b' /\ RecipeResult.Status r = "success").
  { assert (Hfst : flow = fst run) by now rewrite Hrun.
    rewrite Hfst. vm_compute. eexists; eexists; split; reflexivity. }
  destruct Hflow as (r & b' & -> & Hstatus).
  exists r, b'. split; [reflexivity |]. split; [exact Hstatus |].
  apply (Hbrowser (fun _ => Staging.env) Staging.driver r b' events);
    [| exact Hrun | exact Hstatus].
  intros step [<- | []]. discriminate.
Defined.

(** ** What the extractor can return *)

Lemma json_nested_ind (P : json -> Prop) :
  P JNull ->
  (forall b, P (JBool b)) ->
  (forall f, P (JNumber f)) ->
  (forall s, P (JString s)) ->
  (forall items, Forall P items -> P (JArray items)) ->
  (forall entries, Forall (fun e => P (snd e)) entries -> P (JObject entries)) ->
  forall data, P data.
Proof.
  intros Hnull Hbool Hnumber Hstring Harray Hobject.
  fix IH 1. intros [| b | f | s | items | entries].
  - exact Hnull.
  - apply Hbool.
  - apply Hnumber.
  - apply Hstring.
  - apply Harray.
    induction items as [| item rest IHrest]; constructor; [apply IH | exact IHrest].
  - apply Hobject.
    induction entries as [| [k value] rest IHrest]; constructor;
      [apply IH | exact IHrest].
Qed.

Lemma leaves_array items : leaves (JArray items) = flat_map leaves items.
Proof.
  cbn [leaves]. induction items as [| item rest IH]; [reflexivity |].
  cbn [flat_map]. now rewrite IH.
Qed.

Lemma leaves_object entries :
  leaves (JObject entries) = flat_map (fun e => leaves (snd e)) entries.
Proof.
  cbn [leaves]. induction entries as [| [k value] rest IH]; [reflexivity |].
  cbn [flat_map snd]. now rewrite IH.
Qed.

Lemma stringItems_leaves items :
  sublist (Extractor.stringItems items) (flat_map leaves items).
Proof.
  induction items as [| item rest IH]; [constructor |].
  destruct item; cbn [Extractor.stringItems flat_map];
    try (now apply sublist_inserts_l).
  cbn [leaves app]. now constructor.
Qed.

Lemma mapIndex_found entries key value :
  Extractor.mapIndex entries key = Some value ->
  exists before k after, entries = before ++ (k, value) :: after.
Proof.
  induction entries as [| [k v] rest IH]; cbn [Extractor.mapIndex]; [discriminate |].
  destruct (String.eqb k key).
  - intros Heq. injection Heq as ->. now exists [], k, rest.
  - intros Hrest. destruct (IH Hrest) as (before & k' & after & ->).
    now exists ((k, v) :: before), k', after.
Qed.

Lemma extract_leaves data :
  forall keys, sublist (Extractor.extractJsonRecursive data keys) (leaves data).
Proof.
  induction data as [| b | f | s | items IH | entries IH] using json_nested_ind;
    intros keys.
  - destruct keys; constructor.
  - destruct keys; constructor.
  - destruct keys; constructor.
  - destruct keys; cbn; [reflexivity | apply sublist_nil_l].
  - rewrite leaves_array. destruct keys as [| key rest].
    + apply stringItems_leaves.
    + rewrite extract_array.
      induction IH as [| item items Hitem _ IHitems]; [constructor |].
      cbn [flat_map]. apply sublist_app; [apply Hitem | exact IHitems].
  - rewrite leaves_object. destruct keys as [| key rest]; [apply sublist_nil_l |].
    rewrite extract_object.
    destruct (Extractor.mapIndex entries key) as [value |] eqn:Hfound.
    + destruct (mapIndex_found _ _ _ Hfound) as (before & k & after & ->).
      rewrite flat_map_app. cbn [flat_map snd].
      apply sublist_inserts_l, sublist_inserts_r.
      apply Forall_app in IH as [_ IH]. inversion IH as [| ? ? Hvalue _]; subst.
      apply Hvalue.
    + clear Hfound.
      induction IH as [| entry entries' Hentry _ IHentries]; [constructor |].
      cbn [flat_map]. apply sublist_app; [apply Hentry | exact IHentries].
Qed.

(** X20. What the extractor can return.  Whatever the path, the strings
    extracted from a document are strings of the document, each taken at
    most once and in document order.  So there are never more results
    than the document has strings, and a document whose values are
    numbers, booleans or null, such as a listing with numeric
    identifiers, yields nothing. *)
Theorem extracted_strings_are_leaves (data : json) (path : string) :
  sublist (Extractor.extractJsonValue data path) (leaves data)
  /\ (length (Extractor.extractJsonValue data path) <= length (leaves data))%nat
  /\ (leaves data = [] -> Extractor.extractJsonValue data path = []).
Proof.
  unfold Extractor.extractJsonValue.
  pose proof (extract_leaves data (Go.Split path ".")) as Hsub.
  split; [exact Hsub |]. split.
  - now apply sublist_length.
  - intros Hnone. rewrite Hnone in Hsub. now apply sublist_nil_r.
Qed.

Lemma extracted_strings_are_leaves_witness :
  let numbered :=
    JObject [("items", JArray [JObject [("id", JNumber 17%float)];
                               JObject [("id", JNumber 18%float)]])] in
  Extractor.extractJsonValue numbered "items.id" = [].
Proof.
  intros numbered.
  now apply (extracted_strings_are_leaves numbered "items.id").
Defined.

(** ** The order of a map *)

(** X21. The order of a map.  Go leaves the order in which [range] visits
    a map open.  Whichever order the entries of an object are visited in,
    the extractor returns the same strings as often, possibly in another
    order; when the first key of the path is a key of the object itself,
    it returns them in the same order too. *)
Theorem map_order_only_permutes
  (entries entries' : list (string * json)) (path : string) :
  Permutation entries entries' ->
  List.NoDup (map fst entries) ->
  Permutation (Extractor.extractJsonValue (JObject entries) path)
              (Extractor.extractJsonValue (JObject entries') path)
  /\ (forall key rest,
         Go.Split path "." = key :: rest ->
         Extractor.mapIndex entries key <> None ->
         Extractor.extractJsonValue (JObject entries) path
         = Extractor.extractJsonValue (JObject entries') path).
Proof.
  intros Hperm Hkeys. unfold Extractor.extractJsonValue. split.
  - now apply extract_object_any_order.
  - intros key rest -> Hfound. rewrite !extract_object.
    rewrite <- (mapIndex_any_order entries entries' key Hperm Hkeys).
    destruct (Extractor.mapIndex entries key); [reflexivity | now elim Hfound].
Qed.

Lemma map_order_only_permutes_witness :
  let first := ("first", JObject [("id", JString "17")]) in
  let second := ("second", JObject [("id", JString "18")]) in
  Extractor.extractJsonValue (JObject [first; second]) "id" = ["17"; "18"]
  /\ Extractor.extractJsonValue (JObject [second; first]) "id" = ["18"; "17"]
  /\ Permutation (Extractor.extractJsonValue (JObject [first; second]) "id")
                 (Extractor.extractJsonValue (JObject [second; first]) "id").
Proof.
  intros first second.
  split; [reflexivity |]. split; [reflexivity |].
  apply (map_order_only_permutes [first; second] [second; first] "id").
  - apply perm_swap.
  - repeat constructor; cbn; intuition discriminate.
Defined.

(** ** The keys of a path *)

Lemma Split_nonempty s sep : Go.Split s sep <> [].
Proof.
  destruct s as [| c rest]; cbn [Go.Split]; [discriminate |].
  destruct (Ascii.eqb c sep); [discriminate |].
  destruct (Go.Split rest sep); discriminate.
Qed.

Lemma concat_cons sep x y l :
  String.concat sep (x :: y :: l) = x +:+ sep +:+ String.concat sep (y :: l).
Proof. reflexivity. Qed.

Lemma Split_concat s sep :
  String.concat (String sep EmptyString) (Go.Split s sep) = s.
Proof.
  induction s as [| c rest IH]; [reflexivity |].
  cbn [Go.Split]. pose proof (Split_nonempty rest sep) as Hne.
  destruct (Ascii.eqb_spec c sep) as [-> | Hc].
  - destruct (Go.Split rest sep) as [| field fields]; [now elim Hne |].
    rewrite concat_cons, IH. reflexivity.
  - destruct (Go.Split rest sep) as [| field fields]; [now elim Hne |].
    destruct fields as [| next fields].
    + change (String.concat (String sep "") [field]) with field in IH.
      change (String.concat (String sep "") [String c field])
        with (String c field).
      now rewrite IH.
    + rewrite concat_cons in *. rewrite <- IH. reflexivity.
Qed.

Lemma Split_dotFree p : dotFree p = true -> Go.Split p "." = [p].
Proof.
  induction p as [| c rest IH]; [reflexivity |].
  cbn [dotFree Go.Split]. intros Hfree. apply andb_prop in Hfree as [Hc Hrest].
  apply negb_true_iff in Hc. rewrite Hc. now rewrite (IH Hrest).
Qed.

Lemma Split_at_dot a rest :
  dotFree a = true -> Go.Split (a +:+ "." +:+ rest) "." = a :: Go.Split rest ".".
Proof.
  induction a as [| c a IH]; [reflexivity |].
  cbn [dotFree]. intros Hfree. apply andb_prop in Hfree as [Hc Ha].
  apply negb_true_iff in Hc.
  change (String c a +:+ "." +:+ rest) with (String c (a +:+ "." +:+ rest)).
  cbn [Go.Split]. now rewrite Hc, (IH Ha).
Qed.

Lemma Split_fields s :
  Forall (fun field => dotFree field = true) (Go.Split s ".").
Proof.
  induction s as [| c rest IH]; [now repeat constructor |].
  cbn [Go.Split]. destruct (Ascii.eqb c ".") eqn:Hc.
  - now constructor.
  - destruct (Go.Split rest ".") as [| field fields];
      [constructor; [cbn [dotFree]; now rewrite Hc | constructor] |].
    inversion IH as [| ? ? Hfield Hfields]; subst.
    constructor; [| exact Hfields]. cbn [dotFree]. now rewrite Hc, Hfield.
Qed.

(** X22. The keys of a path.  A path is cut at its dots: a path without a
    dot is one key, and a key followed by a dot is cut off before the rest
    is cut.  No key holds a dot, the keys joined by dots give the path
    back, and there is always at least one key, the empty path being the
    one empty key.  So the extractor never starts with the key list used
    up, and a document that is a string, a number, a boolean or null
    yields nothing, whatever the path. *)
Theorem path_is_cut_at_its_dots :
  (forall p, dotFree p = true -> Go.Split p "." = [p])
  /\ (forall key rest,
         dotFree key = true ->
         Go.Split (key +:+ "." +:+ rest) "." = key :: Go.Split rest ".")
  /\ (forall p,
         Go.Split p "." <> []
         /\ Forall (fun key => dotFree key = true) (Go.Split p ".")
         /\ String.concat "." (Go.Split p ".") = p)
  /\ (forall p data,
         match data with
         | JObject _ | JArray _ => True
         | _ => Extractor.extractJsonValue data p = []
         end).
Proof.
  split; [exact Split_dotFree |]. split; [exact Split_at_dot |]. split.
  - intros p. split; [apply Split_nonempty |]. split; [apply Split_fields |].
    apply Split_concat.
  - intros p data. unfold Extractor.extractJsonValue.
    pose proof (Split_nonempty p ".") as Hne.
    destruct (Go.Split p ".") as [| key rest]; [now elim Hne |].
    destruct data; (exact I || reflexivity).
Qed.

Lemma path_is_cut_at_its_dots_witness :
  Go.Split "items.id" "." = ["items"; "id"]
  /\ Extractor.extractJsonValue (JString "17") "" = [].
Proof.
  destruct path_is_cut_at_its_dots as (Hone & Hcut & _ & Hscalar).
  split.
  - change "items.id" with ("items" +:+ "." +:+ "id").
    rewrite (Hcut "items" "id") by reflexivity. now rewrite Hone.
  - apply (Hscalar "" (JString "17")).
Defined.

(** ** What an OAuth2-driven run never does *)

(** X23. An OAuth2-driven run never purges the download staging
    directory, however it ends: files a failed or timed-out recipe has
    downloaded stay where they are. *)
Theorem oauth2_run_never_purges
  (host : OAuth2.Host) (world : Z -> OAuth2.Env) (tsc scs bcs : Z)
  (b : OAuth2.ClientAuthBrowserDriver) (recipe : parser.Recipe) :
  purged (snd (OAuth2.RunRecipe host world tsc scs bcs b recipe)) = [].
Proof.
  unfold OAuth2.RunRecipe.
  destruct (OAuth2.startBrowser host); [reflexivity |].
  destruct (if String.eqb (OAuth2.ChromeVersion b) "" then _ else _);
    [reflexivity |].
  destruct (OAuth2.InitSupplierDirectories host _ _) as [[downloads documents] err].
  match goal with
  | |- context [OAuth2.runSteps ?st ?t ?s ?bc ?r ?w ?steps ?n ?res ?drv] =>
      pose proof (oauth2_runSteps_never_purges st t s bc r w steps n res drv)
        as Hloop;
      destruct (OAuth2.runSteps st t s bc r w steps n res drv) as [flow events]
  end.
  cbn [snd] in *. rewrite purged_app, Hloop. now destruct err.
Qed.

(** ** What an OAuth2 step touches *)

Lemma getOauth2Tokens_touches env b payload pii directory :
  let effects := snd (OAuth2.getOauth2Tokens env b payload pii directory) in
  browserRuns effects = []
  /\ (requests effects = [] \/ requests effects = [OAuth2.tokenRequest b payload]).
Proof.
  cbv zeta. unfold OAuth2.getOauth2Tokens.
  destruct (OAuth2.NewRequest env "POST" (OAuth2.oauth2TokenUrl b));
    [split; [reflexivity | now left] |].
  destruct (OAuth2.Do env (OAuth2.tokenRequest b payload))
    as [e | code [e | body]]; try (split; [reflexivity | now right]).
  destruct (code =? 200).
  - destruct (OAuth2.unmarshalTokens env body) as [tj [e |]];
      [split; [reflexivity | now right] |].
    destruct (OAuth2.save env pii tj directory); split; (reflexivity || now right).
  - destruct (code =? 400); split; (reflexivity || now right).
Qed.

Lemma fetchDocuments_touches env b step filenames ids :
  forall n count,
    browserRuns (snd (OAuth2.fetchDocuments env b step filenames ids n count)) = [].
Proof.
  induction ids as [| id rest IH]; intros n count; cbn [OAuth2.fetchDocuments];
    [reflexivity |].
  destruct (if 0 <? Z.of_nat (length filenames)
            then match filenames !! Z.to_nat n with
                 | Some name =>
                     Some (OAuth2.Join env [OAuth2.downloadsDirectory b; name], name)
                 | None => None
                 end
            else Some (OAuth2.Join env [OAuth2.downloadsDirectory b; id; ".pdf"],
                       OAuth2.Join env [id; ".pdf"])) as [[f filename] |];
    [| reflexivity].
  assert (Hrequested : browserRuns
                         (snd (OAuth2.doRequest env b
                                 (Go.ReplaceAll (parser.DocumentUrl step) "{{ id }}" id)
                                 (parser.DocumentRequestMethod step)
                                 (parser.DocumentRequestHeaders step) f)) = []).
  { unfold OAuth2.doRequest.
    destruct (OAuth2.NewRequest env _ _); [reflexivity |].
    destruct (OAuth2.Do env _) as [e | code body]; [reflexivity |].
    destruct (code =? 200); [| reflexivity].
    destruct (OAuth2.create env f); [reflexivity |].
    now destruct (OAuth2.ioCopy env _ f body) as [copied [e |]]. }
  destruct (OAuth2.doRequest env b _ _ _ f) as [[ok err] requested].
  cbn [snd] in Hrequested.
  set (e1 := requested ++ match err with Some e => [Println e] | None => [] end).
  assert (He1 : browserRuns e1 = []).
  { unfold e1. rewrite browserRuns_app, Hrequested. now destruct err. }
  destruct ok; cbn [negb]; [| exact He1].
  destruct (OAuth2.FileExists env f).
  { specialize (IH (n + 1) count).
    destruct (OAuth2.fetchDocuments env b step filenames rest (n + 1) count)
      as [[ended c] later].
    cbn [snd] in *. now rewrite browserRuns_app, He1, IH. }
  destruct (OAuth2.copy env f _); [cbn [snd]; now rewrite browserRuns_app, He1 |].
  destruct (OAuth2.addFile env _); [cbn [snd]; now rewrite browserRuns_app, He1 |].
  specialize (IH (n + 1) (count + 1)).
  destruct (OAuth2.fetchDocuments env b step filenames rest (n + 1) (count + 1))
    as [[ended c] later].
  cbn [snd] in *. now rewrite !browserRuns_app, He1, IH.
Qed.

(** X24. What an OAuth2 step touches.  The setup step does nothing to the
    outside.  The token check never uses the browser and sends at most
    one request, to the token URL.  The login uses the browser at most
    four times, for the login form, the probe for the second factor, the
    one-time code and the final location, and sends at most one request,
    to the token URL.  The items step never uses the browser. *)
Theorem oauth2_calls_per_step
  (env : OAuth2.Env) (b : OAuth2.ClientAuthBrowserDriver)
  (recipe : parser.Recipe) (step : parser.Step) :
  let effects := snd (OAuth2.handle env b recipe step) in
  let action := parser.Action step in
  (length (browserRuns effects) <= 4)%nat
  /\ (action = "oauth2-setup" -> effects = [])
  /\ (action <> "oauth2-authenticate" -> browserRuns effects = [])
  /\ (action = "oauth2-check-tokens" \/ action = "oauth2-authenticate" ->
      requests effects = []
      \/ exists payload, requests effects = [OAuth2.tokenRequest b payload]).
Proof.
  intros effects action. subst effects action.
  unfold OAuth2.handle. cbv zeta.
  destruct (String.eqb_spec (parser.Action step) "oauth2-setup") as [Hsetup | Hsetup].
  { cbn. repeat apply conj; try lia; try reflexivity; try congruence;
      try (intros [H | H]; congruence). }
  destruct (String.eqb_spec (parser.Action step) "oauth2-check-tokens")
    as [Hcheck | Hcheck].
  { assert (Hruns : browserRuns
                      (snd (OAuth2.stepOauth2CheckTokens env b recipe step
                              (OAuth2.credentials b)
                              (OAuth2.buchhalterConfigDirectory b))) = []
                    /\ (requests
                          (snd (OAuth2.stepOauth2CheckTokens env b recipe step
                                  (OAuth2.credentials b)
                                  (OAuth2.buchhalterConfigDirectory b))) = []
                        \/ exists payload,
                            requests
                              (snd (OAuth2.stepOauth2CheckTokens env b recipe step
                                      (OAuth2.credentials b)
                                      (OAuth2.buchhalterConfigDirectory b)))
                            = [OAuth2.tokenRequest b payload])).
    { unfold OAuth2.stepOauth2CheckTokens.
      destruct (OAuth2.GetOauthAccessTokenFromCache env _ _) as [cached |];
        [| split; [reflexivity | now left]].
      destruct (OAuth2.validOauth2AuthToken env cached);
        [split; [reflexivity | now left] |].
      pose proof (getOauth2Tokens_touches env b (OAuth2.refreshPayload b cached)
                    (parser.Supplier recipe +:+ "|"
                     +:+ vault.Id (OAuth2.credentials b))
                    (OAuth2.buchhalterConfigDirectory b)) as [Hnone Hone].
      destruct (OAuth2.getOauth2Tokens env b _ _ _) as [[nt [e |]] effects];
        cbn [snd] in *; (split; [exact Hnone |]);
        (destruct Hone as [-> | ->]; [now left | right; eexists; reflexivity]). }
    destruct Hruns as [Hruns Hrequests]. rewrite Hruns. cbn [length].
    repeat apply conj; try lia; try congruence; try (intros _; exact Hrequests). }
  destruct (String.eqb_spec (parser.Action step) "oauth2-authenticate")
    as [Hlogin | Hlogin].
  { assert (Hruns : (length
                       (browserRuns
                          (snd (OAuth2.stepOauth2Authenticate env b recipe step
                                  (OAuth2.credentials b)
                                  (OAuth2.buchhalterConfigDirectory b)))) <= 4)%nat
                    /\ (requests
                          (snd (OAuth2.stepOauth2Authenticate env b recipe step
                                  (OAuth2.credentials b)
                                  (OAuth2.buchhalterConfigDirectory b))) = []
                        \/ exists payload,
                            requests
                              (snd (OAuth2.stepOauth2Authenticate env b recipe step
                                      (OAuth2.credentials b)
                                      (OAuth2.buchhalterConfigDirectory b)))
                            = [OAuth2.tokenRequest b payload])).
    { unfold OAuth2.stepOauth2Authenticate.
      destruct (0 <? Z.of_nat (String.length (OAuth2.oauth2AuthToken b)));
        [split; [cbn; lia | now left] |].
      destruct (OAuth2.Oauth2Pkce env (OAuth2.oauth2PkceVerifierLength b))
        as [[verifier challenge] pkceErr].
      assert (Hexchange : forall code,
                 browserRuns
                   (snd (OAuth2.getOauth2Tokens env b
                           (OAuth2.codePayload b verifier code)
                           (parser.Supplier recipe +:+ "|"
                            +:+ vault.Id (OAuth2.credentials b))
                           (OAuth2.buchhalterConfigDirectory b))) = []
                 /\ (requests
                       (snd (OAuth2.getOauth2Tokens env b
                               (OAuth2.codePayload b verifier code)
                               (parser.Supplier recipe +:+ "|"
                                +:+ vault.Id (OAuth2.credentials b))
                               (OAuth2.buchhalterConfigDirectory b))) = []
                     \/ requests
                          (snd (OAuth2.getOauth2Tokens env b
                                  (OAuth2.codePayload b verifier code)
                                  (parser.Supplier recipe +:+ "|"
                                   +:+ vault.Id (OAuth2.credentials b))
                                  (OAuth2.buchhalterConfigDirectory b)))
                        = [OAuth2.tokenRequest b (OAuth2.codePayload b verifier code)]))
        by (intros code; apply getOauth2Tokens_touches).
      destruct (OAuth2.Run env (OAuth2.loginForm _ _));
        [| destruct (OAuth2.Run env OAuth2.probeSecondFactor);
           [| destruct (0 <? Z.of_nat (length (OAuth2.nodesOf env
                                                 "#form-input-passcode")));
              [destruct (OAuth2.Run env (OAuth2.submitSecondFactor _)) |];
              [| destruct (OAuth2.Run env OAuth2.readLocation);
                 [| destruct (OAuth2.codeOf env (OAuth2.location env)) as [code |];
                    [specialize (Hexchange code);
                     destruct (OAuth2.getOauth2Tokens env b _ _ _)
                       as [[nt [e |]] effects] |]]
               | destruct (OAuth2.Run env OAuth2.readLocation);
                 [| destruct (OAuth2.codeOf env (OAuth2.location env)) as [code |];
                    [specialize (Hexchange code);
                     destruct (OAuth2.getOauth2Tokens env b _ _ _)
                       as [[nt [e |]] effects] |]]]]];
        cbn [snd] in *; unfold browserRuns, requests in *;
        rewrite ?flat_map_app; try destruct Hexchange as [Hnone Hone];
        try rewrite Hnone;
        (split;
         [destruct pkceErr; cbn; lia
         | try (destruct Hone as [-> | ->]);
           destruct pkceErr; cbn;
           first [now left | right; eexists; reflexivity]]). }
    destruct Hruns as [Hruns Hrequests].
    repeat apply conj; try exact Hruns; try congruence; try (intros _; exact Hrequests). }
  destruct (String.eqb_spec (parser.Action step) "oauth2-post-and-get-items")
    as [Hitems | Hitems].
  { assert (Hruns : browserRuns (snd (OAuth2.stepOauth2PostAndGetItems env b step))
                    = []).
    { unfold OAuth2.stepOauth2PostAndGetItems.
      destruct (OAuth2.NewRequest env "POST" (parser.URL step)); [reflexivity |].
      destruct (OAuth2.Do env (OAuth2.itemsRequest b step))
        as [e | code [e | body]]; try reflexivity.
      destruct (code =? 200); [| destruct (code =? 400); reflexivity].
      destruct (OAuth2.unmarshal env body) as [e | jsr]; [reflexivity |].
      destruct (Z.of_nat (length _) =? 0); [reflexivity |].
      match goal with
      | |- context [OAuth2.fetchDocuments ?e ?d ?s ?f ?i 0 0] =>
          pose proof (fetchDocuments_touches e d s f i 0 0) as Hloop;
          destruct (OAuth2.fetchDocuments e d s f i 0 0) as [[[ended |] c] later]
      end; exact Hloop. }
    rewrite Hruns. cbn [length].
    repeat apply conj; try lia; try congruence; try (intros [H | H]; congruence). }
  cbn. repeat apply conj; try lia; try congruence; try (intros [H | H]; congruence).
Qed.

Lemma oauth2_calls_per_step_witness :
  let step := Fixtures.stepOf "oauth2-authenticate" "Log in" "" in
  let effects :=
    snd (OAuth2.handle Portal.env Fixtures.oauth2Driver
           (Fixtures.recipeOf [step]) step) in
  length (browserRuns effects) = 3%nat
  /\ exists payload,
       requests effects = [OAuth2.tokenRequest Fixtures.oauth2Driver payload].
Proof.
  intros step effects.
  destruct (oauth2_calls_per_step Portal.env Fixtures.oauth2Driver
              (Fixtures.recipeOf [step]) step) as (_ & _ & _ & Hrequests).
  fold effects in Hrequests.
  split; [reflexivity |].
  destruct (Hrequests (or_intror eq_refl)) as [Hnone | Hone];
    [discriminate Hnone | exact Hone].
Defined.

(** ** The update of the recipe repository *)

(** X25. When there is an update.  [updateExists] answers true exactly
    when the HEAD request could be built and was answered with status 200
    and a checksum header that is not empty and differs from the checksum
    in the configuration; it never answers true together with an error.
    The same checksum means no update and no error.  A reply without the
    header is an error, also when the configuration holds no checksum
    either.  At most the one HEAD request is sent. *)
Theorem update_exists_only_for_a_new_checksum (env : repository.Env) :
  let url := repository.repositoryUrl env in
  let checked := repository.updateExists env in
  (fst (fst checked) = true <->
   repository.NewRequest env "HEAD" url = None
   /\ exists checksum body,
        repository.Do env "HEAD" url = repository.Response 200 checksum body
        /\ checksum <> "" /\ checksum <> repository.currentChecksum env)
  /\ (fst (fst checked) = true -> snd (fst checked) = None)
  /\ (forall body,
         repository.NewRequest env "HEAD" url = None ->
         repository.Do env "HEAD" url
         = repository.Response 200 (repository.currentChecksum env) body ->
         repository.currentChecksum env <> "" ->
         fst checked = (false, None))
  /\ (forall body,
         repository.NewRequest env "HEAD" url = None ->
         repository.Do env "HEAD" url = repository.Response 200 "" body ->
         fst checked = (false, Some "update failed with checksum mismatch"))
  /\ (repository.sent (snd checked) = []
      \/ repository.sent (snd checked) = [("HEAD", url)]).
Proof.
  intros url checked. subst checked. unfold repository.updateExists. fold url.
  destruct (repository.NewRequest env "HEAD" url) as [e |];
    [| destruct (repository.Do env "HEAD" url) as [e | code checksum body];
       [| destruct (Z.eqb_spec code 200) as [-> | Hcode];
          [destruct (String.eqb_spec checksum "") as [Hnone | Hsome];
           [| destruct (String.eqb_spec checksum (repository.currentChecksum env))
                as [Hsame | Hnew]] |]]];
    cbn [fst snd negb repository.sent flat_map app];
    repeat apply conj;
    try solve [intros; try discriminate; try tauto;
               repeat match goal with
                      | H : _ /\ _ |- _ => destruct H
                      | H : exists _, _ |- _ => destruct H
                      | H : repository.Response _ _ _ = repository.Response _ _ _
                        |- _ => injection H as ? ? ?; subst
                      end;
               congruence].
  intros _. split; [reflexivity |]. now exists checksum, body.
Qed.

Lemma update_exists_only_for_a_new_checksum_witness :
  fst (repository.updateExists updatedRepository) = (true, None).
Proof.
  destruct (update_exists_only_for_a_new_checksum updatedRepository)
    as (Hiff & Hclean & _).
  assert (Hnew : fst (fst (repository.updateExists updatedRepository)) = true).
  { apply Hiff. split; [reflexivity |].
    exists "def", "{}". repeat split; discriminate. }
  specialize (Hclean Hnew).
  destruct (repository.updateExists updatedRepository) as [[found err] effects].
  cbn [fst snd] in *. now subst.
Defined.

Lemma update_exists_sends_at_most_head (env : repository.Env) :
  repository.sent (snd (repository.updateExists env)) = []
  \/ repository.sent (snd (repository.updateExists env))
     = [("HEAD", repository.repositoryUrl env)].
Proof.
  unfold repository.updateExists.
  destruct (repository.NewRequest env "HEAD" _); [now left |].
  destruct (repository.Do env "HEAD" _) as [e | code checksum body]; [now right |].
  destruct (code =? 200); [| now right].
  destruct (negb (String.eqb checksum "")); [| now right].
  destruct (String.eqb checksum _); now right.
Qed.

Lemma update_exists_stores_nothing (env : repository.Env) :
  repository.stored (snd (repository.updateExists env)) = [].
Proof.
  unfold repository.updateExists.
  destruct (repository.NewRequest env "HEAD" _); [reflexivity |].
  destruct (repository.Do env "HEAD" _) as [e | code checksum body]; [reflexivity |].
  destruct (code =? 200); [| reflexivity].
  destruct (negb (String.eqb checksum "")); [| reflexivity].
  destruct (String.eqb checksum _); reflexivity.
Qed.

(** X26. What an update check leaves behind.  [UpdateIfAvailable] ends
    the process, with code 1, exactly when the check for an update
    returns an error, be it that the server answered without a checksum;
    then nothing is downloaded.  The repository is requested with GET only
    when the check found an update, and the file oicdb.json in the
    configuration directory is written only when that request was
    answered with 200 and the file could be created.  The file then holds
    what the copy of the body left in it: the body of that reply when the
    copy ran to its end, and only the bytes before the failure when the
    read of the body or a write failed.  In both cases the call returns no
    error, the error of the copy being dropped. *)
Theorem update_is_stored_only_after_two_good_replies (env : repository.Env) :
  let url := repository.repositoryUrl env in
  let name := repository.Join env (repository.configDirectory env) "oicdb.json" in
  let checked := repository.updateExists env in
  let run := repository.UpdateIfAvailable env in
  (fst run = repository.Exits 1 <-> snd (fst checked) <> None)
  /\ (forall code, fst run = repository.Exits code -> code = 1)
  /\ (In ("GET", url) (repository.sent (snd run)) -> fst (fst checked) = true)
  /\ (fst (fst checked) = false -> repository.stored (snd run) = [])
  /\ (repository.stored (snd run) = []
      \/ exists checksum body,
           repository.Do env "GET" url = repository.Response 200 checksum body
           /\ repository.create env name = None
           /\ fst run = repository.Returns None
           /\ repository.stored (snd run)
              = [(name,
                  match repository.copyFails env name body with
                  | Some n => String.substring 0 n body
                  | None => body
                  end)])
  /\ (forall checksum body,
         fst checked = (true, None) ->
         repository.NewRequest env "GET" url = None ->
         repository.Do env "GET" url = repository.Response 200 checksum body ->
         repository.create env name = None ->
         fst run = repository.Returns None
         /\ (repository.copyFails env name body = None ->
             repository.stored (snd run) = [(name, body)])
         /\ (forall n,
                repository.copyFails env name body = Some n ->
                repository.stored (snd run) = [(name, String.substring 0 n body)])).
Proof.
  intros url name checked run. subst run. unfold repository.UpdateIfAvailable.
  fold url name checked.
  assert (Hhead : ~ In ("GET", url) (repository.sent (snd checked))).
  { destruct (update_exists_sends_at_most_head env) as [Hs | Hs];
      fold checked url in Hs; rewrite Hs; [intros [] |].
    intros [Heq | []]. discriminate. }
  assert (Hstored : repository.stored (snd checked) = [])
    by apply update_exists_stores_nothing.
  assert (Hkeeps : forall later,
             repository.stored (snd checked ++ later) = repository.stored later).
  { intros later. unfold repository.stored in *.
    now rewrite flat_map_app, Hstored. }
  assert (Hsends : forall later,
             In ("GET", url) (repository.sent (snd checked ++ later)) ->
             In ("GET", url) (repository.sent later)).
  { intros later. unfold repository.sent in *. rewrite flat_map_app.
    intros Hin. apply in_app_or in Hin as [Hin | Hin]; [now elim Hhead | exact Hin]. }
  destruct checked as [[[|] [e |]] effects]; cbn [fst snd] in *;
    [| destruct (repository.NewRequest env "GET" url) as [e |];
       [| destruct (repository.Do env "GET" url) as [e | code checksum body];
          [| destruct (Z.eqb_spec code 200) as [-> | Hcode];
             [destruct (repository.create env name) as [e |] eqn:Hcreate |]]]
     | |];
    cbn [fst snd]; repeat apply conj;
    try solve [split; [discriminate | intros Hno; now elim Hno]];
    try solve [split; [intros _; discriminate | reflexivity]];
    try solve [intros code' Heq; first [discriminate Heq | now injection Heq as <-]];
    try solve [intros; reflexivity];
    try solve [discriminate];
    try solve [intros Hget; exfalso; first [now apply Hhead | now apply Hsends in Hget]];
    try solve [intros; first [exact Hstored | now rewrite Hkeeps]];
    try solve [left; first [exact Hstored | now rewrite Hkeeps]];
    try solve [intros; first [discriminate | congruence]].
  - right. exists checksum, body. repeat apply conj; try reflexivity.
    now rewrite <- app_assoc, Hkeeps.
  - intros checksum' body' _ _ Heq _. injection Heq as _ <-.
    rewrite <- app_assoc, Hkeeps. unfold repository.copied.
    cbn [app repository.stored flat_map].
    repeat apply conj; try reflexivity.
    + now intros ->.
    + now intros n ->.
Qed.

Lemma update_is_stored_only_after_two_good_replies_witness :
  let run := repository.UpdateIfAvailable updatedRepository in
  let cut := repository.UpdateIfAvailable cutOffRepository in
  (fst run = repository.Returns None
   /\ repository.stored (snd run) = [("/home/user/.buchhalter/oicdb.json", "{}")]
   /\ fst (fst (repository.updateExists updatedRepository)) = true)
  /\ (fst cut = repository.Returns None
      /\ repository.stored (snd cut) = [("/home/user/.buchhalter/oicdb.json", "{")]).
Proof.
  intros run cut. split.
  - destruct (update_is_stored_only_after_two_good_replies updatedRepository)
      as (_ & _ & Hget & _ & _).
    split; [reflexivity |]. split; [reflexivity |].
    apply Hget. right. now left.
  - destruct (update_is_stored_only_after_two_good_replies cutOffRepository)
      as (_ & _ & _ & _ & _ & Hcut).
    destruct (Hcut "def" "{}" eq_refl eq_refl eq_refl eq_refl)
      as (Hnil & _ & Hpart).
    split; [exact Hnil |]. exact (Hpart 1%nat eq_refl).
Defined.

(** ** The headers of a request *)

Lemma setHeaders_cons b n h entries header :
  OAuth2.setHeaders b ((n, h) :: entries) header
  = OAuth2.setHeaders b entries
      (<[Go.CanonicalMIMEHeaderKey n := substituted b n h]> header).
Proof. reflexivity. Qed.

Lemma setHeaders_other b entries :
  forall header k,
    (forall n h, In (n, h) entries -> Go.CanonicalMIMEHeaderKey n <> k) ->
    OAuth2.setHeaders b entries header !! k = header !! k.
Proof.
  induction entries as [| [n h] rest IH]; intros header k Hother; [reflexivity |].
  rewrite setHeaders_cons, IH by (intros n' h' Hin; apply (Hother n' h'); now right).
  apply lookup_insert_ne. apply (Hother n h). now left.
Qed.

Lemma setHeaders_names b entries :
  forall header k v,
    OAuth2.setHeaders b entries header !! k = Some v ->
    header !! k = Some v
    \/ exists n h, In (n, h) entries
                   /\ k = Go.CanonicalMIMEHeaderKey n /\ v = substituted b n h.
Proof.
  induction entries as [| [n h] rest IH]; intros header k v Hin; [now left |].
  rewrite setHeaders_cons in Hin. apply IH in Hin as [Hin | (n' & h' & Hin & Hk)].
  - destruct (decide (Go.CanonicalMIMEHeaderKey n = k)) as [Heq | Hne].
    + subst k. rewrite lookup_insert_eq in Hin. injection Hin as <-.
      right. exists n, h. split; [now left | now split].
    + rewrite lookup_insert_ne in Hin by exact Hne. now left.
  - right. exists n', h'. split; [now right | exact Hk].
Qed.

Lemma classic_in (entries : list (string * string)) n h :
  In (n, h) entries \/ ~ In (n, h) entries.
Proof.
  destruct (in_dec (fun x y : string * string => decide (x = y)) (n, h) entries);
    [now left | now right].
Qed.

Lemma setHeaders_once b entries :
  forall header n h,
    In (n, h) entries ->
    (forall n' h', In (n', h') entries ->
                   Go.CanonicalMIMEHeaderKey n' = Go.CanonicalMIMEHeaderKey n ->
                   (n', h') = (n, h)) ->
    OAuth2.setHeaders b entries header !! Go.CanonicalMIMEHeaderKey n
    = Some (substituted b n h).
Proof.
  induction entries as [| [m g] rest IH]; intros header n h Hin Hone; [elim Hin |].
  rewrite setHeaders_cons.
  destruct (decide (Go.CanonicalMIMEHeaderKey m = Go.CanonicalMIMEHeaderKey n))
    as [Hsame | Hdiff].
  - assert (Heq : (m, g) = (n, h)) by (apply Hone; [now left | exact Hsame]).
    injection Heq as -> ->.
    destruct (classic_in rest n h) as [Hlater | Hnever].
    + apply IH; [exact Hlater |].
      intros n' h' Hin'. apply Hone. now right.
    + rewrite setHeaders_other; [apply lookup_insert_eq |].
      intros n' h' Hin' Hk. apply Hnever.
      rewrite <- (Hone n' h' (or_intror Hin') Hk). exact Hin'.
  - destruct Hin as [Heq | Hin]; [injection Heq as -> ->; now elim Hdiff |].
    apply IH; [exact Hin |].
    intros n' h' Hin'. apply Hone. now right.
Qed.

Lemma injective_on_NoDup {A B : Type} (f : A -> B) (l : list A) :
  List.NoDup (map f l) ->
  forall x y, In x l -> In y l -> f x = f y -> x = y.
Proof.
  induction l as [| a rest IH]; intros Hnodup x y Hx Hy Heq; [elim Hx |].
  cbn [map] in Hnodup. apply List.NoDup_cons_iff in Hnodup as [Hfresh Hrest].
  destruct Hx as [-> | Hx], Hy as [-> | Hy]; [reflexivity | | |].
  - elim Hfresh. rewrite Heq. now apply in_map.
  - elim Hfresh. rewrite <- Heq. now apply in_map.
  - now apply IH.
Qed.

Lemma named_or_not (entries : list (string * string)) k :
  (exists n h, In (n, h) entries /\ Go.CanonicalMIMEHeaderKey n = k)
  \/ (forall n h, In (n, h) entries -> Go.CanonicalMIMEHeaderKey n <> k).
Proof.
  induction entries as [| [m g] rest [(n & h & Hin & Hk) | Hnone]].
  - right. intros n h [].
  - left. exists n, h. split; [now right | exact Hk].
  - destruct (decide (Go.CanonicalMIMEHeaderKey m = k)) as [Hk | Hk].
    + left. exists m, g. split; [now left | exact Hk].
    + right. intros n h [Heq | Hin];
        [now injection Heq as <- <- | exact (Hnone n h Hin)].
Qed.

(** Where no two names have the same canonical form the order in which
    the headers are set is of no account. *)
Lemma setHeaders_order b entries entries' header :
  Permutation entries entries' ->
  List.NoDup (map (fun e => Go.CanonicalMIMEHeaderKey (fst e)) entries) ->
  OAuth2.setHeaders b entries header = OAuth2.setHeaders b entries' header.
Proof.
  intros Hperm Hnodup. apply map_eq. intros k.
  assert (Hnodup' : List.NoDup
                      (map (fun e => Go.CanonicalMIMEHeaderKey (fst e)) entries'))
    by (eapply Permutation_NoDup; [apply Permutation_map; exact Hperm | exact Hnodup]).
  destruct (named_or_not entries k) as [(n & h & Hin & <-) | Hnone].
  - rewrite (setHeaders_once b entries header n h Hin).
    + symmetry. apply setHeaders_once.
      * eapply Permutation_in; [exact Hperm | exact Hin].
      * intros n' h' Hin' Hk.
        apply (injective_on_NoDup _ _ Hnodup' (n', h') (n, h));
          [exact Hin' | eapply Permutation_in; [exact Hperm | exact Hin] | exact Hk].
    + intros n' h' Hin' Hk.
      now apply (injective_on_NoDup _ _ Hnodup (n', h') (n, h)).
  - rewrite !setHeaders_other; [reflexivity | | exact Hnone].
    intros n h Hin. apply (Hnone n h).
    eapply Permutation_in; [symmetry; exact Hperm | exact Hin].
Qed.

(** X27. The headers of a request.  The items request and every document
    request carry Content-Type: application/json and the headers of the
    step, each under the canonical form of its name as [Header.Set] stores
    it: a name made of token bytes has its first letter and every letter
    after a dash in upper case and all others in lower case, any other
    name is kept as written.  So a header the step names content-type
    replaces the Content-Type set first, and the token is substituted only
    into a header named Authorization as written: one named authorization
    is sent under Authorization with its placeholder left in.  Where no
    two names of the step have the same canonical form, the order in
    which the headers are set is of no account. *)
Theorem headers_are_set_under_canonical_names
  (b : OAuth2.ClientAuthBrowserDriver) (headers : gmap string string) :
  let header := OAuth2.authorizedHeader b headers in
  (forall k v,
      header !! k = Some v ->
      (k = "Content-Type" /\ v = "application/json")
      \/ exists n h,
           headers !! n = Some h
           /\ k = Go.CanonicalMIMEHeaderKey n /\ v = substituted b n h)
  /\ ((forall n, headers !! n <> None ->
                 Go.CanonicalMIMEHeaderKey n <> "Content-Type") ->
      header !! "Content-Type" = Some "application/json")
  /\ (forall n h,
         headers !! n = Some h ->
         (forall n', headers !! n' <> None ->
                     Go.CanonicalMIMEHeaderKey n' = Go.CanonicalMIMEHeaderKey n ->
                     n' = n) ->
         header !! Go.CanonicalMIMEHeaderKey n = Some (substituted b n h))
  /\ (forall entries,
         Permutation entries (map_to_list headers) ->
         List.NoDup (map (fun e => Go.CanonicalMIMEHeaderKey (fst e)) entries) ->
         OAuth2.setHeaders b entries OAuth2.jsonHeader = header)
  /\ (Go.CanonicalMIMEHeaderKey "content-type" = "Content-Type"
      /\ Go.CanonicalMIMEHeaderKey "authorization" = "Authorization"
      /\ Go.CanonicalMIMEHeaderKey "x-api-KEY" = "X-Api-Key"
      /\ Go.CanonicalMIMEHeaderKey "X Token" = "X Token"
      /\ substituted b "authorization" "Bearer {{ token }}" = "Bearer {{ token }}"
      /\ substituted b "Authorization" "Bearer {{ token }}"
         = "Bearer " +:+ OAuth2.oauth2AuthToken b).
Proof.
  intros header. subst header. unfold OAuth2.authorizedHeader.
  assert (Hlisted : forall n h,
             In (n, h) (map_to_list headers) <-> headers !! n = Some h).
  { intros n h. rewrite <- list_elem_of_In. apply elem_of_map_to_list. }
  repeat apply conj; try reflexivity.
  - intros k v Hin. apply setHeaders_names in Hin as [Hin | (n & h & Hin & Hk & Hv)].
    + left. unfold OAuth2.jsonHeader in Hin.
      apply lookup_singleton_Some in Hin as [<- <-]. now split.
    + right. exists n, h. split; [now apply Hlisted | now split].
  - intros Hother. rewrite setHeaders_other; [reflexivity |].
    intros n h Hin. apply Hother. apply Hlisted in Hin. now rewrite Hin.
  - intros n h Hin Hone. apply setHeaders_once; [now apply Hlisted |].
    intros n' h' Hin' Hk. apply Hlisted in Hin'.
    assert (n' = n) as -> by (apply Hone; [now rewrite Hin' | exact Hk]).
    congruence.
  - intros entries Hperm Hnodup. now apply setHeaders_order.
  - pose proof (ReplaceAll_at "Bearer " "" "{ token }}" (OAuth2.oauth2AuthToken b)
                  eq_refl eq_refl) as Hat.
    rewrite !append_empty in Hat. exact Hat.
Qed.

Lemma headers_are_set_under_canonical_names_witness :
  let b := OAuth2.set_oauth2AuthToken Fixtures.oauth2Driver "live" in
  let lower : gmap string string := {[ "authorization" := "Bearer {{ token }}" ]} in
  let proper : gmap string string := {[ "Authorization" := "Bearer {{ token }}" ]} in
  let typed : gmap string string := {[ "content-type" := "text/xml" ]} in
  OAuth2.authorizedHeader b lower !! "Authorization" = Some "Bearer {{ token }}"
  /\ OAuth2.authorizedHeader b lower !! "authorization" = None
  /\ OAuth2.authorizedHeader b proper !! "Authorization" = Some "Bearer live"
  /\ OAuth2.authorizedHeader b proper !! "Content-Type" = Some "application/json"
  /\ OAuth2.authorizedHeader b typed !! "Content-Type" = Some "text/xml"
  /\ OAuth2.authorizedHeader b typed !! "content-type" = None.
Proof.
  intros b lower proper typed.
  assert (Hsingle : forall (name value : string) n',
             ({[ name := value ]} : gmap string string) !! n' <> None -> n' = name).
  { intros name value n' Hin.
    destruct (decide (name = n')) as [-> | Hne]; [reflexivity |].
    elim Hin. now apply lookup_singleton_ne. }
  destruct (headers_are_set_under_canonical_names b lower)
    as (Hnames1 & _ & Hvalue1 & _).
  destruct (headers_are_set_under_canonical_names b proper)
    as (_ & Htype2 & Hvalue2 & _).
  destruct (headers_are_set_under_canonical_names b typed)
    as (Hnames3 & _ & Hvalue3 & _).
  repeat apply conj.
  - apply (Hvalue1 "authorization" "Bearer {{ token }}");
      [apply lookup_singleton_eq | intros n' Hin _; exact (Hsingle _ _ _ Hin)].
  - destruct (OAuth2.authorizedHeader b lower !! "authorization") as [v |] eqn:Hin;
      [| reflexivity].
    apply Hnames1 in Hin as [[Hk _] | (n & h & Hn & Hk & _)]; [discriminate Hk |].
    assert (n = "authorization") as ->
        by (apply (Hsingle "authorization" "Bearer {{ token }}");
            change (lower !! n <> None); now rewrite Hn).
    discriminate Hk.
  - apply (Hvalue2 "Authorization" "Bearer {{ token }}");
      [apply lookup_singleton_eq | intros n' Hin _; exact (Hsingle _ _ _ Hin)].
  - apply Htype2. intros n Hin.
    rewrite (Hsingle _ _ _ Hin). discriminate.
  - apply (Hvalue3 "content-type" "text/xml");
      [apply lookup_singleton_eq | intros n' Hin _; exact (Hsingle _ _ _ Hin)].
  - destruct (OAuth2.authorizedHeader b typed !! "content-type") as [v |] eqn:Hin;
      [| reflexivity].
    apply Hnames3 in Hin as [[Hk _] | (n & h & Hn & Hk & _)]; [discriminate Hk |].
    assert (n = "content-type") as ->
        by (apply (Hsingle "content-type" "text/xml");
            change (typed !! n <> None); now rewrite Hn).
    discriminate Hk.
Defined.
